(** * twse-strong-notify: the candidate-selection pipeline of
      [find_strong_stocks_action.py]

    A shallow embedding of the two core stages of the script,

    - the universe builder ([fetch_twse_table], [extract_top300]), and
    - the strength evaluator ([is_strong_stock]),

    together with the driver [main], and the properties of the
    natural-language specification stated and settled against them.

    Conventions of the embedding.

    - A Python [str] is a list of Unicode code points ([pystr]); literals are
      written as UTF-8 text and decoded by [utf8].
    - A Python or NumPy [float] is an IEEE-754 binary64 value, represented by
      [spec_float] of the Standard Library with [prec = 53], [emax = 1024];
      arithmetic is the correctly rounded arithmetic of [SpecFloat].
    - A call that may raise is a value of [result]; [try ... except] is
      [try_except].
    - Calls to collaborators outside the script (HTTP, the price provider,
      the file system) are answered by an explicit [World].
    - Library calls whose exact result the properties depend on are embedded
      from the kernel the library runs: [rolling(n).mean()] of pandas,
      [float(str)] of CPython, [round(d)] of NumPy; the order [sort_values]
      leaves among equal keys is a parameter, and NumPy's quicksort is
      embedded to show one order it does leave. *)

From Stdlib Require Import String Ascii.
From Stdlib Require Import ZArith NArith List Bool Lia SpecFloat.
From Stdlib Require Import Permutation Sorted.
Import ListNotations.

Local Open Scope bool_scope.
Local Open Scope list_scope.

(* ===================================================================== *)
(** ** Python strings *)
(* ===================================================================== *)

Module PyStr.

(** A [str] is a sequence of Unicode code points. *)
Definition pystr := list N.

Fixpoint bytes_of (s : string) : list N :=
  match s with
  | EmptyString => []
  | String a r => N_of_ascii a :: bytes_of r
  end.

(** UTF-8 decoding, used only to write literals. *)
Fixpoint utf8_decode (bs : list N) : pystr :=
  match bs with
  | [] => []
  | b :: r =>
      if (b <? 128)%N then b :: utf8_decode r
      else if (b <? 224)%N then
        match r with
        | c1 :: r1 => ((b - 192) * 64 + (c1 - 128))%N :: utf8_decode r1
        | _ => []
        end
      else if (b <? 240)%N then
        match r with
        | c1 :: c2 :: r2 =>
            ((b - 224) * 4096 + (c1 - 128) * 64 + (c2 - 128))%N
              :: utf8_decode r2
        | _ => []
        end
      else
        match r with
        | c1 :: c2 :: c3 :: r3 =>
            ((b - 240) * 262144 + (c1 - 128) * 4096
             + (c2 - 128) * 64 + (c3 - 128))%N :: utf8_decode r3
        | _ => []
        end
  end.

Definition utf8 (s : string) : pystr := utf8_decode (bytes_of s).

Definition eqb (a b : pystr) : bool :=
  if list_eq_dec N.eq_dec a b then true else false.

(** [s.startswith(p)] *)
Fixpoint startswith (p s : pystr) : bool :=
  match p, s with
  | [], _ => true
  | _ :: _, [] => false
  | a :: p', b :: s' => (a =? b)%N && startswith p' s'
  end.

(** [p in s]: substring test. *)
Fixpoint contains (p s : pystr) : bool :=
  startswith p s ||
  match s with
  | [] => false
  | _ :: s' => contains p s'
  end.

(** [s.replace(old, new)] for a non-empty [old]: leftmost,
    non-overlapping occurrences, scanned left to right. *)
Fixpoint replace_fuel (fuel : nat) (old new s : pystr) : pystr :=
  match fuel with
  | O => s
  | S fuel' =>
      match s with
      | [] => []
      | c :: s' =>
          if startswith old s
          then new ++ replace_fuel fuel' old new (skipn (length old) s)
          else c :: replace_fuel fuel' old new s'
      end
  end.

Definition replace (old new s : pystr) : pystr :=
  replace_fuel (length s) old new s.

(** [str.isspace] on one code point (the characters of bidirectional type
    WS, B or S, or of category Zs). *)
Definition isspace (c : N) : bool :=
  ((9 <=? c) && (c <=? 13) || (28 <=? c) && (c <=? 32)
   || (c =? 133) || (c =? 160) || (c =? 5760)
   || (8192 <=? c) && (c <=? 8202)
   || (c =? 8232) || (c =? 8233) || (c =? 8239) || (c =? 8287)
   || (c =? 12288))%N.

Fixpoint lstrip (s : pystr) : pystr :=
  match s with
  | [] => []
  | c :: s' => if isspace c then lstrip s' else s
  end.

Definition rstrip (s : pystr) : pystr := rev (lstrip (rev s)).

(** [s.strip()] *)
Definition strip (s : pystr) : pystr := rstrip (lstrip s).

(** [sep.join(parts)] *)
Fixpoint join (sep : pystr) (parts : list pystr) : pystr :=
  match parts with
  | [] => []
  | [p] => p
  | p :: rest => p ++ sep ++ join sep rest
  end.

End PyStr.
Import PyStr.

(* ===================================================================== *)
(** ** binary64 floating point *)
(* ===================================================================== *)

Module F64.

Definition prec : Z := 53.
Definition emax : Z := 1024.

Definition float := spec_float.

Definition nan : float := S754_nan.
Definition inf : float := S754_infinity false.
Definition zero : float := S754_zero false.

Definition add : float -> float -> float := SFadd prec emax.
Definition sub : float -> float -> float := SFsub prec emax.
Definition mul : float -> float -> float := SFmul prec emax.
Definition div : float -> float -> float := SFdiv prec emax.

(** [a < b], [a <= b]; [a > b] is [ltb b a] and [a >= b] is [leb b a].
    Every comparison with NaN is false. *)
Definition ltb : float -> float -> bool := SFltb.
Definition leb : float -> float -> bool := SFleb.
Definition gtb (a b : float) : bool := ltb b a.
Definition geb (a b : float) : bool := leb b a.

(** [a == b]: false when either side is NaN, and [+0 == -0]. *)
Definition feq : float -> float -> bool := SFeqb.

(** Unary minus. *)
Definition opp : float -> float := SFopp.

(** The sign bit, as C's [signbit]. *)
Definition signbit (x : float) : bool :=
  match x with
  | S754_zero s | S754_infinity s | S754_finite s _ _ => s
  | S754_nan => false
  end.

(** [math.isnan] *)
Definition isnan (x : float) : bool :=
  match x with S754_nan => true | _ => false end.

Definition isinf (x : float) : bool :=
  match x with S754_infinity _ => true | _ => false end.

(** The float nearest to an integer. *)
Definition of_Z (z : Z) : float := binary_normalize prec emax z 0 false.
Definition of_nat (n : nat) : float := of_Z (Z.of_nat n).

(** The literal [0.95], i.e. 0x1.e666666666666p-1. *)
Definition f0_95 : float := S754_finite false 8556839292003942 (-53).

(** Values a binary64 variable can hold: mantissa and exponent in range. *)
Definition valid (x : float) : bool := valid_binary prec emax x.

(** [numpy.rint]: round to the nearest integer, ties to even. *)
Definition rint (x : float) : float :=
  match x with
  | S754_finite s m e =>
      if (0 <=? e)%Z then x
      else
        let '(mrs, _) := shr (Build_shr_record (Zpos m) false false) e (- e) in
        let n := round_nearest_even (shr_m mrs) (loc_of_shr_record mrs) in
        match n with
        | Z0 => S754_zero s
        | _ => binary_normalize prec emax (cond_Zopp s n) 0 s
        end
  | _ => x
  end.

(** [numpy.round(x, d)] for [d >= 0]: multiply by [10**d], [rint], divide
    by [10**d]. *)
Definition np_round (d : nat) (x : float) : float :=
  let f := of_Z (10 ^ Z.of_nat d) in
  div (rint (mul x f)) f.

End F64.

(* ===================================================================== *)
(** ** Calls that may raise *)
(* ===================================================================== *)

Inductive result (A : Type) : Type :=
| Ok (a : A)
| Raise (exn : pystr).
Arguments Ok {A} a.
Arguments Raise {A} exn.

Definition bind {A B} (r : result A) (k : A -> result B) : result B :=
  match r with
  | Ok a => k a
  | Raise e => Raise e
  end.

(** [try: body  except Exception as e: handler(e)] *)
Definition try_except {A} (body : result A) (handler : pystr -> result A)
  : result A :=
  match body with
  | Ok a => Ok a
  | Raise e => handler e
  end.

Notation "x <- c1 ;; c2" := (bind c1 (fun x => c2))
  (at level 61, c1 at next level, right associativity).

(* ===================================================================== *)
(** ** The strength evaluator: [is_strong_stock] *)
(* ===================================================================== *)

Module Evaluator.
Import F64.

(** One row of the frame returned by the price provider: only the two
    fields the evaluator reads. *)
Record Bar := { Close : float; Volume : float }.

(** The frame of [yf.download]: which of the two columns exist, and the
    rows by date ascending. *)
Record PriceFrame := {
  has_Close : bool;
  has_Volume : bool;
  bars : list Bar
}.

(** What [yf.download] did. *)
Inductive download :=
| Raised (msg : pystr)
| ReturnedNone
| Returned (df : PriceFrame).

(** [data.empty] *)
Definition empty (df : PriceFrame) : bool :=
  match bars df with [] => true | _ => false end.

(** [data.dropna(subset=["Close"])] *)
Definition dropna_Close (rows : list Bar) : list Bar :=
  filter (fun b => negb (isnan (Close b))) rows.

(** [Series.rolling(n).mean()] is computed by pandas' kernel [roll_mean]
    (window/aggregations.pyx), embedded here as it is written: one running
    sum over the whole series, to which every observation entering the
    window is added and from which every observation leaving it is
    subtracted, both with Kahan compensation, and the counters the kernel
    keeps beside it. *)
Record MeanState := {
  nobs : nat;
  sum_x : float;
  neg_ct : nat;
  compensation_add : float;
  compensation_remove : float;
  num_consecutive_same_value : nat;
  prev_value : float
}.

(** [_prep_values]: infinite observations are replaced by NaN before the
    kernel runs. *)
Definition prep_values (xs : list float) : list float :=
  map (fun x => if isinf x then nan else x) xs.

(** [add_mean]: a NaN observation is skipped. *)
Definition add_mean (val : float) (st : MeanState) : MeanState :=
  if isnan val then st
  else
    let y := sub val (compensation_add st) in
    let t := add (sum_x st) y in
    {| nobs := S (nobs st);
       sum_x := t;
       neg_ct := if signbit val then S (neg_ct st) else neg_ct st;
       compensation_add := sub (sub t (sum_x st)) y;
       compensation_remove := compensation_remove st;
       num_consecutive_same_value :=
         if feq val (prev_value st)
         then S (num_consecutive_same_value st) else 1;
       prev_value := val |}.

(** [remove_mean] *)
Definition remove_mean (val : float) (st : MeanState) : MeanState :=
  if isnan val then st
  else
    let y := sub (opp val) (compensation_remove st) in
    let t := add (sum_x st) y in
    {| nobs := pred (nobs st);
       sum_x := t;
       neg_ct := if signbit val then pred (neg_ct st) else neg_ct st;
       compensation_add := compensation_add st;
       compensation_remove := sub (sub t (sum_x st)) y;
       num_consecutive_same_value := num_consecutive_same_value st;
       prev_value := prev_value st |}.

(** [calc_mean]: NaN below [minp] observations; the value itself when the
    whole window repeats one value; a mean of the wrong sign is replaced by
    zero. *)
Definition calc_mean (minp : nat) (st : MeanState) : float :=
  if (minp <=? nobs st)%nat && (0 <? nobs st)%nat then
    let result := div (sum_x st) (of_nat (nobs st)) in
    if (nobs st <=? num_consecutive_same_value st)%nat then prev_value st
    else if (neg_ct st =? 0)%nat && ltb result zero then zero
    else if (neg_ct st =? nobs st)%nat && gtb result zero then zero
    else result
  else nan.

(** The bounds of the fixed window of [n] observations that ends at
    position [i]: [start[i] = max(0, i + 1 - n)], [end[i] = i + 1]. *)
Definition window_start (n i : nat) : nat := i + 1 - n.
Definition window_end (i : nat) : nat := i + 1.

(** The set-up branch of the kernel's loop: every counter is reset and
    [prev_value] is the first observation of the window; then observations
    [s .. e - 1] are added. *)
Definition init_state (v : float) : MeanState :=
  {| nobs := 0; sum_x := zero; neg_ct := 0;
     compensation_add := zero; compensation_remove := zero;
     num_consecutive_same_value := 0; prev_value := v |}.

Definition setup_state (values : list float) (s e : nat) : MeanState :=
  fold_left (fun st j => add_mean (nth j values nan) st) (seq s (e - s))
    (init_state (nth s values nan)).

(** The state of the kernel when it reports position [i]: set up afresh at
    the first position and whenever the window shares nothing with the
    previous one, otherwise the previous state with the observations that
    left the window removed and those that entered it added. *)
Fixpoint roll_state (n : nat) (values : list float) (i : nat) : MeanState :=
  match i with
  | O => setup_state values (window_start n 0) (window_end 0)
  | S j =>
      let s := window_start n i in
      let e := window_end i in
      if (window_end j <=? s)%nat then setup_state values s e
      else
        let st := roll_state n values j in
        let st :=
          fold_left (fun st k => remove_mean (nth k values nan) st)
                    (seq (window_start n j) (s - window_start n j)) st in
        fold_left (fun st k => add_mean (nth k values nan) st)
                  (seq (window_end j) (e - window_end j)) st
  end.

(** [xs.rolling(n).mean()], with the default [min_periods = n]. *)
Definition rolling_mean (n : nat) (xs : list float) : list float :=
  let values := prep_values xs in
  map (fun i => calc_mean n (roll_state n values i)) (seq 0 (length xs)).

(** [xs.tail(k)] *)
Definition tail {A} (k : nat) (xs : list A) : list A :=
  skipn (length xs - k) xs.

(** [xs.iloc[-k]], for [1 <= k <= len(xs)]. *)
Definition iloc_neg (k : nat) (xs : list float) : float :=
  nth (length xs - k) xs nan.

Definition fmax (a b : float) : float := if ltb a b then b else a.

(** [xs.max()]: the maximum of the observations that are not NaN, NaN when
    there is none. *)
Definition series_max (xs : list float) : float :=
  match filter (fun x => negb (isnan x)) xs with
  | [] => nan
  | x :: r => fold_left fmax r x
  end.

(** The frame after the indicator columns were added. *)
Record Indicators := {
  rows : list Bar;
  MA3 : list float;
  MA5 : list float;
  MA8 : list float;
  MA20 : list float;
  MA60 : list float;
  MA5_vol : list float
}.

(** The dictionary [reason] of a completed evaluation. *)
Record Conditions := {
  cond_vols_up : bool;
  cond_yesterday_vs_ma5 : bool;
  cond_close_above_ma5 : bool;
  cond_close_new10 : bool;
  cond_pct : bool;
  pct : float
}.

Inductive Reason :=
| Tag (s : pystr)
| Breakdown (c : Conditions).

Definition Verdict : Type := bool * Reason * option Indicators.

Definition closes (rs : list Bar) : list float := map Close rs.
Definition volumes (rs : list Bar) : list float := map Volume rs.

Definition add_indicators (rs : list Bar) : Indicators :=
  {| rows := rs;
     MA3 := rolling_mean 3 (closes rs);
     MA5 := rolling_mean 5 (closes rs);
     MA8 := rolling_mean 8 (closes rs);
     MA20 := rolling_mean 20 (closes rs);
     MA60 := rolling_mean 60 (closes rs);
     MA5_vol := rolling_mean 5 (volumes rs) |}.

(** [last_vols[0] < last_vols[1] < last_vols[2]] guarded by
    [len(last_vols) == 3]. *)
Definition vols_up (last_vols : list float) : bool :=
  match last_vols with
  | [v0; v1; v2] => ltb v0 v1 && ltb v1 v2
  | _ => false
  end.

(** Lines 134-157: the five conditions, once at least 10 rows remain. *)
Definition conditions (data : Indicators) : Conditions :=
  let vol := volumes (rows data) in
  let close := closes (rows data) in
  let last_vols := tail 3 vol in
  let c_vols_up := vols_up last_vols in
  let c_yesterday_vs_ma5 :=
    if negb (isnan (iloc_neg 2 (MA5_vol data)))
    then gtb (iloc_neg 2 vol) (mul (iloc_neg 2 (MA5_vol data)) (of_Z 2))
    else false in
  let close_today := iloc_neg 1 close in
  let ma5_today := iloc_neg 1 (MA5 data) in
  let c_close_above_ma5 := negb (isnan ma5_today) && gtb close_today ma5_today in
  let ten_high := series_max (tail 10 close) in
  let c_close_new10 :=
    geb close_today ten_high || geb close_today (mul ten_high f0_95) in
  let prev_close := iloc_neg 2 close in
  let p := mul (div (sub close_today prev_close) prev_close) (of_Z 100) in
  let c_pct := gtb p (of_Z 3) in
  {| cond_vols_up := c_vols_up;
     cond_yesterday_vs_ma5 := c_yesterday_vs_ma5;
     cond_close_above_ma5 := c_close_above_ma5;
     cond_close_new10 := c_close_new10;
     cond_pct := c_pct;
     pct := np_round 2 p |}.

(** [all([...])] over the five flags. *)
Definition all_conditions (c : Conditions) : bool :=
  forallb (fun b => b)
    [cond_vols_up c; cond_yesterday_vs_ma5 c; cond_close_above_ma5 c;
     cond_close_new10 c; cond_pct c].

(** The body of the [try] block, given what [yf.download] returned. *)
Definition evaluate (fetched : option PriceFrame) : Verdict :=
  match fetched with
  | None => (false, Tag (utf8 "no-data"), None)
  | Some df =>
      if empty df || negb (has_Close df)
      then (false, Tag (utf8 "no-data"), None)
      else
        let rs := dropna_Close (bars df) in
        if negb (has_Volume df)
        then (false, Tag (utf8 "no-volume"), None)
        else
          let data := add_indicators rs in
          if (length rs <? 10)%nat
          then (false, Tag (utf8 "short-history"), Some data)
          else
            let reason := conditions data in
            (all_conditions reason, Breakdown reason, Some data)
  end.

(** [is_strong_stock(symbol_plain, name)], with the provider's answer for
    [symbol_plain + ".TW"] made explicit. *)
Definition is_strong_stock (yf_download : pystr -> download)
           (symbol_plain name : pystr) : Verdict :=
  let symbol := symbol_plain ++ utf8 ".TW" in
  match yf_download symbol with
  | Raised e => (false, Tag (utf8 "error:" ++ e), None)
  | ReturnedNone => evaluate None
  | Returned df => evaluate (Some df)
  end.

End Evaluator.

(* ===================================================================== *)
(** ** The built-in [float(s)] on a string *)
(* ===================================================================== *)

Module PyFloat.
Import F64.

Definition is_digit (c : N) : bool := ((48 <=? c) && (c <=? 57))%N.

(** ASCII lower case, for the case-insensitive words [inf] and [nan]. *)
Definition lower (c : N) : N :=
  if ((65 <=? c) && (c <=? 90))%N then (c + 32)%N else c.

(** The whitespace [float] trims itself: space, and tab to carriage
    return. *)
Definition is_c_space (c : N) : bool :=
  ((c =? 32) || (9 <=? c) && (c <=? 13))%N.

(** The non-ASCII decimal digits of the Unicode character database
    (category Nd, as of Unicode 14.0, the database of CPython 3.11): each
    entry is the code point of a digit zero, followed by the digits one to
    nine of the same script. *)
Definition decimal_zeros : list N :=
  [1632; 1776; 1984; 2406; 2534; 2662; 2790; 2918; 3046; 3174; 3302; 3430;
   3558; 3664; 3792; 3872; 4160; 4240; 6112; 6160; 6470; 6608; 6784; 6800;
   6992; 7088; 7232; 7248; 42528; 43216; 43264; 43472; 43504; 43600; 44016;
   65296; 66720; 68912; 69734; 69872; 69942; 70096; 70384; 70736; 70864;
   71248; 71360; 71472; 71904; 72016; 72784; 73040; 73120; 92768; 92864;
   93008; 120782; 120792; 120802; 120812; 120822; 123200; 123632; 125264;
   130032]%N.

(** [Py_UNICODE_TODECIMAL]: the value of a decimal digit. *)
Definition to_decimal (c : N) : option N :=
  match find (fun z => (z <=? c) && (c <? z + 10))%N decimal_zeros with
  | Some z => Some (c - z)%N
  | None => None
  end.

(** Before parsing, CPython rewrites the text character by character
    ([_PyUnicode_TransformDecimalAndSpaceToASCII]): an ASCII character is
    kept, whitespace becomes a space, a decimal digit of any script becomes
    the ASCII digit of the same value, and any other character becomes [?],
    which makes the text malformed. *)
Definition to_ascii (c : N) : N :=
  if (c <? 127)%N then c
  else if isspace c then 32%N
  else match to_decimal c with
       | Some d => (48 + d)%N
       | None => 63%N
       end.

Fixpoint lstrip_c (s : pystr) : pystr :=
  match s with
  | [] => []
  | c :: s' => if is_c_space c then lstrip_c s' else s
  end.

Definition strip_c (s : pystr) : pystr := rev (lstrip_c (rev (lstrip_c s))).

(** Underscores: allowed only between two digits.  [prev] is the previous
    character (0 at the start).  Returns the text without them. *)
Fixpoint drop_underscores (prev : N) (s : pystr) : option pystr :=
  match s with
  | [] => if (prev =? 95)%N then None else Some []
  | c :: s' =>
      if (c =? 95)%N then
        if is_digit prev then drop_underscores c s' else None
      else if (prev =? 95)%N && negb (is_digit c) then None
      else option_map (cons c) (drop_underscores c s')
  end.

(** The longest prefix of digits, as digit values, and what follows. *)
Fixpoint span_digits (s : pystr) : list N * pystr :=
  match s with
  | [] => ([], [])
  | c :: s' =>
      if is_digit c
      then let '(ds, r) := span_digits s' in ((c - 48)%N :: ds, r)
      else ([], s)
  end.

Definition digits_value (ds : list N) : Z :=
  fold_left (fun acc d => (10 * acc + Z.of_N d)%Z) ds 0%Z.

(** An optional sign: [true] for [-]. *)
Definition split_sign (s : pystr) : bool * pystr :=
  match s with
  | 45%N :: r => (true, r)
  | 43%N :: r => (false, r)
  | _ => (false, s)
  end.

(** The correctly rounded binary64 value of [(-1)^s * m * 10^e10], for
    [m >= 0].  For a negative exponent the quotient is computed with more
    than [prec + 2] bits and a sticky bit, which rounds as the exact
    quotient does. *)
Definition of_decimal (s : bool) (m : Z) (e10 : Z) : float :=
  if (m =? 0)%Z then S754_zero s
  else if (0 <=? e10)%Z
  then binary_normalize prec emax (cond_Zopp s (m * 10 ^ e10)) 0 s
  else
    let d := (10 ^ (- e10))%Z in
    let k := Z.max 0 (Z.log2 d - Z.log2 m + 60) in
    let n := (m * 2 ^ k)%Z in
    let q := (n / d)%Z in
    let sticky := if (n mod d =? 0)%Z then 0%Z else 1%Z in
    binary_normalize prec emax (cond_Zopp s (2 * q + sticky)) (- (k + 1)) s.

(** The words [inf], [infinity] and [nan], in any case. *)
Definition parse_inf_or_nan (s : bool) (body : pystr) : option float :=
  let w := map lower body in
  if PyStr.eqb w (utf8 "inf") || PyStr.eqb w (utf8 "infinity")
  then Some (S754_infinity s)
  else if PyStr.eqb w (utf8 "nan") then Some nan
  else None.

(** The exponent part: nothing, or [e] or [E], an optional sign and at
    least one digit, up to the end of the text. *)
Definition parse_exponent (s : pystr) : option Z :=
  match s with
  | [] => Some 0%Z
  | c :: r =>
      if ((c =? 101) || (c =? 69))%N then
        let '(neg, r1) := split_sign r in
        match span_digits r1 with
        | ([], _) => None
        | (ds, []) => Some (cond_Zopp neg (digits_value ds))
        | (_, _ :: _) => None
        end
      else None
  end.

(** A decimal numeral: digits with an optional point, at least one digit
    in all, then the exponent part. *)
Definition parse_decimal (s : bool) (body : pystr) : option float :=
  let '(ip, r1) := span_digits body in
  let '(fp, r2) :=
    match r1 with
    | 46%N :: r => span_digits r
    | _ => ([], r1)
    end in
  match ip ++ fp with
  | [] => None
  | ds =>
      match parse_exponent r2 with
      | Some e => Some (of_decimal s (digits_value ds) (e - Z.of_nat (length fp)))
      | None => None
      end
  end.

Definition parse (s : pystr) : option float :=
  match drop_underscores 0%N (strip_c (map to_ascii s)) with
  | None => None
  | Some t =>
      let '(neg, body) := split_sign t in
      match parse_decimal neg body with
      | Some x => Some x
      | None => parse_inf_or_nan neg body
      end
  end.

Definition ValueError : pystr := utf8 "ValueError: could not convert string to float".

(** [float(s)]: the value, or [ValueError]. *)
Definition py_float (s : pystr) : result float :=
  match parse s with
  | Some x => Ok x
  | None => Raise ValueError
  end.

End PyFloat.

(* ===================================================================== *)
(** ** Tables, payloads and the [(value, error)] convention *)
(* ===================================================================== *)

(** The pair a function of the script returns: [(value, None)] on success
    and [(None, message)] on failure. *)
Inductive outcome (A : Type) : Type :=
| Value (a : A)
| Failed (err : pystr).
Arguments Value {A} a.
Arguments Failed {A} err.

(** The object held by one cell of the raw table.  The exchange delivers
    text; [None], booleans and integers are the other objects a JSON cell
    can become. *)
Inductive cell :=
| CStr (s : pystr)
| CNone
| CBool (b : bool)
| CInt (z : Z).

Fixpoint uint_digits (u : Decimal.uint) : pystr :=
  match u with
  | Decimal.Nil => []
  | Decimal.D0 r => 48%N :: uint_digits r
  | Decimal.D1 r => 49%N :: uint_digits r
  | Decimal.D2 r => 50%N :: uint_digits r
  | Decimal.D3 r => 51%N :: uint_digits r
  | Decimal.D4 r => 52%N :: uint_digits r
  | Decimal.D5 r => 53%N :: uint_digits r
  | Decimal.D6 r => 54%N :: uint_digits r
  | Decimal.D7 r => 55%N :: uint_digits r
  | Decimal.D8 r => 56%N :: uint_digits r
  | Decimal.D9 r => 57%N :: uint_digits r
  end.

(** [str(n)] of an integer. *)
Definition str_of_Z (z : Z) : pystr :=
  match Z.to_int z with
  | Decimal.Pos u => uint_digits u
  | Decimal.Neg u => 45%N :: uint_digits u
  end.

(** [str(x)] of a cell. *)
Definition py_str (x : cell) : pystr :=
  match x with
  | CStr s => s
  | CNone => utf8 "None"
  | CBool true => utf8 "True"
  | CBool false => utf8 "False"
  | CInt z => str_of_Z z
  end.

(** A [pandas.DataFrame] of objects: column labels and rows, every row
    holding one cell per column. *)
Record DataFrame := {
  columns : list pystr;
  table : list (list cell)
}.

(** A Python [dict] with string keys, in insertion order. *)
Definition dict (V : Type) : Type := list (pystr * V).

Fixpoint dict_get {V} (k : pystr) (d : dict V) : option V :=
  match d with
  | [] => None
  | (k', v) :: r => if PyStr.eqb k k' then Some v else dict_get k r
  end.

(** [d[k] = v]: overwrite in place, or append. *)
Fixpoint dict_set {V} (k : pystr) (v : V) (d : dict V) : dict V :=
  match d with
  | [] => [(k, v)]
  | (k', v') :: r =>
      if PyStr.eqb k k' then (k, v) :: r else (k', v') :: dict_set k v r
  end.

Definition dict_has {V} (k : pystr) (d : dict V) : bool :=
  match dict_get k d with Some _ => true | None => false end.

(** The object [r.json()] returns. *)
#[local] Unset Elimination Schemes.
Inductive json :=
| JNull
| JBool (b : bool)
| JInt (z : Z)
| JFloat (f : F64.float)
| JStr (s : pystr)
| JList (l : list json)
| JDict (d : list (pystr * json)).
#[local] Set Elimination Schemes.

(** [type(x).__name__] *)
Definition type_name (x : json) : pystr :=
  match x with
  | JNull => utf8 "NoneType"
  | JBool _ => utf8 "bool"
  | JInt _ => utf8 "int"
  | JFloat _ => utf8 "float"
  | JStr _ => utf8 "str"
  | JList _ => utf8 "list"
  | JDict _ => utf8 "dict"
  end.

(* ===================================================================== *)
(** ** The universe builder: [fetch_twse_table] and [extract_top300] *)
(* ===================================================================== *)

Module Universe.
Import F64.

(** *** [fetch_twse_table] *)

Section Fetch.

(** [requests.get(...)], [raise_for_status()] and [r.json()] together. *)
Variable http_get_json : result json.

(** [pd.DataFrame(data, columns=fields)], which raises on shapes it cannot
    use. *)
Variable pd_DataFrame : json -> json -> result DataFrame.

(** The test [isinstance(v, dict) and "data" in v and "fields" in v]
    followed by the guarded construction; [None] when the test fails or the
    construction raises and the [except] clause passes. *)
Definition table_of (v : json) : option DataFrame :=
  match v with
  | JDict d =>
      match dict_get (utf8 "data") d, dict_get (utf8 "fields") d with
      | Some rows, Some fields =>
          match pd_DataFrame rows fields with
          | Ok df => Some df
          | Raise _ => None
          end
      | _, _ => None
      end
  | _ => None
  end.

(** [js.items()] *)
Definition items (js : json) : result (list (pystr * json)) :=
  match js with
  | JDict d => Ok d
  | _ => Raise (utf8 "AttributeError: '" ++ type_name js
                 ++ utf8 "' object has no attribute 'items'")
  end.

(** The loop of lines 67-73: the first entry whose value yields a table. *)
Fixpoint first_table (kvs : list (pystr * json)) : option DataFrame :=
  match kvs with
  | [] => None
  | (_, v) :: r =>
      match table_of v with
      | Some df => Some df
      | None => first_table r
      end
  end.

Definition fetch_twse_table : result (outcome DataFrame) :=
  match http_get_json with
  | Raise e => Ok (Failed (utf8 "TWSE fetch failed: " ++ e))
  | Ok js =>
      match table_of js with
      | Some df => Ok (Value df)
      | None =>
          kvs <- items js ;;
          match first_table kvs with
          | Some df => Ok (Value df)
          | None =>
              Ok (Failed (utf8 "No suitable table structure found in TWSE JSON."))
          end
      end
  end.

End Fetch.

(** *** [extract_top300] *)

(** The column map [col_map]: for each of the four keys the last column
    whose label contains the provider's field name. *)
Definition col_map_step (m : dict pystr) (c : pystr) : dict pystr :=
  let m1 := if contains (utf8 "證券代號") c then dict_set (utf8 "code") c m else m in
  let m2 := if contains (utf8 "證券名稱") c then dict_set (utf8 "name") c m1 else m1 in
  let m3 := if contains (utf8 "成交股數") c then dict_set (utf8 "vol") c m2 else m2 in
  if contains (utf8 "收盤價") c then dict_set (utf8 "close") c m3 else m3.

Definition build_col_map (cols : list pystr) : dict pystr :=
  fold_left col_map_step cols [].

(** [repr] of a list of plain ASCII strings, as the f-string prints it. *)
Definition repr_keys (ks : list pystr) : pystr :=
  utf8 "[" ++ join (utf8 ", ") (map (fun k => utf8 "'" ++ k ++ utf8 "'") ks)
       ++ utf8 "]".

(** The positions of the columns labelled [label]. *)
Definition positions (label : pystr) (cols : list pystr) : list nat :=
  filter (fun i => PyStr.eqb (nth i cols []) label) (seq 0 (length cols)).

(** One row of the four selected columns, before normalisation. *)
Record RawRow := {
  raw_code : cell;
  raw_name : cell;
  raw_vol : cell;
  raw_close : cell
}.

(** [df[[code, name, vol, close]]] followed by the assignment of four
    labels to [df.columns]: a label carried by several columns selects them
    all, and the assignment then raises. *)
Definition select_columns (cols : list pystr) (rows : list (list cell))
           (c_code c_name c_vol c_close : pystr) : result (list RawRow) :=
  match positions c_code cols ++ positions c_name cols
        ++ positions c_vol cols ++ positions c_close cols with
  | [i; j; k; l] =>
      Ok (map (fun r => {| raw_code := nth i r CNone;
                           raw_name := nth j r CNone;
                           raw_vol := nth k r CNone;
                           raw_close := nth l r CNone |}) rows)
  | _ => Raise (utf8 "ValueError: Length mismatch")
  end.

(** The text after the first [>] when no newline comes before it. *)
Fixpoint after_gt (s : pystr) : option pystr :=
  match s with
  | [] => None
  | c :: r =>
      if (c =? 62)%N then Some r
      else if (c =? 10)%N then None
      else after_gt r
  end.

Fixpoint remove_tags_fuel (fuel : nat) (s : pystr) : pystr :=
  match fuel with
  | O => s
  | S fuel' =>
      match s with
      | [] => []
      | c :: r =>
          if (c =? 60)%N then
            match after_gt r with
            | Some rest => remove_tags_fuel fuel' rest
            | None => c :: remove_tags_fuel fuel' r
            end
          else c :: remove_tags_fuel fuel' r
      end
  end.

(** [.str.replace(r"<.*?>", "", regex=True)] *)
Definition remove_tags (s : pystr) : pystr := remove_tags_fuel (length s) s.

(** The text both parsers hand to [float]. *)
Definition numeric_text (x : cell) : pystr :=
  strip (replace (utf8 "--") (utf8 "0") (replace (utf8 ",") [] (py_str x))).

(** Lines 95-98. *)
Definition to_num (x : cell) : result float :=
  let s := numeric_text x in
  try_except (PyFloat.py_float s) (fun _ => Ok zero).

(** Lines 100-103. *)
Definition to_price (x : cell) : result float :=
  let s := numeric_text x in
  try_except (PyFloat.py_float s) (fun _ => Ok nan).

(** [series.apply(f)] for an [f] that may raise. *)
Fixpoint apply {A B} (f : A -> result B) (xs : list A) : result (list B) :=
  match xs with
  | [] => Ok []
  | x :: r => y <- f x ;; ys <- apply f r ;; Ok (y :: ys)
  end.

(** A row after lines 92-104. *)
Record Quote := {
  q_code : pystr;
  q_name : pystr;
  q_vol : float;
  q_close : float
}.

Definition normalise (r : RawRow) : result Quote :=
  v <- to_num (raw_vol r) ;;
  p <- to_price (raw_close r) ;;
  Ok {| q_code := strip (py_str (raw_code r));
        q_name := strip (remove_tags (py_str (raw_name r)));
        q_vol := v;
        q_close := p |}.

Definition exclude_name_keywords : list pystr :=
  map utf8 ["ETF"; "權證"; "DR"; "受益證券"; "基金"; "富邦"; "元大"; "國泰";
            "群益"; "永豐"; "台新"; "銀行"; "金控"; "金融"; "證券"; "保險"]%string.

(** [.str.contains("|".join(exclude_name_keywords))]: the pattern is an
    alternation of literal words, so the search succeeds when one of them
    occurs in the name. *)
Definition name_excluded (name : pystr) : bool :=
  existsb (fun k => contains k name) exclude_name_keywords.

(** *** Sorting *)

(** [sort_values("成交股數", ascending=False)] sorts with NumPy's default
    [kind="quicksort"], which does not promise any order among equal keys;
    rows whose key is NaN go last, in table order.  The order quicksort
    leaves among equal keys is represented by [tie], a ranking of the
    positions of the table: of two rows with equal volume the one of lower
    rank comes first, and table order decides between equal ranks.  With
    [tie] the identity the sort is the stable one. *)
Section Sort.

Variable tie : nat -> nat.

Definition before (a b : nat * Quote) : bool :=
  ltb (q_vol (snd b)) (q_vol (snd a))
  || negb (ltb (q_vol (snd a)) (q_vol (snd b)))
     && (tie (fst a) <=? tie (fst b))%nat.

Fixpoint insert (x : nat * Quote) (l : list (nat * Quote)) : list (nat * Quote) :=
  match l with
  | [] => [x]
  | y :: r => if before x y then x :: y :: r else y :: insert x r
  end.

Definition sort_desc (l : list (nat * Quote)) : list (nat * Quote) :=
  fold_right insert [] l.

Definition sort_values_desc (rows : list Quote) : list Quote :=
  let indexed := combine (seq 0 (length rows)) rows in
  let non_nans := filter (fun p => negb (isnan (q_vol (snd p)))) indexed in
  let nans := filter (fun p => isnan (q_vol (snd p))) indexed in
  map snd (sort_desc non_nans ++ nans).

End Sort.

(** A member of the universe. *)
Record Instrument := {
  code : pystr;
  name : pystr;
  volume_shares : float;
  close_price : float;
  volume_lots : float
}.

(** Line 110. *)
Definition with_lots (q : Quote) : Instrument :=
  {| code := q_code q;
     name := q_name q;
     volume_shares := q_vol q;
     close_price := q_close q;
     volume_lots := np_round 3 (div (q_vol q) (of_Z 1000)) |}.

(** [df.head(n)] *)
Definition head {A} (n : nat) (l : list A) : list A := firstn n l.

(** Lines 106-110, from the normalised rows. *)
Definition rank_universe (tie : nat -> nat) (qs : list Quote) : list Instrument :=
  let kept := filter (fun q => negb (name_excluded (q_name q))) qs in
  map with_lots (head 300 (sort_values_desc tie kept)).

(** Lines 77-104: the four columns, selected and normalised. *)
Definition normalised_table (df_raw : DataFrame) : result (outcome (list Quote)) :=
  let cols := map strip (columns df_raw) in
  let col_map := build_col_map cols in
  match dict_get (utf8 "code") col_map, dict_get (utf8 "name") col_map,
        dict_get (utf8 "vol") col_map, dict_get (utf8 "close") col_map with
  | Some c_code, Some c_name, Some c_vol, Some c_close =>
      raw <- select_columns cols (table df_raw) c_code c_name c_vol c_close ;;
      qs <- apply normalise raw ;;
      Ok (Value qs)
  | _, _, _, _ =>
      Ok (Failed (utf8 "Missing columns; found " ++ repr_keys (map fst col_map)))
  end.

Section Extract.

Variable tie : nat -> nat.

(** [df.to_csv("strong_output/top_volume_stocks.csv", ...)] *)
Variable to_csv : list Instrument -> result unit.

Definition extract_top300 (df_raw : DataFrame)
  : result (outcome (list Instrument)) :=
  r <- normalised_table df_raw ;;
  match r with
  | Failed err => Ok (Failed err)
  | Value qs =>
      let df := rank_universe tie qs in
      _ <- to_csv df ;;
      Ok (Value df)
  end.

End Extract.

End Universe.

(* ===================================================================== *)
(** ** The sort behind [sort_values]: NumPy's quicksort *)
(* ===================================================================== *)

(** [sort_values] hands the key column to [nargsort] of pandas, which calls
    [argsort(kind="quicksort")] of NumPy.  The scalar kernel of that sort
    ([aquicksort_] in npysort/quicksort.cpp) is embedded here on the array
    [tosort] of positions, to show on a concrete table which order it
    leaves among equal keys.  Its fallback to heapsort, taken when the
    partitions nest deeper than twice the bit length of the input, is not
    embedded: [aquicksort] answers [None] there. *)
Module NpySort.
Import F64.

(** [Tag::less]: the order of doubles with NaN last. *)
Definition less (a b : float) : bool :=
  ltb a b || (isnan b && negb (isnan a)).

Definition load (t : list nat) (i : nat) : nat := nth i t 0.

(** [tosort[i] = x] *)
Fixpoint store (i x : nat) (t : list nat) : list nat :=
  match t, i with
  | [], _ => []
  | _ :: r, O => x :: r
  | y :: r, S i' => y :: store i' x r
  end.

(** [INTP_SWAP(tosort[i], tosort[j])] *)
Definition swap (i j : nat) (t : list nat) : list nat :=
  store j (load t i) (store i (load t j) t).

Section Keys.

(** The keys [v]. *)
Variable v : list float.

(** [v[tosort[i]]] *)
Definition key (t : list nat) (i : nat) : float := nth (load t i) v nan.

(** [if (less(v[tosort[i]], v[tosort[j]]))] then
    [INTP_SWAP(tosort[i], tosort[j])] *)
Definition swap_if_less (i j : nat) (t : list nat) : list nat :=
  if less (key t i) (key t j) then swap i j t else t.

(** [do { ++pi; } while (less(v[*pi], vp));] *)
Fixpoint scan_right (fuel : nat) (t : list nat) (vp : float) (pi : nat) : nat :=
  match fuel with
  | O => pi
  | S fuel' =>
      let pi := S pi in
      if less (key t pi) vp then scan_right fuel' t vp pi else pi
  end.

(** [do { --pj; } while (less(vp, v[*pj]));] *)
Fixpoint scan_left (fuel : nat) (t : list nat) (vp : float) (pj : nat) : nat :=
  match fuel with
  | O => pj
  | S fuel' =>
      let pj := pred pj in
      if less vp (key t pj) then scan_left fuel' t vp pj else pj
  end.

(** The [for (;;)] loop of a partition: both scans, then a swap unless the
    scans have met. *)
Fixpoint partition_loop (fuel : nat) (t : list nat) (vp : float) (pi pj : nat)
  : list nat * nat :=
  match fuel with
  | O => (t, pi)
  | S fuel' =>
      let pi := scan_right (length t) t vp pi in
      let pj := scan_left (length t) t vp pj in
      if (pj <=? pi)%nat then (t, pi)
      else partition_loop fuel' (swap pi pj t) vp pi pj
  end.

(** One partition of [tosort[pl .. pr]] around the median of three; the
    result is the array and the final place [pi] of the pivot. *)
Definition partition (t : list nat) (pl pr : nat) : list nat * nat :=
  let pm := pl + Nat.div2 (pr - pl) in
  let t := swap_if_less pm pl t in
  let t := swap_if_less pr pm t in
  let t := swap_if_less pm pl t in
  let vp := key t pm in
  let pj := pr - 1 in
  let t := swap pm pj t in
  let '(t, pi) := partition_loop (length t) t vp pl pj in
  (swap pi (pr - 1) t, pi).

(** [while (pj > pl && less(vp, v[*pk])) { *pj-- = *pk--; }] *)
Fixpoint shift (fuel : nat) (t : list nat) (vp : float) (pl pj : nat)
  : list nat * nat :=
  match fuel with
  | O => (t, pj)
  | S fuel' =>
      if (pl <? pj)%nat && less vp (key t (pj - 1))
      then shift fuel' (store pj (load t (pj - 1)) t) vp pl (pj - 1)
      else (t, pj)
  end.

(** One round of the insertion sort: [tosort[pi]] is put in its place among
    [tosort[pl .. pi - 1]]. *)
Definition insert_one (pl : nat) (t : list nat) (pi : nat) : list nat :=
  let vi := load t pi in
  let vp := nth vi v nan in
  let '(t, pj) := shift (length t) t vp pl pi in
  store pj vi t.

(** The insertion sort of [tosort[pl .. pr]]. *)
Definition insertion_sort (t : list nat) (pl pr : nat) : list nat :=
  fold_left (insert_one pl) (seq (pl + 1) (pr - pl)) t.

(** [SMALL_QUICKSORT] *)
Definition SMALL_QUICKSORT : nat := 16.

(** The outer loop.  [stack] holds the partitions put aside with the depth
    left for them; [at_head] tells that control is at the head of the outer
    loop, where the depth is tested, and not inside the partition loop. *)
Fixpoint run (fuel : nat) (t : list nat) (pl pr : nat) (cdepth : Z)
         (stack : list (nat * nat * Z)) (at_head : bool) : option (list nat) :=
  match fuel with
  | O => None
  | S fuel' =>
      if at_head && (cdepth <? 0)%Z then None
      else if (SMALL_QUICKSORT <? pr - pl)%nat then
        let '(t, pi) := partition t pl pr in
        let cdepth := (cdepth - 1)%Z in
        if (pi - pl <? pr - pi)%nat
        then run fuel' t pl (pi - 1) cdepth ((pi + 1, pr, cdepth) :: stack) false
        else run fuel' t (pi + 1) pr cdepth ((pl, pi - 1, cdepth) :: stack) false
      else
        let t := insertion_sort t pl pr in
        match stack with
        | [] => Some t
        | (pl', pr', d) :: stack' => run fuel' t pl' pr' d stack' true
        end
  end.

(** [aquicksort_(v, tosort, num)] on [tosort = 0, 1, ..., num - 1]. *)
Definition aquicksort : option (list nat) :=
  let num := length v in
  run (2 * num + 2) (seq 0 num) 0 (num - 1)
      (2 * Z.log2 (Z.of_nat num))%Z [] true.

End Keys.

(** [nargsort(items, kind="quicksort", ascending=False, na_position="last")]
    of pandas: the keys that are not NaN are reversed, sorted ascending, and
    the result is reversed; the positions of the NaN keys follow. *)
Definition nargsort_desc (items : list float) : option (list nat) :=
  let idx := seq 0 (length items) in
  let non_nan_idx := filter (fun i => negb (isnan (nth i items nan))) idx in
  let nan_idx := filter (fun i => isnan (nth i items nan)) idx in
  let non_nans := rev (map (fun i => nth i items nan) non_nan_idx) in
  let non_nan_idx := rev non_nan_idx in
  match aquicksort non_nans with
  | Some a => Some (rev (map (fun k => nth k non_nan_idx 0) a) ++ nan_idx)
  | None => None
  end.

(** The place of position [i] in an indexer. *)
Fixpoint index_of (i : nat) (indexer : list nat) : nat :=
  match indexer with
  | [] => 0
  | x :: r => if (x =? i)%nat then 0 else S (index_of i r)
  end.

(** The ranking of the positions of a key column that NumPy's quicksort
    realises on it. *)
Definition ranking (items : list float) (i : nat) : nat :=
  match nargsort_desc items with
  | Some indexer => index_of i indexer
  | None => i
  end.

End NpySort.

(* ===================================================================== *)
(** ** The driver: [main] *)
(* ===================================================================== *)

Module Run.
Import F64 Evaluator Universe.

(** What the collaborators of one run answer. *)
Record World := {
  (** [datetime.now().strftime(...)] *)
  now : pystr;
  http_get_json : result json;
  pd_DataFrame : json -> json -> result DataFrame;
  quicksort_tie : nat -> nat;
  (** writing [top_volume_stocks.csv] *)
  top_volume_to_csv : list Instrument -> result unit;
  yf_download : pystr -> download;
  (** [mpf.plot(data, mav=available, ..., savefig=fname)] *)
  mpf_plot : pystr -> list nat -> Indicators -> result unit;
  (** writing [strong_stocks.csv] *)
  strong_to_csv : list (pystr * pystr * Reason) -> result unit
}.

(** The calls made to the notification channel.  Neither
    [telegram_send_text] nor [telegram_send_photo] lets an exception out,
    and [main] ignores what they return. *)
Inductive Event :=
| SendText (text : pystr)
| SendPhoto (path : pystr).

(** [os.path.join(a, b)] on POSIX paths. *)
Definition path_join (a b : pystr) : pystr :=
  match b with
  | 47%N :: _ => b
  | _ =>
      match rev a with
      | [] => b
      | 47%N :: _ => a ++ b
      | _ => a ++ 47%N :: b
      end
  end.

Definition WORKDIR : pystr := utf8 "strong_output".
Definition CHART_DIR : pystr := path_join WORKDIR (utf8 "charts").

(** The file a chart is saved to. *)
Definition chart_file (symbol_plain name : pystr) : pystr :=
  path_join CHART_DIR
    (symbol_plain ++ utf8 "_" ++ replace (utf8 "/") (utf8 "_") name ++ utf8 ".png").

(** [[m for m in mav if len(data) >= m]] with [mav = [3,5,8,20,60]]. *)
Definition available_mav (data : Indicators) : list nat :=
  filter (fun m => (m <=? length (rows data))%nat) [3; 5; 8; 20; 60].

(** [plot_chart]: the file name, or [None] when plotting raised. *)
Definition plot_chart (w : World) (symbol_plain name : pystr) (data : Indicators)
  : option pystr :=
  let fname := chart_file symbol_plain name in
  match mpf_plot w fname (available_mav data) data with
  | Ok _ => Some fname
  | Raise _ => None
  end.

(** One iteration of the loop of lines 191-204, on the accumulators
    [strong] and [charts]. *)
Definition scan_step (w : World)
           (acc : list (pystr * pystr * Reason) * list pystr) (row : Instrument)
  : list (pystr * pystr * Reason) * list pystr :=
  let '(strong, charts) := acc in
  let code := strip (Universe.code row) in
  let name := strip (Universe.name row) in
  let '(ok, reason, hist) := is_strong_stock (yf_download w) code name in
  if ok then
    let strong' := strong ++ [(code, name, reason)] in
    match hist with
    | Some data =>
        match plot_chart w code name data with
        | Some p => if match p with [] => false | _ => true end
                    then (strong', charts ++ [p]) else (strong', charts)
        | None => (strong', charts)
        end
    | None => (strong', charts)
    end
  else (strong, charts).

Definition scan (w : World) (df_top : list Instrument)
  : list (pystr * pystr * Reason) * list pystr :=
  fold_left (scan_step w) df_top ([], []).

Definition newline : pystr := [10%N].

(** [main()]: the notifications requested, and whether the run returned
    or an exception left it. *)
Definition main (w : World) : list Event * result unit :=
  let ev0 := [SendText (utf8 "🚀 " ++ now w ++ utf8 " 開始執行台股強勢股篩選...")] in
  match fetch_twse_table (http_get_json w) (pd_DataFrame w) with
  | Raise e => (ev0, Raise e)
  | Ok (Failed err) =>
      (ev0 ++ [SendText (utf8 "❌ TWSE 資料讀取失敗：" ++ err)], Ok tt)
  | Ok (Value df_raw) =>
      match extract_top300 (quicksort_tie w) (top_volume_to_csv w) df_raw with
      | Raise e => (ev0, Raise e)
      | Ok (Failed err2) =>
          (ev0 ++ [SendText (utf8 "❌ TWSE 解析失敗：" ++ err2)], Ok tt)
      | Ok (Value df_top) =>
          let ev1 :=
            ev0 ++ [SendText (utf8 "📊 已取前 300 檔（排除 ETF/金融/DR），共 "
                              ++ str_of_Z (Z.of_nat (length df_top)) ++ utf8 " 檔")] in
          let '(strong, charts) := scan w df_top in
          match strong with
          | [] => (ev1 ++ [SendText (utf8 "📈 今日無符合條件之強勢股。")], Ok tt)
          | _ :: _ =>
              let txt :=
                utf8 "🔥 強勢股名單：" ++ newline
                  ++ join newline
                       (map (fun s => fst (fst s) ++ utf8 " " ++ snd (fst s)) strong) in
              (ev1 ++ SendText txt :: map SendPhoto (firstn 5 charts),
               strong_to_csv w strong)
          end
      end
  end.

End Run.

(* ===================================================================== *)
(** ** Statements and sample inputs *)
(* ===================================================================== *)

Import F64 Evaluator Universe Run.

(** *** The evaluator *)

(** A frame the evaluator takes to the five conditions: both columns and at
    least 10 rows with a close. *)
Definition sufficient (df : PriceFrame) : Prop :=
  has_Close df = true /\ has_Volume df = true /\
  10 <= length (dropna_Close (bars df)).

Definition five_true (c : Conditions) : Prop :=
  cond_vols_up c = true /\ cond_yesterday_vs_ma5 c = true /\
  cond_close_above_ma5 c = true /\ cond_close_new10 c = true /\
  cond_pct c = true.

Definition some_false (c : Conditions) : Prop :=
  cond_vols_up c = false \/ cond_yesterday_vs_ma5 c = false \/
  cond_close_above_ma5 c = false \/ cond_close_new10 c = false \/
  cond_pct c = false.

(** The claim on short histories as the specification words it. *)
Definition short_history_always : Prop :=
  forall (yf : pystr -> download) (symbol_plain name : pystr) (df : PriceFrame),
    yf (symbol_plain ++ utf8 ".TW") = Returned df ->
    has_Close df = true -> has_Volume df = true ->
    length (dropna_Close (bars df)) < 10 ->
    exists data,
      is_strong_stock yf symbol_plain name
      = (false, Tag (utf8 "short-history"), data).

Definition bar (c v : Z) : Bar := {| Close := of_Z c; Volume := of_Z v |}.

(** Ten bars that meet the five conditions. *)
Definition sample_bars : list Bar :=
  [bar 100 10; bar 100 10; bar 100 10; bar 100 10; bar 100 10;
   bar 100 10; bar 100 10; bar 100 10; bar 100 100; bar 104 200].

Definition sample_frame : PriceFrame :=
  {| has_Close := true; has_Volume := true; bars := sample_bars |}.

Definition sample_provider (symbol : pystr) : download := Returned sample_frame.

(** The sample frame with one volume missing, three bars before the
    last. *)
Definition missing_volume_bars : list Bar :=
  [bar 100 10; bar 100 10; bar 100 10; bar 100 10; bar 100 10;
   bar 100 10; {| Close := of_Z 100; Volume := nan |}; bar 100 10;
   bar 100 100; bar 104 200].

Definition missing_volume_frame : PriceFrame :=
  {| has_Close := true; has_Volume := true; bars := missing_volume_bars |}.

Definition missing_volume_provider (symbol : pystr) : download :=
  Returned missing_volume_frame.

Definition empty_frame : PriceFrame :=
  {| has_Close := true; has_Volume := true; bars := [] |}.

Definition empty_provider (symbol : pystr) : download := Returned empty_frame.

Definition short_frame : PriceFrame :=
  {| has_Close := true; has_Volume := true; bars := [bar 100 10; bar 104 200] |}.

Definition short_provider (symbol : pystr) : download := Returned short_frame.

(** *** The universe builder *)

Definition text (s : string) : cell := CStr (utf8 s).

(** The claim on prices as the specification words it: a price cell that is
    not a number once its thousands separators are removed, the placeholder
    included, becomes NaN. *)
Definition unparseable_price_is_nan : Prop :=
  forall x : cell,
    PyFloat.parse (strip (replace (utf8 ",") [] (py_str x))) = None ->
    to_price x = Ok nan.

(** The claim on volumes as the specification words it. *)
Definition volume_never_negative : Prop :=
  forall (tie : nat -> nat) (to_csv : list Instrument -> result unit)
         (df : DataFrame) (u : list Instrument),
    extract_top300 tie to_csv df = Ok (Value u) ->
    Forall (fun i => leb zero (volume_shares i) = true) u.

(** [a] may stand before [b] in a column sorted descending with the NaN
    entries last. *)
Definition vol_order (a b : float) : Prop :=
  isnan b = true \/ (isnan a = false /\ leb b a = true).

Definition descending_nan_last (u : list Instrument) : Prop :=
  StronglySorted vol_order (map volume_shares u).

Definition no_excluded_keyword (i : Instrument) : Prop :=
  forall k, In k exclude_name_keywords -> contains k (name i) = false.

Definition not_excluded (q : Quote) : bool := negb (name_excluded (q_name q)).

(** The universe in the specification's words: the rows left by the
    exclusion in a stable descending sort by volume, cut to 300. *)
Fixpoint insert_stable (x : Quote) (l : list Quote) : list Quote :=
  match l with
  | [] => [x]
  | y :: r =>
      if ltb (q_vol x) (q_vol y) then y :: insert_stable x r else x :: y :: r
  end.

Definition stable_sort_desc (qs : list Quote) : list Quote :=
  fold_right insert_stable [] qs.

Definition universe_as_specified (qs : list Quote) : list Instrument :=
  map with_lots (firstn 300 (stable_sort_desc (filter not_excluded qs))).

(** The claim on the ranked universe as the specification words it. *)
Definition universe_is_stable_top300 : Prop :=
  forall (tie : nat -> nat) (to_csv : list Instrument -> result unit)
         (df : DataFrame) (qs : list Quote) (u : list Instrument),
    normalised_table df = Ok (Value qs) ->
    extract_top300 tie to_csv df = Ok (Value u) ->
    u = universe_as_specified qs.

Definition sorted_before (tie : nat -> nat) (a b : nat * Quote) : Prop :=
  before tie a b = true.

Definition twse_columns : list pystr :=
  map utf8 ["證券代號"; "證券名稱"; "成交股數"; "收盤價"]%string.

Definition sample_table : DataFrame :=
  {| columns :=
       map utf8 [" 證券代號"; "證券名稱"; "成交股數"; "成交筆數"; "收盤價"]%string;
     table :=
       [ [text "1101"; text "台泥"; text "1,234,567"; text "10"; text "40.5"];
         [text "0050"; text "元大台灣50"; text "9,000,000"; text "10"; text "150"];
         [text "2330"; text "<b>台積電</b> "; text "30,000,000"; text "10"; text "600"];
         [text "9999"; text "停牌"; text "--"; text "0"; text "--"] ] |}.

(** A table with a negative volume cell. *)
Definition negative_table : DataFrame :=
  {| columns := twse_columns;
     table := [[text "1101"; text "A"; text "-5"; text "40"]] |}.

(** Eighteen rows that share three volumes. *)
Definition tied_table : DataFrame :=
  {| columns := twse_columns;
     table :=
       [ [text "1101"; text "S01"; text "3,000"; text "10"];
         [text "1102"; text "S02"; text "1,000"; text "10"];
         [text "1103"; text "S03"; text "2,000"; text "10"];
         [text "1104"; text "S04"; text "3,000"; text "10"];
         [text "1105"; text "S05"; text "1,000"; text "10"];
         [text "1106"; text "S06"; text "2,000"; text "10"];
         [text "1107"; text "S07"; text "3,000"; text "10"];
         [text "1108"; text "S08"; text "1,000"; text "10"];
         [text "1109"; text "S09"; text "2,000"; text "10"];
         [text "1110"; text "S10"; text "3,000"; text "10"];
         [text "1111"; text "S11"; text "1,000"; text "10"];
         [text "1112"; text "S12"; text "2,000"; text "10"];
         [text "1113"; text "S13"; text "3,000"; text "10"];
         [text "1114"; text "S14"; text "1,000"; text "10"];
         [text "1115"; text "S15"; text "2,000"; text "10"];
         [text "1116"; text "S16"; text "3,000"; text "10"];
         [text "1117"; text "S17"; text "1,000"; text "10"];
         [text "1118"; text "S18"; text "2,000"; text "10"] ] |}.

Definition tied_quotes : list Quote :=
  match normalised_table tied_table with
  | Ok (Value qs) => qs
  | _ => []
  end.

Definition csv_ok {A} (rows : A) : result unit := Ok tt.

(** [x] rounded to [d] decimal places as the specification words it, that
    is, as the built-in [round(x, d)] does: the decimal number with [d]
    places nearest to the exact value of [x], the even one of two equally
    near, and then the float nearest to it. *)
Definition round_decimals (d : nat) (x : float) : float :=
  match x with
  | S754_finite s m e =>
      let num := (Zpos m * 10 ^ Z.of_nat d * 2 ^ Z.max e 0)%Z in
      let den := (2 ^ Z.max (- e) 0)%Z in
      let q := (num / den)%Z in
      let r := (num mod den)%Z in
      let k := if (2 * r <? den)%Z then q
               else if (den <? 2 * r)%Z then (q + 1)%Z
               else if Z.even q then q else (q + 1)%Z in
      PyFloat.of_decimal s k (- Z.of_nat d)
  | _ => x
  end.

(** The claim on lots as the specification words it. *)
Definition lots_rounded_exactly : Prop :=
  forall (tie : nat -> nat) (to_csv : list Instrument -> result unit)
         (df : DataFrame) (u : list Instrument),
    extract_top300 tie to_csv df = Ok (Value u) ->
    Forall (fun i => volume_lots i
                     = round_decimals 3 (div (volume_shares i) (of_Z 1000))) u.

(** [r] is the integer nearest to the exact value of [y], the even one of
    two equally near, as a float with the sign of [y]. *)
Definition nearest_integer (y r : float) : Prop :=
  match y with
  | S754_finite s m e =>
      ((0 <= e)%Z /\ r = y)
      \/ ((e < 0)%Z
          /\ exists k : Z,
               (0 <= k)%Z
               /\ r = (if (k =? 0)%Z then S754_zero s else of_Z (cond_Zopp s k))
               /\ (Z.abs (2 * (k * 2 ^ (- e) - Zpos m)) <= 2 ^ (- e))%Z
               /\ (Z.abs (2 * (k * 2 ^ (- e) - Zpos m)) = 2 ^ (- e) ->
                   Z.even k = true)%Z)
  | _ => r = y
  end.

(** A table with a volume of half a share. *)
Definition half_share_table : DataFrame :=
  {| columns := twse_columns;
     table := [[text "1101"; text "A"; text "0.5"; text "40"]] |}.

Definition universe_of (r : result (outcome (list Instrument))) : list Instrument :=
  match r with
  | Ok (Value u) => u
  | _ => []
  end.

Definition sample_universe : list Instrument :=
  universe_of (extract_top300 (fun i => i) csv_ok sample_table).

(** The universe of [tied_table] under the ranking that NumPy's quicksort
    realises on its volume column. *)
Definition tied_universe : list Instrument :=
  universe_of (extract_top300 (NpySort.ranking (map q_vol tied_quotes))
                              (fun _ => Ok tt) tied_table).

(** *** The driver *)

(** A table constructor for the sample worlds: a list of text labels and a
    list of rows of scalars. *)
Definition sample_cell (j : json) : result cell :=
  match j with
  | JStr s => Ok (CStr s)
  | JNull => Ok CNone
  | JBool b => Ok (CBool b)
  | JInt z => Ok (CInt z)
  | _ => Raise (utf8 "TypeError")
  end.

Definition sample_label (j : json) : result pystr :=
  match j with
  | JStr s => Ok s
  | _ => Raise (utf8 "TypeError")
  end.

Definition sample_row (j : json) : result (list cell) :=
  match j with
  | JList cells => apply sample_cell cells
  | _ => Raise (utf8 "TypeError")
  end.

Definition sample_pd_DataFrame (data fields : json) : result DataFrame :=
  match data, fields with
  | JList rows, JList labels =>
      cols <- apply sample_label labels ;;
      tbl <- apply sample_row rows ;;
      Ok {| columns := cols; table := tbl |}
  | _, _ => Raise (utf8 "ValueError")
  end.

Definition json_of_cell (c : cell) : json :=
  match c with
  | CStr s => JStr s
  | CNone => JNull
  | CBool b => JBool b
  | CInt z => JInt z
  end.

Definition sample_payload : json :=
  JDict [(utf8 "stat", JStr (utf8 "OK"));
         (utf8 "fields", JList (map JStr (columns sample_table)));
         (utf8 "data",
          JList (map (fun r => JList (map json_of_cell r)) (table sample_table)))].

Definition PermissionError : pystr :=
  utf8 "PermissionError: [Errno 13] Permission denied".

Definition sample_world : World :=
  {| now := utf8 "2024-01-02 14:00:00";
     http_get_json := Ok sample_payload;
     pd_DataFrame := sample_pd_DataFrame;
     quicksort_tie := fun i => i;
     top_volume_to_csv := fun _ => Ok tt;
     yf_download := sample_provider;
     mpf_plot := fun _ _ _ => Ok tt;
     strong_to_csv := fun _ => Ok tt |}.

(** The same run on a read-only output directory. *)
Definition read_only_world : World :=
  {| now := now sample_world;
     http_get_json := http_get_json sample_world;
     pd_DataFrame := pd_DataFrame sample_world;
     quicksort_tie := quicksort_tie sample_world;
     top_volume_to_csv := fun _ => Raise PermissionError;
     yf_download := yf_download sample_world;
     mpf_plot := mpf_plot sample_world;
     strong_to_csv := fun _ => Raise PermissionError |}.

(** The world [w] with an artifact sink that never fails. *)
Definition with_working_sink (w : World) : World :=
  {| now := now w;
     http_get_json := http_get_json w;
     pd_DataFrame := pd_DataFrame w;
     quicksort_tie := quicksort_tie w;
     top_volume_to_csv := fun _ => Ok tt;
     yf_download := yf_download w;
     mpf_plot := mpf_plot w;
     strong_to_csv := fun _ => Ok tt |}.

(** The claim on artifact writes as the specification words it: a run that
    completes when the artifacts can be written also completes when they
    cannot. *)
Definition write_failures_never_abort : Prop :=
  forall w : World,
    snd (main (with_working_sink w)) = Ok tt -> snd (main w) = Ok tt.

Definition start_message (w : World) : Event :=
  SendText (utf8 "🚀 " ++ now w ++ utf8 " 開始執行台股強勢股篩選...").

(** *** Further sample inputs and auxiliary notions *)

Definition zero_close_bars : list Bar :=
  [bar 100 10; bar 100 10; bar 100 10; bar 100 10; bar 100 10;
   bar 100 10; bar 100 10; bar 100 10; bar 0 100; bar 104 200].

Definition zero_close_frame : PriceFrame :=
  {| has_Close := true; has_Volume := true; bars := zero_close_bars |}.

Definition zero_close_provider (symbol : pystr) : download :=
  Returned zero_close_frame.

(** The keys of [col_map] and the provider's field name each stands for. *)
Definition field_names : list (pystr * pystr) :=
  [(utf8 "code", utf8 "證券代號"); (utf8 "name", utf8 "證券名稱");
   (utf8 "vol", utf8 "成交股數"); (utf8 "close", utf8 "收盤價")].

Definition sample_quotes : list Quote :=
  match normalised_table sample_table with
  | Ok (Value qs) => qs
  | _ => []
  end.

(** The integer written by the digits of a text, other characters
    ignored. *)
Definition digits_of (s : pystr) : Z :=
  PyFloat.digits_value (map (fun c => (c - 48)%N) (filter PyFloat.is_digit s)).

Definition digit_or_comma (c : N) : bool := PyFloat.is_digit c || (c =? 44)%N.

Definition is_photo (ev : Event) : bool :=
  match ev with SendPhoto _ => true | SendText _ => false end.

Definition is_text (ev : Event) : bool := negb (is_photo ev).

(** What one member of the universe adds to [strong] and to [charts]. *)
Definition verdict_of (w : World) (row : Instrument) : Verdict :=
  is_strong_stock (yf_download w) (strip (code row)) (strip (name row)).

Definition strong_entry (w : World) (row : Instrument)
  : list (pystr * pystr * Reason) :=
  let '(ok, reason, _) := verdict_of w row in
  if ok then [(strip (code row), strip (name row), reason)] else [].

Definition chart_entry (w : World) (row : Instrument) : list pystr :=
  let '(ok, _, hist) := verdict_of w row in
  if ok then
    match hist with
    | Some data =>
        match plot_chart w (strip (code row)) (strip (name row)) data with
        | Some (c :: p) => [c :: p]
        | _ => []
        end
    | None => []
    end
  else [].

(** The world [w] with another chart library. *)
Definition with_plot (w : World)
           (plot : pystr -> list nat -> Indicators -> result unit) : World :=
  {| now := now w;
     http_get_json := http_get_json w;
     pd_DataFrame := pd_DataFrame w;
     quicksort_tie := quicksort_tie w;
     top_volume_to_csv := top_volume_to_csv w;
     yf_download := yf_download w;
     mpf_plot := plot;
     strong_to_csv := strong_to_csv w |}.

Definition count_message (n : nat) : Event :=
  SendText (utf8 "📊 已取前 300 檔（排除 ETF/金融/DR），共 "
            ++ str_of_Z (Z.of_nat n) ++ utf8 " 檔").

Definition none_message : Event := SendText (utf8 "📈 今日無符合條件之強勢股。").

(** The message that lists the strong stocks. *)
Definition list_message (strong : list (pystr * pystr * Reason)) : Event :=
  SendText (utf8 "🔥 強勢股名單：" ++ newline
            ++ join newline
                 (map (fun s => fst (fst s) ++ utf8 " " ++ snd (fst s)) strong)).

(** The sample run when only [strong_stocks.csv] cannot be written. *)
Definition second_write_fails_world : World :=
  {| now := now sample_world;
     http_get_json := http_get_json sample_world;
     pd_DataFrame := pd_DataFrame sample_world;
     quicksort_tie := quicksort_tie sample_world;
     top_volume_to_csv := fun _ => Ok tt;
     yf_download := yf_download sample_world;
     mpf_plot := mpf_plot sample_world;
     strong_to_csv := fun _ => Raise PermissionError |}.

(** The four cells of [row] that a member of the universe is built from,
    when the code, name, volume and close columns stand at positions [i],
    [j], [k] and [l]. *)
Definition built_from (i j k l : nat) (row : list cell) (m : Instrument) : Prop :=
  code m = strip (py_str (nth i row CNone))
  /\ name m = strip (remove_tags (py_str (nth j row CNone)))
  /\ to_num (nth k row CNone) = Ok (volume_shares m)
  /\ to_price (nth l row CNone) = Ok (close_price m).

(** A provider with no history for any symbol. *)
Definition no_history_provider (symbol : pystr) : download := Returned empty_frame.

Definition quiet_world : World :=
  {| now := now sample_world;
     http_get_json := http_get_json sample_world;
     pd_DataFrame := pd_DataFrame sample_world;
     quicksort_tie := quicksort_tie sample_world;
     top_volume_to_csv := top_volume_to_csv sample_world;
     yf_download := no_history_provider;
     mpf_plot := mpf_plot sample_world;
     strong_to_csv := fun _ => Raise PermissionError |}.

Definition offline_world : World :=
  {| now := now sample_world;
     http_get_json := Raise (utf8 "ConnectionError");
     pd_DataFrame := pd_DataFrame sample_world;
     quicksort_tie := quicksort_tie sample_world;
     top_volume_to_csv := top_volume_to_csv sample_world;
     yf_download := yf_download sample_world;
     mpf_plot := mpf_plot sample_world;
     strong_to_csv := strong_to_csv sample_world |}.

Definition nested_payload : json :=
  JDict ([(utf8 "stat", JStr (utf8 "OK"))]
           ++ (utf8 "table9", sample_payload) :: [(utf8 "table8", sample_payload)]).

(* ===================================================================== *)
(** ** Integers as floats, and windows of a series *)
(* ===================================================================== *)

(** The canonical binary64 representation of a non-zero integer below
    [2^53] in absolute value. *)
Definition int_mantissa (c : Z) : positive :=
  Z.to_pos (Z.abs c * 2 ^ (53 - Zdigits2 c)).
Definition int_exponent (c : Z) : Z := Zdigits2 c - 53.

(** An observation the rolling kernels count: neither NaN nor infinite. *)
Definition observed (x : float) : bool := negb (isnan x || isinf x).

(** The number of counted observations among [xs[s .. s + len - 1]]. *)
Definition count_observed (xs : list float) (s len : nat) : nat :=
  length (filter (fun j => observed (nth j xs nan)) (seq s len)).

(** The sum of the integers [zs[s .. s + len - 1]]. *)
Definition window_sum (zs : list Z) (s len : nat) : Z :=
  fold_right Z.add 0%Z (map (fun j => nth j zs 0%Z) (seq s len)).

(** Share volumes are whole numbers well below [2^53]. *)
Definition whole (z : Z) : Prop := (0 <= z < 2 ^ 50)%Z.

(** What the kernel's state is at position [i] of a series of whole
    numbers: the sum is exact and nothing is left in the compensation
    terms. *)
Definition exact_state (zs : list Z) (n i : nat) (st : MeanState) : Prop :=
  let s := window_start n i in
  nobs st = i + 1 - s
  /\ sum_x st = of_Z (window_sum zs s (i + 1 - s))
  /\ neg_ct st = 0
  /\ compensation_add st = zero
  /\ compensation_remove st = zero
  /\ prev_value st = of_Z (nth i zs 0%Z)
  /\ (forall k, k < num_consecutive_same_value st -> k <= i ->
                nth (i - k) zs 0%Z = nth i zs 0%Z).

(** A decimal literal of the source, as the float Python reads it. *)
Definition dec (s : string) : float :=
  match PyFloat.parse (utf8 s) with
  | Some x => x
  | None => nan
  end.

(** A volume series on which the running sum of the kernel and a sum taken
    afresh over each window round differently. *)
Definition drifting_volumes : list float :=
  map dec ["22.4"; "192.9"; "169.1"; "147.9"; "143.6"; "132.6"; "173.4";
           "156.7"; "404.2"; "999.9"]%string.

(* ===================================================================== *)
(** ** Facts about binary64 arithmetic *)
(* ===================================================================== *)

Section FloatFacts.
Local Open Scope Z_scope.

Lemma digits2_size p : digits2_pos p = Pos.size p.
Proof. induction p; simpl; congruence. Qed.

Lemma digits2_bounds p : 2 ^ (Zpos (digits2_pos p) - 1) <= Zpos p < 2 ^ Zpos (digits2_pos p).
Proof.
  rewrite digits2_size. split.
  - pose proof (Pos.size_le p) as H.
    assert (Zpos (2 ^ Pos.size p) <= Zpos p~0)%Z by (apply Pos2Z.pos_le_pos; exact H).
    rewrite Pos2Z.inj_pow in H0.
    replace (Zpos (Pos.size p)) with (Zpos (Pos.size p) - 1 + 1) in H0 by lia.
    rewrite Z.pow_add_r in H0 by lia. lia.
  - pose proof (Pos.size_gt p) as H.
    apply Pos2Z.pos_lt_pos in H. rewrite Pos2Z.inj_pow in H. exact H.
Qed.

Lemma Zdigits2_unique z n : 0 < n -> 2 ^ (n - 1) <= z < 2 ^ n -> Zdigits2 z = n.
Proof.
  intros Hn [H1 H2].
  assert (0 < z) by (pose proof (Z.pow_pos_nonneg 2 (n-1)); lia).
  destruct z as [|p|p]; try lia. simpl.
  pose proof (digits2_bounds p) as [B1 B2].
  set (d := Zpos (digits2_pos p)) in *.
  assert (d = n); [|lia].
  destruct (Z.lt_trichotomy d n) as [L|[E|G]]; auto.
  - assert (2 ^ d <= 2 ^ (n-1)) by (apply Z.pow_le_mono_r; lia). lia.
  - assert (2 ^ n <= 2 ^ (d-1)) by (apply Z.pow_le_mono_r; lia). lia.
Qed.

Lemma shr_1_m mrs : 0 <= shr_m mrs -> shr_m (shr_1 mrs) = shr_m mrs / 2.
Proof.
  destruct mrs as [m r s]. intros H. rewrite <- Z.div2_div.
  destruct m as [|[p|p|]|p]; try reflexivity; simpl in H; lia.
Qed.

Lemma iter_pos_nat {A} (f : A -> A) p x : iter_pos f p x = Nat.iter (Pos.to_nat p) f x.
Proof.
  revert x. induction p; intros x; cbn [iter_pos].
  - rewrite !IHp, Pos2Nat.inj_xI.
    replace (S (2 * Pos.to_nat p)) with (S (Pos.to_nat p + Pos.to_nat p)) by lia.
    rewrite Nat.iter_succ_r, Nat.iter_add. reflexivity.
  - rewrite !IHp, Pos2Nat.inj_xO.
    replace (2 * Pos.to_nat p)%nat with (Pos.to_nat p + Pos.to_nat p)%nat by lia.
    rewrite Nat.iter_add. reflexivity.
  - reflexivity.
Qed.

Lemma iter_shr_m n mrs : 0 <= shr_m mrs ->
  shr_m (Nat.iter n shr_1 mrs) = shr_m mrs / 2 ^ Z.of_nat n.
Proof.
  intros H. induction n.
  - simpl. now rewrite Z.div_1_r.
  - change (Nat.iter (S n) shr_1 mrs) with (shr_1 (Nat.iter n shr_1 mrs)).
    assert (0 <= shr_m (Nat.iter n shr_1 mrs))
      by (rewrite IHn; apply Z.div_pos; lia).
    rewrite shr_1_m by assumption.
    rewrite IHn, Nat2Z.inj_succ, Z.pow_succ_r by lia.
    rewrite Z.div_div by lia. f_equal. lia.
Qed.

Lemma shr_m_pos m e k : 0 <= m -> 0 < k ->
  shr (Build_shr_record m false false) e k =
  (fst (shr (Build_shr_record m false false) e k), e + k) /\
  shr_m (fst (shr (Build_shr_record m false false) e k)) = m / 2 ^ k.
Proof.
  intros Hm Hk. destruct k as [|p|p]; try lia. simpl. split; auto.
  rewrite iter_pos_nat, iter_shr_m by (simpl; lia). simpl.
  now rewrite positive_nat_Z.
Qed.

Lemma round_nearest_even_bounds m l : m <= round_nearest_even m l <= m + 1.
Proof.
  destruct l as [|[]]; simpl; try lia. destruct (Z.even m); lia.
Qed.

Lemma Zdigits2_le z n : 0 <= n -> 0 <= z < 2 ^ n -> Zdigits2 z <= n.
Proof.
  intros Hn [H1 H2]. destruct z as [|p|p]; simpl; try lia.
  pose proof (digits2_bounds p) as [B1 _].
  destruct (Z_le_gt_dec (Zpos (digits2_pos p)) n) as [L|G]; auto.
  assert (2 ^ n <= 2 ^ (Zpos (digits2_pos p) - 1)) by (apply Z.pow_le_mono_r; lia).
  lia.
Qed.

Lemma shr_nonpos mrs e k : k <= 0 -> shr mrs e k = (mrs, e).
Proof. destruct k; simpl; auto; lia. Qed.

Lemma pos_compare_le m n : (Zpos m <= Zpos n) ->
  Pos.compare_cont Eq m n = Lt \/ Pos.compare_cont Eq m n = Eq.
Proof.
  intros H. change (Pos.compare_cont Eq m n) with (Pos.compare m n).
  destruct (Pos.compare_spec m n); auto. lia.
Qed.

Lemma mul_0_95_le_finite mx ex :
  bounded prec emax mx ex = true ->
  leb (mul (S754_finite false mx ex) f0_95) (S754_finite false mx ex) = true.
Proof.
  unfold bounded, canonical_mantissa, fexp, emin, prec, emax.
  rewrite andb_true_iff, Z.eqb_eq, Z.leb_le. intros [Hc He].
  unfold mul, f0_95, SFmul, prec, emax. cbn [xorb].
  set (my := 8556839292003942%positive).
  pose proof (digits2_bounds mx) as [Bl Bu].
  set (d := Zpos (digits2_pos mx)) in *.
  assert (Hd : 1 <= d) by (unfold d; lia).
  set (M := Zpos (mx * my)).
  assert (HM : M = Zpos mx * 8556839292003942) by (unfold M, my; lia).
  assert (HMl : 2 ^ (d + 51) <= M).
  { replace (d + 51) with ((d - 1) + 52) by lia. rewrite Z.pow_add_r by lia.
    change (2 ^ 52) with 4503599627370496. nia. }
  assert (HMu : M < 2 ^ (d + 53)).
  { rewrite Z.pow_add_r by lia. change (2 ^ 53) with 9007199254740992. nia. }
  assert (HM53 : M / 2 ^ 53 < Zpos mx).
  { apply Z.div_lt_upper_bound; [lia|]. change (2 ^ 53) with 9007199254740992. lia. }
  assert (HM0 : 0 <= M) by (unfold M; lia).
  set (D := Zdigits2 M).
  assert (HD : D = d + 52 /\ M < 2 ^ (d + 52) \/ D = d + 53).
  { destruct (Z_lt_ge_dec M (2 ^ (d + 52))) as [L|G].
    - left. split; auto. apply Zdigits2_unique; [lia|].
      replace (d + 52 - 1) with (d + 51) by lia. lia.
    - right. apply Zdigits2_unique; [lia|].
      replace (d + 53 - 1) with (d + 52) by lia. lia. }
  unfold binary_round_aux, shr_fexp, fexp, emin. fold D.
  cbn [shr_record_of_loc].
  set (k1 := Z.max (D + (ex + -53) - 53) (3 - 1024 - 53) - (ex + -53)).
  assert (Hk1 : k1 = 53 \/ (k1 = 52 /\ D = 105 /\ d = 53 /\ -1074 < ex /\ M < 2 ^ 105)).
  { destruct HD as [[HD HD']|HD].
    - destruct (Z.eq_dec ex (-1074)).
      + left. unfold k1. lia.
      + right. assert (d = 53) by lia. subst d. unfold k1.
        rewrite H in HD'. simpl in HD'. lia.
    - left. unfold k1. lia. }
  destruct (shr_m_pos M (ex + -53) k1 HM0 ltac:(lia)) as [Hs1 Hs2].
  rewrite Hs1.
  set (mrs1 := fst (shr {| shr_m := M; shr_r := false; shr_s := false |} (ex + -53) k1)) in *.
  pose proof (round_nearest_even_bounds (shr_m mrs1) (loc_of_shr_record mrs1)) as Hr.
  set (m2 := round_nearest_even (shr_m mrs1) (loc_of_shr_record mrs1)) in *.
  rewrite Hs2 in Hr.
  destruct Hk1 as [Hk | (Hk & HD5 & Hd53 & Hex & HM5)].
  - (* the product keeps the exponent of x *)
    rewrite Hk in *.
    assert (0 <= M / 2 ^ 53) by (apply Z.div_pos; lia).
    assert (Hm2 : 0 <= m2 <= Zpos mx) by lia.
    assert (Hdig : Zdigits2 m2 <= d) by (apply Zdigits2_le; lia).
    rewrite shr_nonpos by lia.
    cbn [shr_m].
    destruct m2 as [|p|p]; [reflexivity| |lia].
    replace (ex + -53 + 53) with ex by lia.
    assert (Hle : (ex <=? 1024 - 53) = true) by (apply Z.leb_le; lia).
    rewrite Hle. unfold leb, SFleb, SFcompare. rewrite Z.compare_refl.
    destruct (pos_compare_le p mx) as [E|E]; [lia| |]; rewrite E; reflexivity.
  - (* the product falls in the binade below *)
    rewrite Hk in *.
    assert (Hlo : 2 ^ 52 <= M / 2 ^ 52).
    { apply Z.div_le_lower_bound; [lia|]. rewrite <- Z.pow_add_r by lia.
      rewrite Hd53 in HMl. exact HMl. }
    assert (Hhi : M / 2 ^ 52 < 2 ^ 53).
    { apply Z.div_lt_upper_bound; [lia|]. rewrite <- Z.pow_add_r by lia. exact HM5. }
    change (2 ^ 52) with 4503599627370496 in *.
    change (2 ^ 53) with 9007199254740992 in *.
    destruct (Z.eq_dec m2 9007199254740992) as [Hc2|Hc2].
    + rewrite Hc2. cbn [Zdigits2 digits2_pos Pos.succ].
      replace (Z.max (54 + (ex + -53 + 52) - 53) (3 - 1024 - 53) - (ex + -53 + 52)) with 1 by lia.
      cbn [shr iter_pos shr_1 shr_m orb].
      replace (ex + -53 + 52 + 1) with ex by lia.
      assert (Hle : (ex <=? 1024 - 53) = true) by (apply Z.leb_le; lia).
      rewrite Hle. unfold leb, SFleb, SFcompare. rewrite Z.compare_refl.
      rewrite Hd53 in Bl. change (2 ^ (53 - 1)) with 4503599627370496 in Bl.
      destruct (pos_compare_le 4503599627370496 mx) as [E|E]; [lia| |]; rewrite E; reflexivity.
    + assert (Hdig : Zdigits2 m2 = 53).
      { apply Zdigits2_unique; [lia|].
        change (2 ^ (53 - 1)) with 4503599627370496.
        change (2 ^ 53) with 9007199254740992. lia. }
      rewrite Hdig. rewrite shr_nonpos by lia. cbn [shr_m].
      destruct m2 as [|p|p]; [lia| |lia].
      assert (Hle : (ex + -53 + 52 <=? 1024 - 53) = true) by (apply Z.leb_le; lia).
      rewrite Hle. unfold leb, SFleb, SFcompare.
      assert (Hcmp : (ex + -53 + 52 ?= ex) = Lt) by (apply Z.compare_lt_iff; lia).
      rewrite Hcmp. reflexivity.
Qed.

End FloatFacts.

(** The order of [SFcompare] is a total preorder away from NaN. *)

Ltac float_cases x := destruct x as [[|]|[|]| |[|] ? ?].

Ltac compare_cases :=
  unfold leb, ltb, SFleb, SFltb, SFcompare;
  change (Pos.compare_cont Eq) with Pos.compare;
  repeat match goal with
         | |- context [Z.compare ?a ?b] => destruct (Z.compare_spec a b)
         | |- context [Pos.compare ?a ?b] => destruct (Pos.compare_spec a b)
         end;
  cbn; intros; subst; try reflexivity; try discriminate; try lia.

Lemma leb_trans a b c : leb a b = true -> leb b c = true -> leb a c = true.
Proof. float_cases a; float_cases b; float_cases c; compare_cases. Qed.

Lemma leb_total a b : isnan a = false -> isnan b = false ->
  ltb a b = false -> leb b a = true.
Proof. float_cases a; float_cases b; compare_cases. Qed.

Lemma ltb_leb a b : ltb a b = true -> leb a b = true.
Proof. float_cases a; float_cases b; compare_cases. Qed.

Lemma leb_refl a : isnan a = false -> leb a a = true.
Proof. float_cases a; compare_cases. Qed.

(** Integers below [2^53] are represented exactly, and so are their sums,
    differences and exact quotients. *)

Section IntegerFloats.
Local Open Scope Z_scope.

Lemma Zdigits2_shift m k : 0 < m -> 0 <= k -> Zdigits2 (m * 2 ^ k) = Zdigits2 m + k.
Proof.
  intros Hm Hk. destruct m as [|p|p]; try lia.
  pose proof (digits2_bounds p) as [B1 B2]. cbn [Zdigits2].
  assert (0 < 2 ^ k) by (apply Z.pow_pos_nonneg; lia).
  apply Zdigits2_unique; [lia|].
  replace (Zpos (digits2_pos p) + k - 1) with (Zpos (digits2_pos p) - 1 + k) by lia.
  rewrite !Z.pow_add_r by lia. nia.
Qed.

Lemma iter_shr_exact n m : 0 < m ->
  Nat.iter n shr_1 (Build_shr_record (m * 2 ^ Z.of_nat n) false false)
  = Build_shr_record m false false.
Proof.
  revert m. induction n; intros m Hm.
  - cbn [Nat.iter Z.of_nat]. rewrite Z.pow_0_r, Z.mul_1_r. reflexivity.
  - rewrite Nat.iter_succ_r.
    replace (m * 2 ^ Z.of_nat (S n)) with (2 * (m * 2 ^ Z.of_nat n))
      by (rewrite Nat2Z.inj_succ, Z.pow_succ_r by lia; ring).
    assert (Hp : 0 < m * 2 ^ Z.of_nat n)
      by (apply Z.mul_pos_pos; [lia|apply Z.pow_pos_nonneg; lia]).
    specialize (IHn m Hm).
    destruct (m * 2 ^ Z.of_nat n) as [|q|q]; try lia.
    change (2 * Z.pos q) with (Z.pos q~0). cbn [shr_1 orb]. exact IHn.
Qed.

Lemma shr_exact m e k : 0 < m -> 0 <= k ->
  shr (Build_shr_record (m * 2 ^ k) false false) e k
  = (Build_shr_record m false false, e + k).
Proof.
  intros Hm Hk. destruct k as [|p|p]; [| |lia].
  - cbn [shr]. rewrite Z.pow_0_r, Z.mul_1_r, Z.add_0_r. reflexivity.
  - cbn [shr]. rewrite iter_pos_nat. rewrite <- (positive_nat_Z p) at 1.
    now rewrite iter_shr_exact.
Qed.

Lemma binary_round_aux_exact s m' e' k :
  canonical_mantissa prec emax m' e' = true -> e' <= emax - prec -> 0 <= k ->
  binary_round_aux prec emax s (Zpos m' * 2 ^ k) (e' - k) loc_Exact
  = S754_finite s m' e'.
Proof.
  unfold canonical_mantissa. rewrite Z.eqb_eq. intros Hc He Hk.
  unfold binary_round_aux, shr_fexp.
  rewrite Zdigits2_shift by lia. cbn [Zdigits2].
  replace (Z.pos (digits2_pos m') + k + (e' - k))
    with (Zpos (digits2_pos m') + e') by lia.
  rewrite Hc. replace (e' - (e' - k)) with k by lia.
  cbn [shr_record_of_loc]. rewrite shr_exact by lia.
  cbn [shr_m loc_of_shr_record round_nearest_even Zdigits2].
  replace (e' - k + k) with e' by lia. rewrite Hc, Z.sub_diag.
  cbn [shr shr_m]. apply Z.leb_le in He. rewrite He. reflexivity.
Qed.

Lemma iter_xO m d : Zpos (Pos.iter xO m d) = Zpos m * 2 ^ Zpos d.
Proof.
  induction d using Pos.peano_ind.
  - cbn [Pos.iter]. lia.
  - rewrite Pos.iter_succ, Pos2Z.inj_succ, Z.pow_succ_r by lia.
    rewrite Pos2Z.inj_xO, IHd. lia.
Qed.

Lemma binary_round_exact s m e m' e' :
  canonical_mantissa prec emax m' e' = true -> e' <= emax - prec ->
  (e <= e' /\ Zpos m = Zpos m' * 2 ^ (e' - e))
  \/ (e' <= e /\ Zpos m' = Zpos m * 2 ^ (e - e')) ->
  binary_round prec emax s m e = S754_finite s m' e'.
Proof.
  intros Hc He H. unfold binary_round.
  assert (Hd : Zpos (digits2_pos m) + e = Zpos (digits2_pos m') + e').
  { destruct H as [[H1 H2]|[H1 H2]].
    - change (Zpos (digits2_pos m)) with (Zdigits2 (Zpos m)).
      rewrite H2, Zdigits2_shift by lia. cbn [Zdigits2]. lia.
    - change (Zpos (digits2_pos m')) with (Zdigits2 (Zpos m')).
      rewrite H2, Zdigits2_shift by lia. cbn [Zdigits2]. lia. }
  rewrite Hd. pose proof Hc as Hc'. unfold canonical_mantissa in Hc'.
  apply Z.eqb_eq in Hc'. rewrite Hc'. unfold shl_align.
  destruct H as [[H1 H2]|[H1 H2]].
  - assert (E : match e' - e with Z.neg d => (Pos.iter xO m d, e') | _ => (m, e) end = (m, e))
      by (destruct (e' - e) eqn:E0; [reflexivity|reflexivity|lia]).
    rewrite E, H2. replace e with (e' - (e' - e)) at 2 by lia.
    apply binary_round_aux_exact; auto; lia.
  - destruct (e' - e) as [|d|d] eqn:E; [|lia|].
    + assert (e = e') by lia. subst e. rewrite Z.sub_diag, Z.pow_0_r, Z.mul_1_r in H2.
      rewrite <- H2.
      replace (Zpos m') with (Zpos m' * 2 ^ 0) by (rewrite Z.pow_0_r; lia).
      replace e' with (e' - 0) at 1 by lia.
      apply binary_round_aux_exact; auto; lia.
    + assert (Em : Pos.iter xO m d = m').
      { apply Pos2Z.inj. rewrite iter_xO, H2. f_equal. f_equal. lia. }
      rewrite Em.
      replace (Zpos m') with (Zpos m' * 2 ^ 0) by (rewrite Z.pow_0_r; lia).
      replace e' with (e' - 0) at 1 by lia.
      apply binary_round_aux_exact; auto; lia.
Qed.

Lemma int_canonical c : 0 < c < 2 ^ 53 ->
  Zpos (int_mantissa c) = c * 2 ^ (53 - Zdigits2 c)
  /\ 1 <= Zdigits2 c <= 53
  /\ canonical_mantissa prec emax (int_mantissa c) (int_exponent c) = true
  /\ int_exponent c <= emax - prec.
Proof.
  intros Hc. destruct c as [|p|p]; try lia.
  pose proof (digits2_bounds p) as [B1 B2].
  assert (Hd : 1 <= Zdigits2 (Zpos p) <= 53).
  { cbn [Zdigits2]. split; [lia|]. apply (Zdigits2_le (Zpos p) 53); lia. }
  assert (Hm : Zpos (int_mantissa (Zpos p)) = Zpos p * 2 ^ (53 - Zdigits2 (Zpos p))).
  { unfold int_mantissa. rewrite Z2Pos.id; [reflexivity|].
    apply Z.mul_pos_pos; [lia|apply Z.pow_pos_nonneg; lia]. }
  repeat split; try lia; auto.
  - unfold canonical_mantissa. apply Z.eqb_eq.
    change (Zpos (digits2_pos (int_mantissa (Zpos p))))
      with (Zdigits2 (Zpos (int_mantissa (Zpos p)))).
    rewrite Hm, Zdigits2_shift by lia.
    unfold int_exponent, fexp, SpecFloat.emin, prec, emax. lia.
  - unfold int_exponent, prec, emax. lia.
Qed.

Lemma binary_round_int s p k : Zpos p < 2 ^ 53 -> 0 <= k ->
  forall q, Zpos q = Zpos p * 2 ^ k ->
  binary_round prec emax s q (- k)
  = S754_finite s (int_mantissa (Zpos p)) (int_exponent (Zpos p)).
Proof.
  intros Hp Hk q Hq.
  destruct (int_canonical (Zpos p)) as (Hm & Hd & Hc & He); [lia|].
  apply binary_round_exact; auto.
  unfold int_exponent. set (d := Zdigits2 (Zpos p)) in *.
  destruct (Z_le_gt_dec (- k) (d - 53)).
  - left. split; [lia|]. rewrite Hm, Hq, <- Z.mul_assoc, <- Z.pow_add_r by lia.
    f_equal. f_equal. lia.
  - right. split; [lia|]. rewrite Hm, Hq, <- Z.mul_assoc, <- Z.pow_add_r by lia.
    f_equal. f_equal. lia.
Qed.

(** The float of a non-zero integer. *)
Lemma of_Z_int c : c <> 0 -> Z.abs c < 2 ^ 53 ->
  of_Z c = S754_finite (c <? 0) (int_mantissa c) (int_exponent c).
Proof.
  intros H0 Hc. unfold of_Z, binary_normalize. destruct c as [|p|p]; [lia| |].
  - apply (binary_round_int false p 0); [lia|lia|rewrite Z.pow_0_r; lia].
  - rewrite (binary_round_int true p 0); [reflexivity|lia|lia|rewrite Z.pow_0_r; lia].
Qed.

(** Normalising an integer written with trailing zero bits. *)
Lemma normalize_int c k : Z.abs c < 2 ^ 53 -> 0 <= k ->
  binary_normalize prec emax (c * 2 ^ k) (- k) false = of_Z c.
Proof.
  intros Hc Hk. destruct (Z.eq_dec c 0) as [->|H0]; [reflexivity|].
  rewrite of_Z_int by assumption.
  assert (Hpow : 0 < 2 ^ k) by (apply Z.pow_pos_nonneg; lia).
  destruct c as [|p|p]; [lia| |].
  - assert (Hq : exists q, Zpos p * 2 ^ k = Zpos q).
    { destruct (Zpos p * 2 ^ k) as [|q|q] eqn:E; try nia. now exists q. }
    destruct Hq as [q Hq]. rewrite Hq. cbn [binary_normalize].
    apply binary_round_int; [lia|lia|now symmetry].
  - assert (Hq : exists q, Zpos p * 2 ^ k = Zpos q).
    { destruct (Zpos p * 2 ^ k) as [|q|q] eqn:E; try nia. now exists q. }
    destruct Hq as [q Hq].
    replace (Zneg p * 2 ^ k) with (Zneg q) by lia. cbn [binary_normalize].
    rewrite (binary_round_int true p k ltac:(lia) Hk q (eq_sym Hq)). reflexivity.
Qed.

Lemma of_Z_0 : of_Z 0 = S754_zero false.
Proof. reflexivity. Qed.

Lemma int_signed c : c <> 0 -> Z.abs c < 2 ^ 53 ->
  cond_Zopp (c <? 0) (Zpos (int_mantissa c)) = c * 2 ^ (53 - Zdigits2 c)
  /\ 1 <= Zdigits2 c <= 53.
Proof.
  intros H0 Hc. destruct c as [|p|p]; [lia| |].
  - destruct (int_canonical (Zpos p)) as (Hm & Hd & _); [lia|]. split; auto.
  - destruct (int_canonical (Zpos p)) as (Hm & Hd & _); [lia|]. split; auto.
    change (int_mantissa (Zneg p)) with (int_mantissa (Zpos p)).
    change (Zdigits2 (Zneg p)) with (Zdigits2 (Zpos p)).
    cbn [Z.ltb Z.compare cond_Zopp]. rewrite Hm.
    change (Zneg p) with (- Zpos p). ring.
Qed.

Lemma shl_align_fst m e ez : ez <= e ->
  Zpos (fst (shl_align m e ez)) = Zpos m * 2 ^ (e - ez).
Proof.
  intros H. unfold shl_align. destruct (ez - e) as [|d|d] eqn:E; try lia.
  - replace (e - ez) with 0 by lia. cbn [fst]. lia.
  - cbn [fst]. rewrite iter_xO. f_equal. f_equal. lia.
Qed.

Lemma cond_Zopp_mul s x y : cond_Zopp s (x * y) = cond_Zopp s x * y.
Proof. destruct s; cbn [cond_Zopp]; ring. Qed.

(** The aligned mantissas of two integer floats. *)
Lemma int_aligned a b : a <> 0 -> b <> 0 -> Z.abs a < 2 ^ 53 -> Z.abs b < 2 ^ 53 ->
  let ez := Z.min (int_exponent a) (int_exponent b) in
  ez <= 0
  /\ cond_Zopp (a <? 0) (Zpos (fst (shl_align (int_mantissa a) (int_exponent a) ez)))
     = a * 2 ^ (- ez)
  /\ cond_Zopp (b <? 0) (Zpos (fst (shl_align (int_mantissa b) (int_exponent b) ez)))
     = b * 2 ^ (- ez).
Proof.
  intros Ha0 Hb0 Ha Hb ez.
  destruct (int_signed a Ha0 Ha) as [Sa Da].
  destruct (int_signed b Hb0 Hb) as [Sb Db].
  assert (Hez : ez <= 0) by (unfold ez, int_exponent; lia).
  split; [exact Hez|]. split.
  - rewrite shl_align_fst by (unfold ez; lia).
    rewrite cond_Zopp_mul, Sa, <- Z.mul_assoc, <- Z.pow_add_r
      by (unfold ez, int_exponent; lia).
    f_equal. f_equal. unfold int_exponent. lia.
  - rewrite shl_align_fst by (unfold ez; lia).
    rewrite cond_Zopp_mul, Sb, <- Z.mul_assoc, <- Z.pow_add_r
      by (unfold ez, int_exponent; lia).
    f_equal. f_equal. unfold int_exponent. lia.
Qed.

(** Addition and subtraction of integers are exact below [2^53]. *)
Lemma add_of_Z a b :
  Z.abs a < 2 ^ 53 -> Z.abs b < 2 ^ 53 -> Z.abs (a + b) < 2 ^ 53 ->
  add (of_Z a) (of_Z b) = of_Z (a + b).
Proof.
  intros Ha Hb Hab.
  destruct (Z.eq_dec a 0) as [->|Ha0].
  { destruct (Z.eq_dec b 0) as [->|Hb0]; [reflexivity|].
    rewrite Z.add_0_l, of_Z_0, of_Z_int by assumption. reflexivity. }
  destruct (Z.eq_dec b 0) as [->|Hb0].
  { rewrite Z.add_0_r, of_Z_0, of_Z_int by assumption. reflexivity. }
  rewrite (of_Z_int a), (of_Z_int b) by assumption.
  destruct (int_aligned a b Ha0 Hb0 Ha Hb) as (Hez & Ea & Eb).
  unfold add, SFadd. rewrite Ea, Eb, <- Z.mul_add_distr_r.
  set (ez := Z.min (int_exponent a) (int_exponent b)) in *.
  replace ez with (- (- ez)) at 2 by lia.
  apply normalize_int; lia.
Qed.

Lemma sub_of_Z a b :
  Z.abs a < 2 ^ 53 -> Z.abs b < 2 ^ 53 -> Z.abs (a - b) < 2 ^ 53 ->
  sub (of_Z a) (of_Z b) = of_Z (a - b).
Proof.
  intros Ha Hb Hab.
  destruct (Z.eq_dec b 0) as [->|Hb0].
  { rewrite Z.sub_0_r, of_Z_0.
    destruct (Z.eq_dec a 0) as [->|Ha0]; [reflexivity|].
    rewrite of_Z_int by assumption. reflexivity. }
  destruct (Z.eq_dec a 0) as [->|Ha0].
  { rewrite of_Z_0, !of_Z_int by lia. destruct b; [lia|reflexivity|reflexivity]. }
  rewrite (of_Z_int a), (of_Z_int b) by assumption.
  destruct (int_aligned a b Ha0 Hb0 Ha Hb) as (Hez & Ea & Eb).
  unfold sub, SFsub. rewrite Ea, Eb, <- Z.mul_sub_distr_r.
  set (ez := Z.min (int_exponent a) (int_exponent b)) in *.
  replace ez with (- (- ez)) at 2 by lia.
  apply normalize_int; lia.
Qed.

Lemma div_core_exact m1 e1 m2 e2 q :
  Zdigits2 (Zpos m1) = 53 -> Zdigits2 (Zpos m2) = 53 -> -1000 <= e1 - e2 ->
  Zpos m1 * 2 ^ 53 = q * Zpos m2 ->
  SFdiv_core_binary prec emax (Zpos m1) e1 (Zpos m2) e2
  = (q, e1 - e2 - 53, loc_Exact).
Proof.
  intros G1 G2 He Hq. unfold SFdiv_core_binary. rewrite G1, G2.
  assert (Hmin : Z.min (fexp prec emax (53 + e1 - (53 + e2))) (e1 - e2) = e1 - e2 - 53)
    by (unfold fexp, SpecFloat.emin, prec, emax; lia).
  rewrite Hmin. replace (e1 - e2 - (e1 - e2 - 53)) with 53 by lia.
  rewrite Z.shiftl_mul_pow2 by lia.
  assert (Hdm : Z.div_eucl (Zpos m1 * 2 ^ 53) (Zpos m2) = (q, 0)).
  { pose proof (Z.div_eucl_eq (Zpos m1 * 2 ^ 53) (Zpos m2) ltac:(lia)) as E.
    pose proof (Z.mod_pos_bound (Zpos m1 * 2 ^ 53) (Zpos m2) ltac:(lia)) as B.
    unfold Z.modulo in B.
    destruct (Z.div_eucl _ _) as [q' r']. rewrite Hq in E.
    assert (q' = q) by nia. subst q'. f_equal. lia. }
  rewrite Hdm.
  assert (Hloc : new_location (Zpos m2) 0 = loc_Exact).
  { unfold new_location, new_location_even, new_location_odd.
    destruct (Z.even _); reflexivity. }
  rewrite Hloc. reflexivity.
Qed.

(** Division of a multiple by its factor is exact. *)
Lemma div_of_Z n z : 0 < n < 2 ^ 53 -> 0 <= z -> n * z < 2 ^ 53 ->
  div (of_Z (n * z)) (of_Z n) = of_Z z.
Proof.
  intros [Hn Hn53] Hz Hnz.
  destruct (Z.eq_dec z 0) as [->|Hz0].
  { rewrite Z.mul_0_r, of_Z_0, of_Z_int by lia.
    destruct n; [lia|reflexivity|lia]. }
  assert (Hz53 : z < 2 ^ 53) by nia.
  assert (Hnz0 : 0 < n * z) by nia.
  rewrite (of_Z_int (n * z)), (of_Z_int n), (of_Z_int z) by lia.
  destruct (int_canonical (n * z)) as (M1 & D1 & _); [lia|].
  destruct (int_canonical n) as (M2 & D2 & _); [lia|].
  destruct (int_canonical z) as (M3 & D3 & C3 & E3); [lia|].
  assert (L1 : (n * z <? 0) = false) by (apply Z.ltb_ge; lia).
  assert (L2 : (n <? 0) = false) by (apply Z.ltb_ge; lia).
  assert (L3 : (z <? 0) = false) by (apply Z.ltb_ge; lia).
  rewrite L1, L2, L3.
  set (d1 := Zdigits2 (n * z)) in *. set (d2 := Zdigits2 n) in *.
  set (d3 := Zdigits2 z) in *.
  assert (Hd : d1 <= d2 + d3).
  { apply Zdigits2_le; [lia|]. split; [lia|].
    rewrite Z.pow_add_r by lia.
    assert (n < 2 ^ d2).
    { destruct n as [|p|p]; try lia. apply (digits2_bounds p). }
    assert (z < 2 ^ d3).
    { destruct z as [|p|p]; try lia. apply (digits2_bounds p). }
    nia. }
  assert (G1 : Zdigits2 (Zpos (int_mantissa (n * z))) = 53).
  { rewrite M1, Zdigits2_shift by lia. fold d1. lia. }
  assert (G2 : Zdigits2 (Zpos (int_mantissa n)) = 53).
  { rewrite M2, Zdigits2_shift by lia. fold d2. lia. }
  set (q := z * 2 ^ (53 - d1 + d2)).
  assert (Hq : Zpos (int_mantissa (n * z)) * 2 ^ 53 = q * Zpos (int_mantissa n)).
  { rewrite M1, M2. unfold q. fold d1 d2.
    assert (P : 2 ^ (53 - d1) * 2 ^ 53 = 2 ^ (53 - d1 + d2) * 2 ^ (53 - d2)).
    { rewrite <- !Z.pow_add_r by lia. f_equal. lia. }
    rewrite <- (Z.mul_assoc (n * z)), P. ring. }
  unfold div, SFdiv.
  rewrite (div_core_exact _ _ _ _ q G1 G2); [|unfold int_exponent; lia|exact Hq].
  cbn [xorb].
  replace q with (Zpos (int_mantissa z) * 2 ^ (d3 - d1 + d2)).
  - replace (int_exponent (n * z) - int_exponent n - 53)
      with (int_exponent z - (d3 - d1 + d2))
      by (unfold int_exponent; fold d1 d2 d3; lia).
    apply binary_round_aux_exact; auto. lia.
  - rewrite M3. fold d3. unfold q. rewrite <- Z.mul_assoc, <- Z.pow_add_r by lia.
    f_equal. f_equal. lia.
Qed.

(** A quotient of two positive floats is not negative. *)
Lemma binary_round_aux_not_neg m e l :
  ltb (binary_round_aux prec emax false m e l) zero = false.
Proof.
  unfold binary_round_aux.
  destruct (shr_fexp prec emax m e l) as [mrs1 e1].
  destruct (shr_fexp prec emax _ e1 loc_Exact) as [mrs2 e2].
  destruct (shr_m mrs2); [reflexivity| |reflexivity].
  destruct (e2 <=? emax - prec); reflexivity.
Qed.

Lemma div_of_Z_not_neg a n : 0 <= a < 2 ^ 53 -> 0 < n < 2 ^ 53 ->
  ltb (div (of_Z a) (of_Z n)) zero = false.
Proof.
  intros Ha Hn. rewrite (of_Z_int n) by lia.
  destruct (Z.eq_dec a 0) as [->|Ha0].
  - rewrite of_Z_0. destruct n; [lia|reflexivity|lia].
  - rewrite (of_Z_int a) by lia.
    assert (L1 : (a <? 0) = false) by (apply Z.ltb_ge; lia).
    assert (L2 : (n <? 0) = false) by (apply Z.ltb_ge; lia).
    rewrite L1, L2. unfold div, SFdiv.
    destruct (SFdiv_core_binary _ _ _ _ _ _) as [[mz ez] lz].
    apply binary_round_aux_not_neg.
Qed.

(** Equal integer floats are floats of equal integers. *)
Lemma feq_of_Z a b : 0 <= a < 2 ^ 53 -> 0 <= b < 2 ^ 53 ->
  feq (of_Z a) (of_Z b) = true -> a = b.
Proof.
  intros Ha Hb.
  destruct (Z.eq_dec a 0) as [->|Ha0]; destruct (Z.eq_dec b 0) as [->|Hb0]; auto.
  - rewrite of_Z_0, (of_Z_int b) by lia.
    assert (L : (b <? 0) = false) by (apply Z.ltb_ge; lia). rewrite L. discriminate.
  - rewrite of_Z_0, (of_Z_int a) by lia.
    assert (L : (a <? 0) = false) by (apply Z.ltb_ge; lia). rewrite L. discriminate.
  - rewrite (of_Z_int a), (of_Z_int b) by lia.
    assert (L1 : (a <? 0) = false) by (apply Z.ltb_ge; lia).
    assert (L2 : (b <? 0) = false) by (apply Z.ltb_ge; lia).
    rewrite L1, L2. unfold feq, SFeqb, SFcompare.
    destruct (int_canonical a) as (Ma & Da & _); [lia|].
    destruct (int_canonical b) as (Mb & Db & _); [lia|].
    destruct (Z.compare_spec (int_exponent a) (int_exponent b)) as [E|E|E];
      try discriminate.
    change (Pos.compare_cont Eq) with Pos.compare.
    destruct (Pos.compare_spec (int_mantissa a) (int_mantissa b)) as [E'|E'|E'];
      try discriminate.
    intros _. unfold int_exponent in E.
    assert (Zdigits2 a = Zdigits2 b) by lia.
    assert (Zpos (int_mantissa a) = Zpos (int_mantissa b)) by (now rewrite E').
    rewrite Ma, Mb, H in H0.
    assert (0 < 2 ^ (53 - Zdigits2 b)) by (apply Z.pow_pos_nonneg; lia).
    nia.
Qed.

Lemma feq_refl_of_Z a : Z.abs a < 2 ^ 53 -> feq (of_Z a) (of_Z a) = true.
Proof.
  intros Ha. destruct (Z.eq_dec a 0) as [->|Ha0]; [reflexivity|].
  rewrite of_Z_int by lia. unfold feq, SFeqb, SFcompare.
  rewrite Z.compare_refl. change (Pos.compare_cont Eq) with Pos.compare.
  rewrite Pos.compare_refl. destruct (a <? 0); reflexivity.
Qed.

End IntegerFloats.

(** Rounding to an integer. *)

Section Rint.
Local Open Scope Z_scope.

Lemma shr_1_bits q r s : 0 <= q ->
  shr_1 (Build_shr_record q r s) = Build_shr_record (q / 2) (Z.odd q) (r || s).
Proof.
  intros Hq. rewrite <- Z.div2_div.
  destruct q as [|[p|p|]|p]; try reflexivity; lia.
Qed.

(** After [n >= 1] shifts the record holds the quotient by [2^n], whether
    the remainder reaches one half, and whether it is neither zero nor one
    half. *)
Lemma iter_shr_bits n m : 0 <= m ->
  let D := 2 ^ Z.of_nat (S n) in
  let h := 2 ^ Z.of_nat n in
  Nat.iter (S n) shr_1 (Build_shr_record m false false)
  = Build_shr_record (m / D) (h <=? m mod D)
      (negb (m mod D =? 0) && negb (m mod D =? h)).
Proof.
  intros Hm. induction n as [|n IH].
  - cbn [Nat.iter]. rewrite shr_1_bits by exact Hm. cbn zeta.
    change (2 ^ Z.of_nat 1) with 2. change (2 ^ Z.of_nat 0) with 1.
    pose proof (Z.mod_pos_bound m 2 ltac:(lia)) as B.
    rewrite Zodd_mod. f_equal.
    + destruct (Z.eqb_spec (m mod 2) 1), (Z.leb_spec 1 (m mod 2)); auto; lia.
    + destruct (Z.eqb_spec (m mod 2) 0), (Z.eqb_spec (m mod 2) 1); auto; lia.
  - cbn zeta in *. change (Nat.iter (S (S n)) shr_1 ?x) with (shr_1 (Nat.iter (S n) shr_1 x)).
    rewrite IH. set (D := 2 ^ Z.of_nat (S n)). set (h := 2 ^ Z.of_nat n).
    assert (HD : D = 2 * h).
    { unfold D, h. rewrite Nat2Z.inj_succ, Z.pow_succ_r by lia. reflexivity. }
    assert (HD2 : 2 ^ Z.of_nat (S (S n)) = D * 2).
    { unfold D. rewrite (Nat2Z.inj_succ (S n)), Z.pow_succ_r by lia. lia. }
    assert (Hh : 0 < h) by (apply Z.pow_pos_nonneg; lia).
    clearbody D h.
    rewrite shr_1_bits by (apply Z.div_pos; lia).
    rewrite HD2, Z.div_div by lia.
    rewrite (Z.rem_mul_r m D 2) by lia.
    pose proof (Z.mod_pos_bound m D ltac:(lia)) as B.
    pose proof (Z.mod_pos_bound (m / D) 2 ltac:(lia)) as B2.
    rewrite Zodd_mod.
    set (rm := m mod D) in *. set (b := (m / D) mod 2) in *.
    assert (Hb : b = 0 \/ b = 1) by lia.
    clearbody rm b.
    destruct Hb as [-> | ->]; rewrite ?Z.mul_0_r, ?Z.mul_1_r, ?Z.add_0_r; f_equal.
    + destruct (Z.leb_spec D rm); auto; lia.
    + destruct (Z.leb_spec h rm), (Z.eqb_spec rm 0), (Z.eqb_spec rm h),
        (Z.eqb_spec rm D); cbn [negb andb orb]; auto; lia.
    + destruct (Z.leb_spec D (rm + D)); auto; lia.
    + destruct (Z.leb_spec h rm), (Z.eqb_spec rm 0), (Z.eqb_spec rm h),
        (Z.eqb_spec (rm + D) 0), (Z.eqb_spec (rm + D) D);
        cbn [negb andb orb]; auto; lia.
Qed.

Lemma normalize_nonzero z s : z <> 0 ->
  binary_normalize prec emax z 0 s = of_Z z.
Proof. intros H. destruct z; [lia|reflexivity|reflexivity]. Qed.

(** [rint] rounds to the nearest integer, ties to even. *)
Lemma rint_nearest y : nearest_integer y (rint y).
Proof.
  destruct y as [s|s| |s m e]; try reflexivity.
  unfold nearest_integer, rint.
  destruct (Z.leb_spec 0 e) as [He|He]; [left; auto|]. right. split; [exact He|].
  destruct e as [|p|p]; try lia.
  change (- Z.neg p) with (Z.pos p). cbn [shr].
  rewrite iter_pos_nat.
  destruct (Pos2Nat.is_succ p) as [n Hn]. rewrite Hn.
  rewrite (iter_shr_bits n (Zpos m)) by lia.
  assert (HD : 2 ^ Z.pos p = 2 * 2 ^ Z.of_nat n).
  { rewrite <- (positive_nat_Z p), Hn, Nat2Z.inj_succ, Z.pow_succ_r by lia.
    reflexivity. }
  replace (2 ^ Z.of_nat (S n)) with (2 ^ Z.pos p)
    by (now rewrite <- (positive_nat_Z p), Hn).
  set (D := 2 ^ Z.pos p) in *. set (h := 2 ^ Z.of_nat n) in *.
  assert (Hh : 0 < h) by (apply Z.pow_pos_nonneg; lia).
  pose proof (Z.mod_pos_bound (Zpos m) D ltac:(lia)) as B.
  pose proof (Z.div_mod (Zpos m) D ltac:(lia)) as E.
  assert (Hq : 0 <= Zpos m / D) by (apply Z.div_pos; lia).
  set (q := Zpos m / D) in *. set (rm := Zpos m mod D) in *.
  cbn [shr_m].
  match goal with
  | |- context [round_nearest_even ?a ?b] => set (k := round_nearest_even a b)
  end.
  assert (Hk : 0 <= k
               /\ Z.abs (2 * (k * D - Zpos m)) <= D
               /\ (Z.abs (2 * (k * D - Zpos m)) = D -> Z.even k = true)).
  { unfold k. cbn [loc_of_shr_record]. clearbody D h q rm.
    destruct (Z.leb_spec h rm), (Z.eqb_spec rm 0), (Z.eqb_spec rm h);
      cbn [negb andb round_nearest_even]; try lia;
      try (destruct (Z.even q) eqn:Ev);
      repeat split; try lia; intros _; rewrite ?Z.even_add, ?Ev; reflexivity. }
  destruct Hk as (K0 & K1 & K2).
  exists k. repeat split; auto.
  destruct k as [|k'|k'] eqn:Ek; [reflexivity| |lia].
  cbn [Z.eqb]. apply normalize_nonzero. destruct s; cbn; lia.
Qed.

End Rint.

(* ===================================================================== *)
(** ** The strength evaluator *)
(* ===================================================================== *)

Lemma dropna_nonempty rs : 10 <= length (dropna_Close rs) -> rs <> [].
Proof. intros H E. subst rs. simpl in H. lia. Qed.

Lemma evaluate_sufficient df :
  sufficient df ->
  let data := add_indicators (dropna_Close (bars df)) in
  evaluate (Some df) =
    (all_conditions (conditions data), Breakdown (conditions data), Some data).
Proof.
  intros (Hc & Hv & Hn). unfold evaluate, empty.
  destruct (bars df) as [|b rs] eqn:E; [simpl in Hn; lia|].
  rewrite Hc, Hv. cbn [negb orb].
  destruct (Nat.ltb_spec (length (dropna_Close (b :: rs))) 10); [lia|].
  reflexivity.
Qed.

Lemma all_conditions_iff c : all_conditions c = true <-> five_true c.
Proof.
  unfold all_conditions, five_true. cbn [forallb].
  rewrite !andb_true_iff. tauto.
Qed.

Lemma all_conditions_false c : some_false c -> all_conditions c = false.
Proof.
  unfold all_conditions, some_false. cbn [forallb].
  intros [H|[H|[H|[H|H]]]]; rewrite H; cbn; rewrite ?andb_false_r; reflexivity.
Qed.

(** C1.  When the provider returns a frame with both columns and at least
    10 rows with a close, [is_strong_stock] answers with the breakdown of the
    five conditions and [passed] is true exactly when all five are true; one
    false condition makes [passed] false. *)
Theorem C1_passed_iff_all_five (yf : pystr -> download) (symbol_plain name : pystr)
        (df : PriceFrame) :
  yf (symbol_plain ++ utf8 ".TW") = Returned df ->
  sufficient df ->
  exists passed c data,
    is_strong_stock yf symbol_plain name = (passed, Breakdown c, Some data)
    /\ (passed = true <-> five_true c)
    /\ (some_false c -> passed = false).
Proof.
  intros Hyf Hs. unfold is_strong_stock. rewrite Hyf, (evaluate_sufficient df Hs).
  eexists _, _, _. split; [reflexivity|]. split.
  - apply all_conditions_iff.
  - apply all_conditions_false.
Qed.

Lemma sample_sufficient : sufficient sample_frame.
Proof. repeat split; simpl; lia. Qed.

Lemma C1_witness :
  exists passed c data,
    is_strong_stock sample_provider (utf8 "2330") (utf8 "TSMC")
      = (passed, Breakdown c, Some data)
    /\ (passed = true <-> five_true c)
    /\ (some_false c -> passed = false).
Proof.
  apply (C1_passed_iff_all_five sample_provider (utf8 "2330") (utf8 "TSMC") sample_frame).
  - reflexivity.
  - repeat split; simpl; lia.
Defined.

(** *** The rolling mean *)

Lemma roll_state_0 n values : 1 <= n ->
  roll_state n values 0 = add_mean (nth 0 values nan) (init_state (nth 0 values nan)).
Proof.
  intros Hn. cbn [roll_state]. unfold window_start, window_end, setup_state.
  replace (0 + 1 - n) with 0 by lia. reflexivity.
Qed.

Lemma roll_state_S n values j : 2 <= n ->
  roll_state n values (S j) =
  add_mean (nth (S j) values nan)
    (if (n <=? S j)%nat
     then remove_mean (nth (S j - n) values nan) (roll_state n values j)
     else roll_state n values j).
Proof.
  intros Hn. cbn [roll_state]. unfold window_start, window_end.
  destruct (Nat.leb_spec (j + 1) (S j + 1 - n)); [lia|].
  replace (S j + 1 - (j + 1)) with 1 by lia. cbn [seq fold_left].
  replace (j + 1) with (S j) by lia.
  destruct (Nat.leb_spec n (S j)).
  - replace (S j + 1 - n - (S j - n)) with 1 by lia. cbn [seq fold_left].
    reflexivity.
  - replace (S j + 1 - n - (S j - n)) with 0 by lia. reflexivity.
Qed.

Lemma length_rolling_mean n xs : length (rolling_mean n xs) = length xs.
Proof. unfold rolling_mean. now rewrite length_map, length_seq. Qed.

Lemma nth_rolling_mean n i xs d :
  i < length xs ->
  nth i (rolling_mean n xs) d = calc_mean n (roll_state n (prep_values xs) i).
Proof.
  intros Hi. unfold rolling_mean.
  set (f := fun i => calc_mean n (roll_state n (prep_values xs) i)).
  rewrite (nth_indep _ d (f 0)) by (rewrite length_map, length_seq; exact Hi).
  rewrite map_nth, seq_nth by exact Hi. reflexivity.
Qed.

(** The kernel's state at position [i] is determined by the observations up
    to [i]. *)
Lemma roll_state_prefix n values values' i : 2 <= n ->
  (forall j, j <= i -> nth j values nan = nth j values' nan) ->
  roll_state n values i = roll_state n values' i.
Proof.
  intros Hn. induction i as [|i IH]; intros H.
  - rewrite !roll_state_0 by lia. now rewrite (H 0) by lia.
  - rewrite !roll_state_S by lia.
    rewrite IH by (intros j Hj; apply H; lia).
    rewrite (H (S i)) by lia. rewrite (H (S i - n)) by lia. reflexivity.
Qed.

Lemma nth_prep_values xs j :
  nth j (prep_values xs) nan = (let x := nth j xs nan in if isinf x then nan else x).
Proof.
  unfold prep_values. revert j.
  induction xs as [|x xs IH]; intros [|j]; cbn [map nth]; auto.
Qed.

Lemma rolling_mean_prefix n xs k i d : 2 <= n -> i < k -> i < length xs ->
  nth i (rolling_mean n (firstn k xs)) d = nth i (rolling_mean n xs) d.
Proof.
  intros Hn Hk Hi.
  rewrite !nth_rolling_mean by (rewrite ?length_firstn; lia).
  f_equal. apply roll_state_prefix; [exact Hn|].
  intros j Hj. rewrite !nth_prep_values. cbv zeta.
  rewrite nth_firstn. destruct (Nat.ltb_spec j k); [reflexivity|lia].
Qed.

(** The kernel's [nobs] is the number of counted observations in the
    window. *)
Lemma count_observed_S_l xs s len :
  count_observed xs s (S len)
  = (if observed (nth s xs nan) then 1 else 0) + count_observed xs (S s) len.
Proof.
  unfold count_observed. cbn [seq filter].
  destruct (observed (nth s xs nan)); reflexivity.
Qed.

Lemma count_observed_S_r xs s len :
  count_observed xs s (S len)
  = count_observed xs s len + (if observed (nth (s + len) xs nan) then 1 else 0).
Proof.
  unfold count_observed. rewrite seq_S, filter_app, length_app. cbn [filter].
  destruct (observed (nth (s + len) xs nan)); reflexivity.
Qed.

Lemma count_observed_le xs s len : count_observed xs s len <= len.
Proof.
  unfold count_observed.
  pose proof (filter_length_le (fun j => observed (nth j xs nan)) (seq s len)) as H.
  now rewrite length_seq in H.
Qed.

Lemma count_observed_lt xs s len j :
  s <= j < s + len -> observed (nth j xs nan) = false ->
  count_observed xs s len < len.
Proof.
  revert s. induction len as [|len IH]; intros s Hj Ho; [lia|].
  rewrite count_observed_S_l.
  destruct (Nat.eq_dec j s) as [->|Hne].
  - rewrite Ho. pose proof (count_observed_le xs (S s) len). lia.
  - specialize (IH (S s) ltac:(lia) Ho).
    destruct (observed (nth s xs nan)); lia.
Qed.

Lemma isnan_prep_observed xs j :
  isnan (nth j (prep_values xs) nan) = negb (observed (nth j xs nan)).
Proof.
  rewrite nth_prep_values. cbv zeta. unfold observed.
  destruct (nth j xs nan) as [| | |]; reflexivity.
Qed.

Lemma nobs_add_mean v st :
  nobs (add_mean v st) = (if isnan v then 0 else 1) + nobs st.
Proof. unfold add_mean. destruct (isnan v); reflexivity. Qed.

Lemma nobs_remove_mean v st :
  nobs (remove_mean v st) = if isnan v then nobs st else pred (nobs st).
Proof. unfold remove_mean. destruct (isnan v); reflexivity. Qed.

Lemma nobs_roll_state n xs i : 2 <= n ->
  nobs (roll_state n (prep_values xs) i)
  = count_observed xs (window_start n i) (window_end i - window_start n i).
Proof.
  intros Hn. unfold window_start, window_end. induction i as [|i IH].
  - rewrite roll_state_0 by lia. rewrite nobs_add_mean.
    replace (0 + 1 - n) with 0 by lia. cbn [Nat.sub Nat.add].
    rewrite count_observed_S_l. unfold count_observed at 1. cbn [seq filter length].
    rewrite isnan_prep_observed.
    destruct (observed (nth 0 xs nan)); reflexivity.
  - rewrite roll_state_S by lia. rewrite nobs_add_mean, isnan_prep_observed.
    destruct (Nat.leb_spec n (S i)).
    + rewrite nobs_remove_mean, isnan_prep_observed, IH.
      replace (i + 1 - n) with (S i - n) by lia.
      replace (i + 1 - (S i - n)) with (S (n - 1)) by lia.
      replace (S i + 1 - n) with (S (S i - n)) by lia.
      replace (S i + 1 - S (S i - n)) with (S (n - 1)) by lia.
      rewrite count_observed_S_l, count_observed_S_r.
      replace (S (S i - n) + (n - 1)) with (S i) by lia.
      destruct (observed (nth (S i - n) xs nan)), (observed (nth (S i) xs nan));
        cbn [negb pred Nat.add]; lia.
    + rewrite IH.
      replace (i + 1 - n) with 0 by lia. replace (S i + 1 - n) with 0 by lia.
      replace (S i + 1 - 0) with (S (i + 1 - 0)) by lia.
      rewrite count_observed_S_r.
      replace (0 + (i + 1 - 0)) with (S i) by lia.
      destruct (observed (nth (S i) xs nan)); cbn [negb]; lia.
Qed.

(** A missing or infinite observation in the window makes the mean NaN. *)
Lemma rolling_mean_missing n xs i j d : 2 <= n -> i < length xs ->
  window_start n i <= j <= i -> observed (nth j xs nan) = false ->
  nth i (rolling_mean n xs) d = nan.
Proof.
  intros Hn Hi Hj Ho. rewrite nth_rolling_mean by exact Hi.
  unfold calc_mean. rewrite nobs_roll_state by exact Hn.
  pose proof (count_observed_lt xs (window_start n i)
                (window_end i - window_start n i) j) as H.
  unfold window_start, window_end in *.
  specialize (H ltac:(lia) Ho).
  destruct (Nat.leb_spec n (count_observed xs (i + 1 - n) (i + 1 - (i + 1 - n))));
    [lia|reflexivity].
Qed.

(** Before the window is full the mean is NaN. *)
Lemma rolling_mean_short n xs i d : 2 <= n -> i < length xs -> i + 1 < n ->
  nth i (rolling_mean n xs) d = nan.
Proof.
  intros Hn Hi Hs. rewrite nth_rolling_mean by exact Hi.
  unfold calc_mean. rewrite nobs_roll_state by exact Hn.
  pose proof (count_observed_le xs (window_start n i)
                (window_end i - window_start n i)) as H.
  unfold window_start, window_end in *.
  destruct (Nat.leb_spec n (count_observed xs (i + 1 - n) (i + 1 - (i + 1 - n))));
    [lia|reflexivity].
Qed.

Section IntegerSeries.
Local Open Scope Z_scope.

Lemma window_sum_S_l zs s len :
  window_sum zs s (S len) = nth s zs 0 + window_sum zs (S s) len.
Proof. reflexivity. Qed.

Lemma window_sum_S_r zs s len :
  window_sum zs s (S len) = window_sum zs s len + nth (s + len) zs 0.
Proof.
  unfold window_sum. rewrite seq_S, map_app, fold_right_app. cbn [map fold_right].
  generalize (seq s len) as l. induction l as [|a l IH]; cbn [map fold_right]; lia.
Qed.

Variable B : Z.
Hypothesis HB : 0 < B.

Lemma nth_range zs j : Forall (fun z => 0 <= z < B) zs -> 0 <= nth j zs 0 < B.
Proof.
  intros H. destruct (Nat.lt_ge_cases j (length zs)) as [L|G].
  - rewrite Forall_forall in H. apply H. now apply nth_In.
  - rewrite nth_overflow by exact G. lia.
Qed.

Lemma window_sum_range zs s len : Forall (fun z => 0 <= z < B) zs ->
  0 <= window_sum zs s len <= Z.of_nat len * (B - 1).
Proof.
  intros H. revert s. induction len as [|len IH]; intros s.
  - cbn. lia.
  - rewrite window_sum_S_l. pose proof (nth_range zs s H). specialize (IH (S s)).
    lia.
Qed.

Lemma window_sum_const zs s len c :
  (forall k, (k < len)%nat -> nth (s + k) zs 0 = c) ->
  window_sum zs s len = Z.of_nat len * c.
Proof.
  revert s. induction len as [|len IH]; intros s H.
  - reflexivity.
  - rewrite window_sum_S_l, IH.
    + specialize (H 0%nat ltac:(lia)). rewrite Nat.add_0_r in H. lia.
    + intros k Hk. specialize (H (S k) ltac:(lia)).
      now replace (s + S k)%nat with (S s + k)%nat in H by lia.
Qed.

End IntegerSeries.

Section IntegerKernel.
Local Open Scope Z_scope.

Lemma isnan_of_Z z : Z.abs z < 2 ^ 53 -> isnan (of_Z z) = false.
Proof.
  intros H. destruct (Z.eq_dec z 0) as [->|H0]; [reflexivity|].
  now rewrite of_Z_int.
Qed.

Lemma isinf_of_Z z : Z.abs z < 2 ^ 53 -> isinf (of_Z z) = false.
Proof.
  intros H. destruct (Z.eq_dec z 0) as [->|H0]; [reflexivity|].
  now rewrite of_Z_int.
Qed.

Lemma signbit_of_Z z : 0 <= z < 2 ^ 53 -> signbit (of_Z z) = false.
Proof.
  intros H. destruct (Z.eq_dec z 0) as [->|H0]; [reflexivity|].
  rewrite of_Z_int by lia. cbn [signbit]. apply Z.ltb_ge. lia.
Qed.

Lemma opp_of_Z z : z <> 0 -> Z.abs z < 2 ^ 53 -> opp (of_Z z) = of_Z (- z).
Proof.
  intros H0 H. rewrite !of_Z_int by lia.
  destruct z; [lia|reflexivity|reflexivity].
Qed.

(** Adding an integer observation to an integer sum leaves no
    compensation. *)
Lemma add_mean_int z s st :
  0 <= z -> 0 <= s -> s + z < 2 ^ 53 ->
  sum_x st = of_Z s -> compensation_add st = zero ->
  add_mean (of_Z z) st =
  {| nobs := S (nobs st);
     sum_x := of_Z (s + z);
     neg_ct := neg_ct st;
     compensation_add := zero;
     compensation_remove := compensation_remove st;
     num_consecutive_same_value :=
       if feq (of_Z z) (prev_value st)
       then S (num_consecutive_same_value st) else 1%nat;
     prev_value := of_Z z |}.
Proof.
  intros Hz Hs Hsz Esum Ecomp. unfold add_mean.
  rewrite isnan_of_Z, signbit_of_Z by lia. rewrite Esum, Ecomp.
  change zero with (of_Z 0).
  rewrite (sub_of_Z z 0), Z.sub_0_r by lia.
  rewrite (add_of_Z s z) by lia.
  rewrite (sub_of_Z (s + z) s) by lia.
  replace (s + z - s) with z by lia.
  rewrite (sub_of_Z z z), Z.sub_diag by lia. reflexivity.
Qed.

Lemma remove_mean_int z s st :
  0 <= z <= s -> s < 2 ^ 53 ->
  sum_x st = of_Z s -> compensation_remove st = zero ->
  remove_mean (of_Z z) st =
  {| nobs := pred (nobs st);
     sum_x := of_Z (s - z);
     neg_ct := neg_ct st;
     compensation_add := compensation_add st;
     compensation_remove := zero;
     num_consecutive_same_value := num_consecutive_same_value st;
     prev_value := prev_value st |}.
Proof.
  intros Hz Hs Esum Ecomp. unfold remove_mean.
  rewrite isnan_of_Z, signbit_of_Z by lia. rewrite Esum, Ecomp.
  destruct (Z.eq_dec z 0) as [->|Hz0].
  - rewrite Z.sub_0_r. change (sub (opp (of_Z 0)) zero) with (S754_zero true).
    assert (E : add (of_Z s) (S754_zero true) = of_Z s).
    { destruct (Z.eq_dec s 0) as [->|Hs0]; [reflexivity|].
      now rewrite of_Z_int by lia. }
    rewrite E. rewrite (sub_of_Z s s), Z.sub_diag by lia. reflexivity.
  - rewrite opp_of_Z by lia. change zero with (of_Z 0).
    rewrite (sub_of_Z (- z) 0), Z.sub_0_r by lia.
    rewrite (add_of_Z s (- z)) by lia.
    replace (s + - z) with (s - z) by lia.
    rewrite (sub_of_Z (s - z) s) by lia.
    replace (s - z - s) with (- z) by lia.
    rewrite (sub_of_Z (- z) (- z)), Z.sub_diag by lia. reflexivity.
Qed.

End IntegerKernel.

Section ExactKernel.

Variable zs : list Z.
Hypothesis Hzs : Forall whole zs.
Variable n : nat.
Hypothesis Hn : 2 <= n <= 8.

Lemma whole_nth j : whole (nth j zs 0%Z).
Proof. apply (nth_range (2 ^ 50)); [reflexivity|exact Hzs]. Qed.

Lemma whole_sum s len : len <= 8 ->
  (0 <= window_sum zs s len <= Z.of_nat len * (2 ^ 50 - 1))%Z.
Proof. intros _. apply window_sum_range; [reflexivity|exact Hzs]. Qed.

Lemma nth_of_Z j : j < length zs -> nth j (map of_Z zs) nan = of_Z (nth j zs 0%Z).
Proof.
  intros H. rewrite (nth_indep _ nan (of_Z 0%Z)) by (now rewrite length_map).
  apply map_nth.
Qed.

Lemma roll_state_exact i : i < length zs ->
  exact_state zs n i (roll_state n (map of_Z zs) i).
Proof.
  induction i as [|i IH]; intros Hi.
  - rewrite roll_state_0 by lia. rewrite nth_of_Z by exact Hi.
    pose proof (whole_nth 0) as W. unfold whole in W.
    rewrite (add_mean_int (nth 0 zs 0%Z) 0); try reflexivity; try lia.
    unfold exact_state, window_start. replace (0 + 1 - n) with 0 by lia.
    cbn [nobs sum_x neg_ct compensation_add compensation_remove prev_value
         num_consecutive_same_value init_state Nat.add Nat.sub].
    repeat apply conj; try reflexivity.
    f_equal. cbn. lia.
  - specialize (IH ltac:(lia)).
    destruct IH as (I1 & I2 & I3 & I4 & I5 & I6 & I7).
    rewrite roll_state_S by lia. rewrite nth_of_Z by exact Hi.
    pose proof (whole_nth (S i)) as W. unfold whole in W.
    unfold exact_state, window_start in *.
    destruct (Nat.leb_spec n (S i)) as [L|L].
    + rewrite nth_of_Z by lia.
      pose proof (whole_nth (S i - n)) as W'. unfold whole in W'.
      replace (i + 1 - n) with (S i - n) in * by lia.
      replace (i + 1 - (S i - n)) with (S (n - 1)) in * by lia.
      pose proof (whole_sum (S (S i - n)) (n - 1) ltac:(lia)) as R.
      pose proof (whole_sum (S i - n) (S (n - 1)) ltac:(lia)) as R'.
      rewrite window_sum_S_l in I2, R'.
      rewrite (remove_mean_int (nth (S i - n) zs 0%Z)
                 (nth (S i - n) zs 0 + window_sum zs (S (S i - n)) (n - 1))%Z);
        [|lia|lia|exact I2|exact I5].
      replace (nth (S i - n) zs 0 + window_sum zs (S (S i - n)) (n - 1)
               - nth (S i - n) zs 0)%Z
        with (window_sum zs (S (S i - n)) (n - 1)) by lia.
      rewrite (add_mean_int _ (window_sum zs (S (S i - n)) (n - 1)));
        [|lia|lia|lia|reflexivity|exact I4].
      cbn [nobs sum_x neg_ct compensation_add compensation_remove prev_value
           num_consecutive_same_value].
      replace (S i + 1 - n) with (S (S i - n)) by lia.
      replace (S i + 1 - S (S i - n)) with (S (n - 1)) by lia.
      repeat apply conj; auto.
      * lia.
      * rewrite window_sum_S_r. do 3 f_equal. lia.
      * rewrite I6. intros k Hk Hki.
        destruct (feq (of_Z (nth (S i) zs 0%Z)) (of_Z (nth i zs 0%Z))) eqn:E.
        -- apply feq_of_Z in E; [|pose proof (whole_nth i) as Wi; unfold whole in Wi; lia ..].
           destruct k as [|k]; [now rewrite Nat.sub_0_r|].
           cbn [Nat.sub]. rewrite I7; [now symmetry|lia|lia].
        -- assert (k = 0) by lia. subst k. now rewrite Nat.sub_0_r.
    + replace (i + 1 - n) with 0 in * by lia. replace (S i + 1 - n) with 0 by lia.
      rewrite Nat.sub_0_r in *.
      pose proof (whole_sum 0 (i + 1) ltac:(lia)) as R.
      rewrite (add_mean_int _ (window_sum zs 0 (i + 1)));
        [|lia|lia|lia|exact I2|exact I4].
      cbn [nobs sum_x neg_ct compensation_add compensation_remove prev_value
           num_consecutive_same_value].
      repeat apply conj; auto.
      * lia.
      * replace (S i + 1) with (S (i + 1)) by lia.
        rewrite window_sum_S_r. do 3 f_equal. lia.
      * rewrite I6. intros k Hk Hki.
        destruct (feq (of_Z (nth (S i) zs 0%Z)) (of_Z (nth i zs 0%Z))) eqn:E.
        -- apply feq_of_Z in E; [|pose proof (whole_nth i) as Wi; unfold whole in Wi; lia ..].
           destruct k as [|k]; [now rewrite Nat.sub_0_r|].
           cbn [Nat.sub]. rewrite I7; [now symmetry|lia|lia].
        -- assert (k = 0) by lia. subst k. now rewrite Nat.sub_0_r.
Qed.

Lemma prep_values_whole : prep_values (map of_Z zs) = map of_Z zs.
Proof.
  unfold prep_values. rewrite map_map. apply map_ext_in. intros z Hz.
  rewrite Forall_forall in Hzs. specialize (Hzs z Hz). unfold whole in Hzs.
  rewrite isinf_of_Z; [reflexivity|lia].
Qed.

(** On a series of whole numbers the rolling mean is the correctly rounded
    quotient of the exact window sum by the window length. *)
Lemma rolling_mean_exact i d : i < length zs -> n <= i + 1 ->
  nth i (rolling_mean n (map of_Z zs)) d
  = div (of_Z (window_sum zs (i + 1 - n) n)) (of_nat n).
Proof.
  intros Hi Hw. rewrite nth_rolling_mean by (now rewrite length_map).
  rewrite prep_values_whole.
  destruct (roll_state_exact i Hi) as (I1 & I2 & I3 & I4 & I5 & I6 & I7).
  unfold window_start in *.
  replace (i + 1 - (i + 1 - n)) with n in * by lia.
  set (st := roll_state n (map of_Z zs) i) in *.
  unfold calc_mean. rewrite I1, I2, I3.
  pose proof (whole_sum (i + 1 - n) n ltac:(lia)) as R.
  destruct (Nat.leb_spec n n) as [_|]; [|lia].
  destruct (Nat.ltb_spec 0 n) as [_|]; [|lia]. cbn [andb].
  destruct (Nat.leb_spec n (num_consecutive_same_value st)) as [Hsame|Hdiff].
  - rewrite I6.
    rewrite (window_sum_const zs (i + 1 - n) n (nth i zs 0%Z)).
    + unfold of_nat. pose proof (whole_nth i) as W. unfold whole in W.
      symmetry. apply div_of_Z; [lia|lia|nia].
    + intros k Hk. rewrite <- (I7 (n - 1 - k)) by lia. f_equal. lia.
  - assert (E : ltb (div (of_Z (window_sum zs (i + 1 - n) n)) (of_nat n)) zero = false)
      by (apply div_of_Z_not_neg; lia).
    assert (E0 : (0 =? n) = false) by (apply Nat.eqb_neq; lia).
    rewrite E, Nat.eqb_refl, E0. reflexivity.
Qed.

End ExactKernel.

(** C5.  For a sufficient frame, [cond_yesterday_vs_ma5] is true exactly when
    the volume of the second-to-last bar exceeds twice the 5-bar rolling mean
    of the volumes as of that bar, that is, the mean pandas reports at the
    last position of the series without today's bar; it is false when that
    mean is NaN.  The mean is NaN as soon as one of the five volumes of its
    window is missing or infinite, and on whole-number volumes it is the
    correctly rounded fifth of the exact sum of the five. *)
Theorem C5_yesterday_vs_ma5 (yf : pystr -> download) (symbol_plain name : pystr)
        (df : PriceFrame) :
  yf (symbol_plain ++ utf8 ".TW") = Returned df ->
  sufficient df ->
  let v := volumes (dropna_Close (bars df)) in
  let n := length v in
  let yesterday := nth (n - 2) v nan in
  let ma5_yesterday := nth (n - 2) (rolling_mean 5 (firstn (n - 1) v)) nan in
  exists passed c data,
    is_strong_stock yf symbol_plain name = (passed, Breakdown c, Some data)
    /\ cond_yesterday_vs_ma5 c
       = negb (isnan ma5_yesterday) && gtb yesterday (mul ma5_yesterday (of_Z 2))
    /\ (isnan ma5_yesterday = true -> cond_yesterday_vs_ma5 c = false)
    /\ (forall j, n - 6 <= j <= n - 2 -> observed (nth j v nan) = false ->
        ma5_yesterday = nan)
    /\ (forall zs, v = map of_Z zs -> Forall whole zs ->
        ma5_yesterday
        = div (of_Z (nth (n - 6) zs 0 + nth (n - 5) zs 0 + nth (n - 4) zs 0
                     + nth (n - 3) zs 0 + nth (n - 2) zs 0)%Z)
              (of_Z 5)).
Proof.
  intros Hyf Hs v n yesterday ma5. unfold is_strong_stock.
  rewrite Hyf, (evaluate_sufficient df Hs).
  eexists _, _, _. split; [reflexivity|].
  assert (Hn : 10 <= n).
  { unfold n, v, volumes. rewrite length_map. apply Hs. }
  assert (Hl : length v = n) by reflexivity.
  assert (Hma : ma5 = nth (n - 2) (rolling_mean 5 v) nan).
  { unfold ma5. apply rolling_mean_prefix; clear - Hn Hl; lia. }
  assert (E : iloc_neg 2 (MA5_vol (add_indicators (dropna_Close (bars df)))) = ma5).
  { unfold iloc_neg. cbn [MA5_vol add_indicators]. fold v.
    rewrite length_rolling_mean. fold n. now rewrite Hma. }
  cbn [conditions cond_yesterday_vs_ma5]. cbn [rows add_indicators]. fold v.
  rewrite E. unfold iloc_neg at 1. fold n. fold yesterday.
  split; [destruct (isnan ma5); reflexivity|].
  split; [intros H; rewrite H; reflexivity|].
  split.
  - intros j Hj Ho. rewrite Hma.
    apply (rolling_mean_missing 5 v (n - 2) j); auto.
    + clear - Hn Hl; lia.
    + unfold window_start. clear - Hn Hj; lia.
  - intros zs Hv Hw. rewrite Hma.
    assert (Hlz : length zs = n).
    { unfold n. rewrite Hv. now rewrite length_map. }
    clearbody v. subst v.
    rewrite (rolling_mean_exact zs Hw 5); [|lia|clear - Hn Hlz; lia ..].
    replace (n - 2 + 1 - 5) with (n - 6) by (clear - Hn; lia).
    unfold window_sum. cbn [seq map fold_right].
    replace (S (n - 6)) with (n - 5) by (clear - Hn; lia).
    replace (S (n - 5)) with (n - 4) by (clear - Hn; lia).
    replace (S (n - 4)) with (n - 3) by (clear - Hn; lia).
    replace (S (n - 3)) with (n - 2) by (clear - Hn; lia).
    f_equal. f_equal. lia.
Qed.

Lemma C5_witness :
  (exists passed c data,
      is_strong_stock sample_provider (utf8 "2330") (utf8 "TSMC")
        = (passed, Breakdown c, Some data)
      /\ cond_yesterday_vs_ma5 c = true
      /\ nth 8 (rolling_mean 5 (firstn 9 (volumes sample_bars))) nan
         = div (of_Z (10 + 10 + 10 + 10 + 100)) (of_Z 5))
  /\ (exists passed c data,
        is_strong_stock missing_volume_provider (utf8 "2330") (utf8 "TSMC")
          = (passed, Breakdown c, Some data)
        /\ cond_yesterday_vs_ma5 c = false
        /\ nth 8 (rolling_mean 5 (firstn 9 (volumes missing_volume_bars))) nan
           = nan).
Proof.
  split.
  - destruct (C5_yesterday_vs_ma5 sample_provider (utf8 "2330") (utf8 "TSMC")
                sample_frame eq_refl
                (conj eq_refl (conj eq_refl (le_n 10))))
      as (passed & c & data & E & Hflag & _ & _ & Hint).
    exists passed, c, data. split; [exact E|]. split.
    + rewrite Hflag. vm_compute. reflexivity.
    + apply (Hint [10; 10; 10; 10; 10; 10; 10; 10; 100; 200]%Z); [reflexivity|].
      repeat constructor; unfold whole; lia.
  - destruct (C5_yesterday_vs_ma5 missing_volume_provider (utf8 "2330") (utf8 "TSMC")
                missing_volume_frame eq_refl
                (conj eq_refl (conj eq_refl (le_n 10))))
      as (passed & c & data & E & _ & Hnan & Hmiss & _).
    assert (Hma : nth 8 (rolling_mean 5 (firstn 9 (volumes missing_volume_bars))) nan
                  = nan)
      by (apply (Hmiss 6); [simpl; lia|reflexivity]).
    exists passed, c, data. split; [exact E|]. split; [|exact Hma].
    apply Hnan. change (isnan (nth 8 (rolling_mean 5 (firstn 9 (volumes missing_volume_bars))) nan) = true).
    rewrite Hma. reflexivity.
Defined.

(** The kernel on [drifting_volumes]: at the second-to-last position the
    running sum gives 202.09999999999997, where the five volumes summed
    afresh and divided by five give 202.1. *)
Lemma rolling_mean_keeps_a_running_sum :
  nth 8 (rolling_mean 5 drifting_volumes) nan = dec "202.09999999999997"
  /\ div (fold_left add (firstn 5 (skipn 4 drifting_volumes)) zero) (of_Z 5)
     = dec "202.1"
  /\ dec "202.09999999999997" <> dec "202.1".
Proof. vm_compute. repeat split. discriminate. Qed.

Lemma mul_0_95_le h :
  valid h = true -> ltb zero h = true -> leb (mul h f0_95) h = true.
Proof.
  intros Hv Hp. destruct h as [s|[|]| |[|] m e]; try discriminate Hp.
  - reflexivity.
  - apply mul_0_95_le_finite. exact Hv.
Qed.

Lemma fmax_cases a b : fmax a b = a \/ fmax a b = b.
Proof. unfold fmax. destruct (ltb a b); auto. Qed.

Lemma fold_fmax_In r : forall x, In (fold_left fmax r x) (x :: r).
Proof.
  induction r as [|y r IH]; intros x; cbn [fold_left].
  - now left.
  - destruct (IH (fmax x y)) as [H|H].
    + rewrite <- H. destruct (fmax_cases x y) as [E|E]; rewrite E; simpl; auto.
    + right. now right.
Qed.

Lemma series_max_In xs : series_max xs = nan \/ In (series_max xs) xs.
Proof.
  unfold series_max.
  destruct (filter (fun x => negb (isnan x)) xs) as [|x r] eqn:E; [now left|].
  right. pose proof (fold_fmax_In r x) as H. rewrite <- E in H.
  apply filter_In in H. apply H.
Qed.

Lemma tail_incl {A} k (xs : list A) x : In x (tail k xs) -> In x xs.
Proof.
  unfold tail. intros H. rewrite <- (firstn_skipn (length xs - k) xs).
  apply in_or_app. now right.
Qed.

Lemma closes_valid rs :
  Forall (fun b => valid (Close b) = true) rs ->
  forall x, In x (closes (dropna_Close rs)) -> valid x = true.
Proof.
  intros H x Hx. unfold closes in Hx. apply in_map_iff in Hx.
  destruct Hx as (b & <- & Hb). apply filter_In in Hb.
  rewrite Forall_forall in H. apply H, Hb.
Qed.

(** C10.  For a sufficient frame of binary64 closes whose trailing 10-bar
    maximum is positive, [cond_close_new10] equals the single comparison
    [close_today >= ten_high * 0.95]: the first disjunct implies the
    second. *)
Theorem C10_close_new10_single_inequality
        (yf : pystr -> download) (symbol_plain name : pystr) (df : PriceFrame) :
  yf (symbol_plain ++ utf8 ".TW") = Returned df ->
  sufficient df ->
  Forall (fun b => valid (Close b) = true) (bars df) ->
  let close := closes (dropna_Close (bars df)) in
  let close_today := nth (length close - 1) close nan in
  let ten_high := series_max (tail 10 close) in
  ltb zero ten_high = true ->
  exists passed c data,
    is_strong_stock yf symbol_plain name = (passed, Breakdown c, Some data)
    /\ cond_close_new10 c = geb close_today (mul ten_high f0_95)
    /\ (geb close_today ten_high = true ->
        geb close_today (mul ten_high f0_95) = true).
Proof.
  intros Hyf Hs Hvalid close close_today ten_high Hpos.
  unfold is_strong_stock. rewrite Hyf, (evaluate_sufficient df Hs).
  eexists _, _, _. split; [reflexivity|].
  assert (Hv : valid ten_high = true).
  { destruct (series_max_In (tail 10 close)) as [E|Hin].
    - fold ten_high in E. rewrite E in Hpos. discriminate.
    - apply (closes_valid (bars df) Hvalid). eapply tail_incl. exact Hin. }
  assert (Himp : geb close_today ten_high = true ->
                 geb close_today (mul ten_high f0_95) = true).
  { unfold geb. intros H. eapply leb_trans; [|exact H].
    apply mul_0_95_le; assumption. }
  split; [|exact Himp].
  cbn [conditions cond_close_new10 rows add_indicators]. fold close.
  unfold iloc_neg. fold close_today. fold ten_high.
  destruct (geb close_today ten_high) eqn:E; cbn [orb]; [|reflexivity].
  symmetry. now apply Himp.
Qed.

Lemma C10_witness :
  exists passed c data,
    is_strong_stock sample_provider (utf8 "2330") (utf8 "TSMC")
      = (passed, Breakdown c, Some data)
    /\ cond_close_new10 c
       = geb (of_Z 104) (mul (of_Z 104) f0_95)
    /\ (geb (of_Z 104) (of_Z 104) = true ->
        geb (of_Z 104) (mul (of_Z 104) f0_95) = true).
Proof.
  apply (C10_close_new10_single_inequality
           sample_provider (utf8 "2330") (utf8 "TSMC") sample_frame).
  - reflexivity.
  - repeat split; simpl; lia.
  - repeat constructor.
  - reflexivity.
Defined.

(** C4, amended.  A non-empty returned frame with both columns and fewer
    than 10 rows with a close yields [passed = false] with the reason
    [short-history], whatever its bars are. *)
Theorem C4_short_history_nonempty
        (yf : pystr -> download) (symbol_plain name : pystr) (df : PriceFrame) :
  yf (symbol_plain ++ utf8 ".TW") = Returned df ->
  bars df <> [] ->
  has_Close df = true -> has_Volume df = true ->
  length (dropna_Close (bars df)) < 10 ->
  is_strong_stock yf symbol_plain name
  = (false, Tag (utf8 "short-history"),
     Some (add_indicators (dropna_Close (bars df)))).
Proof.
  intros Hyf Hne Hc Hv Hn. unfold is_strong_stock. rewrite Hyf.
  unfold evaluate, empty. destruct (bars df) as [|b rs] eqn:E; [congruence|].
  rewrite Hc, Hv. cbn [negb orb].
  destruct (Nat.ltb_spec (length (dropna_Close (b :: rs))) 10); [reflexivity|lia].
Qed.

Lemma C4_witness :
  is_strong_stock short_provider (utf8 "2330") (utf8 "TSMC")
  = (false, Tag (utf8 "short-history"),
     Some (add_indicators (dropna_Close (bars short_frame)))).
Proof.
  apply (C4_short_history_nonempty short_provider (utf8 "2330") (utf8 "TSMC") short_frame).
  - reflexivity.
  - discriminate.
  - reflexivity.
  - reflexivity.
  - simpl; lia.
Defined.

(** C4 as worded fails at the empty frame, which has both columns and
    fewer than 10 bars but is answered with [no-data]. *)
Lemma C4_counterexample : ~ short_history_always.
Proof.
  intros H.
  destruct (H empty_provider (utf8 "2330") (utf8 "TSMC") empty_frame
              eq_refl eq_refl eq_refl) as [data Hd].
  - simpl; lia.
  - discriminate Hd.
Qed.

Lemma C4_empty_is_no_data :
  is_strong_stock empty_provider (utf8 "2330") (utf8 "TSMC")
  = (false, Tag (utf8 "no-data"), None).
Proof. reflexivity. Qed.

(* ===================================================================== *)
(** ** The universe builder *)
(* ===================================================================== *)

(* ---- membership through the string operations ---- *)

Lemma lstrip_In c s : In c (lstrip s) -> In c s.
Proof.
  induction s as [|a s IH]; simpl; auto.
  destruct (isspace a); simpl; auto.
Qed.

Lemma strip_In c s : In c (strip s) -> In c s.
Proof.
  unfold strip, rstrip. intros H.
  apply in_rev, lstrip_In, in_rev in H. now apply lstrip_In.
Qed.

Lemma skipn_In {A} (c : A) n s : In c (skipn n s) -> In c s.
Proof.
  intros H. rewrite <- (firstn_skipn n s). apply in_or_app. now right.
Qed.

Lemma replace_fuel_In c old new fuel :
  forall s, In c (replace_fuel fuel old new s) -> In c new \/ In c s.
Proof.
  induction fuel as [|fuel IH]; intros s; simpl; auto.
  destruct s as [|a s]; auto.
  destruct (startswith old (a :: s)).
  - intros H. apply in_app_or in H. destruct H as [H|H]; auto.
    apply IH in H. destruct H as [H|H]; auto.
    right. eapply skipn_In. exact H.
  - intros [H|H]; [right; now left|].
    apply IH in H. destruct H as [H|H]; auto. right. now right.
Qed.

Lemma replace_In c old new s : In c (replace old new s) -> In c new \/ In c s.
Proof. apply replace_fuel_In. Qed.

Lemma numeric_text_minus x : In 45%N (numeric_text x) -> In 45%N (py_str x).
Proof.
  unfold numeric_text. intros H. apply strip_In in H.
  apply replace_In in H. destruct H as [H|H].
  - cbv in H. destruct H as [H|[]]. discriminate H.
  - apply replace_In in H. destruct H as [[]|H]. exact H.
Qed.

(* ---- the sign of what [float] returns ---- *)

Lemma binary_normalize_not_negative z e :
  (0 <= z)%Z -> ltb (binary_normalize prec emax z e false) zero = false.
Proof.
  intros H. destruct z as [|p|p]; [reflexivity| |lia].
  unfold binary_normalize, binary_round.
  destruct (shl_align p e _) as [mz ez].
  apply binary_round_aux_not_neg.
Qed.

Lemma digits_value_nonneg ds : (0 <= PyFloat.digits_value ds)%Z.
Proof.
  unfold PyFloat.digits_value.
  assert (G : forall acc, (0 <= acc)%Z ->
            (0 <= fold_left (fun acc d => 10 * acc + Z.of_N d) ds acc)%Z).
  { induction ds as [|d ds IH]; intros acc Ha; cbn [fold_left]; auto.
    apply IH. pose proof (N2Z.is_nonneg d). lia. }
  apply G. lia.
Qed.

Lemma of_decimal_not_negative m e10 :
  (0 <= m)%Z -> ltb (PyFloat.of_decimal false m e10) zero = false.
Proof.
  intros Hm. unfold PyFloat.of_decimal.
  destruct (m =? 0)%Z; [reflexivity|].
  destruct (0 <=? e10)%Z eqn:He.
  - apply binary_normalize_not_negative. cbn [cond_Zopp].
    apply Z.mul_nonneg_nonneg; [exact Hm|]. apply Z.pow_nonneg. lia.
  - apply binary_normalize_not_negative. cbn [cond_Zopp].
    assert (0 <= m * 2 ^ Z.max 0 (Z.log2 (10 ^ (- e10)) - Z.log2 m + 60) / 10 ^ (- e10))%Z.
    { apply Z.div_pos.
      - apply Z.mul_nonneg_nonneg; [exact Hm|]. apply Z.pow_nonneg. lia.
      - apply Z.pow_pos_nonneg; [lia|]. apply Z.leb_gt in He. lia. }
    destruct (_ =? 0)%Z; lia.
Qed.

Lemma parse_decimal_not_negative body v :
  PyFloat.parse_decimal false body = Some v -> ltb v zero = false.
Proof.
  unfold PyFloat.parse_decimal.
  destruct (PyFloat.span_digits body) as [ip r1].
  destruct (match r1 with
            | 46%N :: r => PyFloat.span_digits r
            | _ => ([], r1)
            end) as [fp r2].
  destruct (ip ++ fp) as [|d ds]; [discriminate|].
  destruct (PyFloat.parse_exponent r2) as [e|]; [|discriminate].
  intros H. injection H as <-. apply of_decimal_not_negative, digits_value_nonneg.
Qed.

Lemma parse_inf_or_nan_not_negative body v :
  PyFloat.parse_inf_or_nan false body = Some v -> ltb v zero = false.
Proof.
  unfold PyFloat.parse_inf_or_nan.
  destruct (_ || _); [intros H; injection H as <-; reflexivity|].
  destruct (PyStr.eqb _ _); [intros H; injection H as <-; reflexivity|discriminate].
Qed.

Lemma lstrip_c_In c s : In c (PyFloat.lstrip_c s) -> In c s.
Proof.
  induction s as [|a s IH]; simpl; auto.
  destruct (PyFloat.is_c_space a); simpl; auto.
Qed.

Lemma strip_c_In c s : In c (PyFloat.strip_c s) -> In c s.
Proof.
  unfold PyFloat.strip_c. intros H.
  apply in_rev, lstrip_c_In, in_rev in H. now apply lstrip_c_In.
Qed.

Lemma drop_underscores_In c s :
  forall prev t, PyFloat.drop_underscores prev s = Some t -> In c t -> In c s.
Proof.
  induction s as [|a s IH]; intros prev t; simpl.
  - destruct (prev =? 95)%N; [discriminate|]. intros H; injection H as <-. auto.
  - destruct (a =? 95)%N.
    + destruct (PyFloat.is_digit prev); [|discriminate].
      intros H Hc. right. eapply IH; eauto.
    + destruct ((prev =? 95)%N && negb (PyFloat.is_digit a)); [discriminate|].
      destruct (PyFloat.drop_underscores a s) as [t'|] eqn:E; [|discriminate].
      simpl. intros H; injection H as <-. intros [Hc|Hc]; [now left|].
      right. eapply IH; eauto.
Qed.

Lemma to_ascii_minus c : PyFloat.to_ascii c = 45%N -> c = 45%N.
Proof.
  unfold PyFloat.to_ascii. destruct (c <? 127)%N; auto.
  destruct (isspace c); [discriminate|].
  destruct (PyFloat.to_decimal c); [lia|discriminate].
Qed.

Lemma split_sign_true t body :
  PyFloat.split_sign t = (true, body) -> t = 45%N :: body.
Proof.
  destruct t as [|a t]; [discriminate|]. destruct a as [|p]; [discriminate|].
  unfold PyFloat.split_sign.
  destruct p as [p|p|]; try discriminate;
  destruct p as [p|p|]; try discriminate;
  destruct p as [p|p|]; try discriminate;
  destruct p as [p|p|]; try discriminate;
  destruct p as [p|p|]; try discriminate;
  destruct p as [p|p|]; try discriminate.
  intros H; injection H as <-; reflexivity.
Qed.

Lemma parse_negative_has_minus s v :
  PyFloat.parse s = Some v -> ltb v zero = true -> In 45%N s.
Proof.
  unfold PyFloat.parse.
  destruct (PyFloat.drop_underscores 0 _) as [t|] eqn:Et; [|discriminate].
  destruct (PyFloat.split_sign t) as [neg body] eqn:Es.
  intros Hv Hneg.
  assert (neg = true).
  { destruct neg; auto.
    destruct (PyFloat.parse_decimal false body) as [x|] eqn:Ed.
    - injection Hv as ->. apply parse_decimal_not_negative in Ed. congruence.
    - apply parse_inf_or_nan_not_negative in Hv. congruence. }
  subst neg.
  assert (In 45%N t) by (rewrite (split_sign_true _ _ Es); now left).
  eapply drop_underscores_In in Et; [|eassumption].
  apply strip_c_In in Et. apply in_map_iff in Et.
  destruct Et as (c & Hc & Hin). apply to_ascii_minus in Hc. now subst c.
Qed.

(** C3, amended.  Price parsing never raises; a cell whose text is still
    not a float literal after commas are removed, each [--] is replaced by
    [0] and the text is trimmed becomes NaN; any other cell becomes the
    parsed number, and the placeholder [--] itself becomes [0.0].  So the
    empty cell, the text [n/a] and a missing cell become NaN, while
    [1,234.5] and a number written in full-width digits are read as
    numbers. *)
Theorem C3_price_parsing :
  (forall x : cell,
      exists p, to_price x = Ok p
        /\ (PyFloat.parse (numeric_text x) = None -> p = nan)
        /\ (forall v, PyFloat.parse (numeric_text x) = Some v -> p = v))
  /\ to_price (text "--") = Ok zero
  /\ to_price (text "") = Ok nan
  /\ to_price (text "n/a") = Ok nan
  /\ to_price CNone = Ok nan
  /\ to_price (text "1,234.5") = Ok (dec "1234.5")
  /\ to_price (text "１２３") = Ok (of_Z 123).
Proof.
  split; [|vm_compute; repeat split].
  intros x. unfold to_price, PyFloat.py_float.
  destruct (PyFloat.parse (numeric_text x)) as [v|]; cbn [try_except].
  - exists v. repeat split; [discriminate|]. intros ? H. now injection H as <-.
  - exists nan. repeat split. discriminate.
Qed.

(** C3 as worded fails at the placeholder [--], whose price is [0.0]. *)
Lemma C3_counterexample : ~ unparseable_price_is_nan.
Proof.
  intros H. specialize (H (text "--") eq_refl). discriminate H.
Qed.

Lemma to_num_total x :
  exists v, to_num x = Ok v
    /\ (PyFloat.parse (numeric_text x) = None -> v = zero)
    /\ (ltb v zero = true -> In 45%N (py_str x)).
Proof.
  unfold to_num, PyFloat.py_float.
  destruct (PyFloat.parse (numeric_text x)) as [v|] eqn:E; cbn [try_except].
  - exists v. repeat split; [discriminate|]. intros Hneg.
    apply numeric_text_minus. eapply parse_negative_has_minus; eauto.
  - exists zero. repeat split. discriminate.
Qed.

Lemma apply_In {A B} (f : A -> result B) xs :
  forall ys y, apply f xs = Ok ys -> In y ys -> exists x, In x xs /\ f x = Ok y.
Proof.
  induction xs as [|x xs IH]; intros ys y; cbn [apply].
  - intros H; injection H as <-. intros [].
  - destruct (f x) as [b|e] eqn:Ef; cbn [bind]; [|discriminate].
    destruct (apply f xs) as [bs|e] eqn:Ea; cbn [bind]; [|discriminate].
    intros H; injection H as <-. intros [<-|Hy].
    + exists x. split; [now left|assumption].
    + destruct (IH bs y eq_refl Hy) as (x' & Hx' & Hf). exists x'. split; [now right|assumption].
Qed.

Lemma extract_top300_inv tie to_csv df u :
  extract_top300 tie to_csv df = Ok (Value u) ->
  exists qs, normalised_table df = Ok (Value qs) /\ u = rank_universe tie qs.
Proof.
  unfold extract_top300.
  destruct (normalised_table df) as [[qs|err]|e]; cbn [bind]; try discriminate.
  destruct (to_csv (rank_universe tie qs)); cbn [bind]; [|discriminate].
  intros H; injection H as <-. eauto.
Qed.

Lemma normalised_table_inv df qs :
  normalised_table df = Ok (Value qs) ->
  forall q, In q qs ->
    exists row i j k l, In row (table df)
      /\ normalise {| raw_code := nth i row CNone; raw_name := nth j row CNone;
                      raw_vol := nth k row CNone; raw_close := nth l row CNone |} = Ok q.
Proof.
  unfold normalised_table.
  destruct (dict_get (utf8 "code") _) as [c1|]; [|discriminate].
  destruct (dict_get (utf8 "name") _) as [c2|]; [|discriminate].
  destruct (dict_get (utf8 "vol") _) as [c3|]; [|discriminate].
  destruct (dict_get (utf8 "close") _) as [c4|]; [|discriminate].
  unfold select_columns.
  destruct (_ ++ _) as [|i [|j [|k [|l [|? ?]]]]]; cbn [bind]; try discriminate.
  destruct (apply normalise _) as [qs'|e] eqn:Ea; cbn [bind]; [|discriminate].
  intros H; injection H as <-. intros q Hq.
  destruct (apply_In _ _ _ _ Ea Hq) as (r & Hr & Hn).
  apply in_map_iff in Hr. destruct Hr as (row & <- & Hrow).
  exists row, i, j, k, l. auto.
Qed.

Lemma normalise_vol r q : normalise r = Ok q -> to_num (raw_vol r) = Ok (q_vol q).
Proof.
  unfold normalise.
  destruct (to_num (raw_vol r)) as [v|e]; cbn [bind]; [|discriminate].
  destruct (to_price (raw_close r)) as [p|e]; cbn [bind]; [|discriminate].
  intros H; injection H as <-. reflexivity.
Qed.

(* ---- sorting ---- *)

Section SortFacts.
Variable tie : nat -> nat.

Lemma before_total x y : before tie x y = false -> before tie y x = true.
Proof.
  unfold before. intros H. apply orb_false_iff in H. destruct H as [H1 H2].
  rewrite H1 in *. cbn [negb andb] in *.
  destruct (ltb (q_vol (snd x)) (q_vol (snd y))); [reflexivity|].
  cbn [negb andb orb] in *. apply Nat.leb_gt in H2. apply Nat.leb_le. lia.
Qed.

Lemma insert_perm x l : Permutation (insert tie x l) (x :: l).
Proof.
  induction l as [|y l IH]; cbn [insert]; auto.
  destruct (before tie x y); auto.
  rewrite IH. apply perm_swap.
Qed.

Lemma sort_desc_perm l : Permutation (sort_desc tie l) l.
Proof.
  induction l as [|x l IH]; cbn [sort_desc fold_right]; auto.
  fold (sort_desc tie l). rewrite insert_perm. now constructor.
Qed.

Lemma insert_HdRel a x l : HdRel (sorted_before tie) a l -> sorted_before tie a x -> HdRel (sorted_before tie) a (insert tie x l).
Proof.
  intros Hl Hx. destruct l as [|y l]; cbn [insert].
  - now constructor.
  - destruct (before tie x y); constructor; auto. now inversion Hl.
Qed.

Lemma insert_sorted x l : Sorted (sorted_before tie) l -> Sorted (sorted_before tie) (insert tie x l).
Proof.
  induction 1 as [|y l Hs IH Hh]; cbn [insert].
  - repeat constructor.
  - destruct (before tie x y) eqn:E.
    + constructor; [constructor; assumption|]. constructor. exact E.
    + constructor; [exact IH|]. apply insert_HdRel; [exact Hh|].
      now apply before_total.
Qed.

Lemma sort_desc_sorted l : Sorted (sorted_before tie) (sort_desc tie l).
Proof.
  induction l as [|x l IH]; cbn [sort_desc fold_right]; [constructor|].
  now apply insert_sorted.
Qed.

Lemma before_leb a b :
  isnan (q_vol (snd a)) = false -> isnan (q_vol (snd b)) = false ->
  sorted_before tie a b -> leb (q_vol (snd b)) (q_vol (snd a)) = true.
Proof.
  unfold sorted_before, before. intros Ha Hb H. apply orb_true_iff in H. destruct H as [H|H].
  - now apply ltb_leb.
  - apply andb_true_iff in H. destruct H as [H _]. apply negb_true_iff in H.
    now apply leb_total.
Qed.

End SortFacts.

Lemma vol_order_sorted_app l1 l2 :
  Sorted (fun a b => leb b a = true) l1 ->
  Forall (fun a => isnan a = false) l1 ->
  Forall (fun a => isnan a = true) l2 ->
  StronglySorted vol_order (l1 ++ l2).
Proof.
  intros Hs Hn1 Hn2.
  apply Sorted_StronglySorted in Hs;
    [|intros a b c Hab Hbc; eapply leb_trans; eassumption].
  induction Hs as [|a l Hs IH Hall]; cbn [app].
  - induction Hn2 as [|b l Hb Hl IH]; constructor; auto.
    apply Forall_forall. intros c Hc. left.
    rewrite Forall_forall in Hl. now apply Hl.
  - inversion Hn1 as [|? ? Ha Hl]; subst. constructor; [now apply IH|].
    apply Forall_app. split.
    + rewrite Forall_forall in *. intros b Hb. right. split; auto.
    + rewrite Forall_forall in *. intros b Hb. left. auto.
Qed.

Lemma StronglySorted_firstn {A} (P : A -> A -> Prop) n l :
  StronglySorted P l -> StronglySorted P (firstn n l).
Proof.
  revert n. induction l as [|a l IH]; intros n H.
  - rewrite firstn_nil. constructor.
  - destruct n; cbn [firstn]; [constructor|].
    inversion H as [|? ? Hs Hall]; subst. constructor; [now apply IH|].
    rewrite Forall_forall in *. intros b Hb. apply Hall.
    rewrite <- (firstn_skipn n l). apply in_or_app. now left.
Qed.

Lemma Sorted_map_vol tie l :
  Sorted (fun a b => before tie a b = true) l ->
  Forall (fun p => isnan (q_vol (snd p)) = false) l ->
  Sorted (fun a b => leb b a = true) (map (fun p => q_vol (snd p)) l).
Proof.
  induction 1 as [|a l Hs IH Hh]; intros Hn; cbn [map]; [constructor|].
  inversion Hn as [|? ? Ha Hl]; subst. constructor; [now apply IH|].
  destruct Hh as [|b l Hab]; cbn [map]; constructor.
  inversion Hl; subst. eapply before_leb; eauto.
Qed.

Lemma filter_partition_perm {A} (f g : A -> bool) l :
  (forall x, g x = negb (f x)) ->
  Permutation (filter f l ++ filter g l) l.
Proof.
  intros Hg. induction l as [|x l IH]; cbn [filter]; auto.
  rewrite Hg. destruct (f x); cbn [negb app].
  - now constructor.
  - rewrite <- Permutation_middle. now constructor.
Qed.

Lemma map_snd_combine_seq {A} (l : list A) s :
  map snd (combine (seq s (length l)) l) = l.
Proof.
  revert s. induction l as [|x l IH]; intros s; cbn; auto. now rewrite IH.
Qed.

Lemma sort_values_desc_perm tie rows :
  Permutation (sort_values_desc tie rows) rows.
Proof.
  unfold sort_values_desc.
  set (indexed := combine (seq 0 (length rows)) rows).
  rewrite sort_desc_perm.
  rewrite filter_partition_perm by (intros x; now rewrite negb_involutive).
  unfold indexed. now rewrite map_snd_combine_seq.
Qed.

Lemma sort_values_desc_sorted tie rows :
  StronglySorted vol_order (map q_vol (sort_values_desc tie rows)).
Proof.
  unfold sort_values_desc.
  set (indexed := combine (seq 0 (length rows)) rows).
  rewrite map_map, map_app.
  apply vol_order_sorted_app.
  - apply Sorted_map_vol with (tie := tie).
    + apply sort_desc_sorted.
    + apply Forall_forall. intros p Hp.
      eapply Permutation_in in Hp; [|apply sort_desc_perm].
      apply filter_In in Hp. destruct Hp as [_ Hp]. now apply negb_true_iff in Hp.
  - apply Forall_forall. intros v Hv. apply in_map_iff in Hv.
    destruct Hv as (p & <- & Hp).
    eapply Permutation_in in Hp; [|apply sort_desc_perm].
    apply filter_In in Hp. destruct Hp as [_ Hp]. now apply negb_true_iff in Hp.
  - apply Forall_forall. intros v Hv. apply in_map_iff in Hv.
    destruct Hv as (p & <- & Hp). apply filter_In in Hp. apply Hp.
Qed.

Lemma rank_universe_In tie qs i :
  In i (rank_universe tie qs) ->
  exists q, In q qs /\ name_excluded (q_name q) = false /\ i = with_lots q.
Proof.
  unfold rank_universe, head. intros H. apply in_map_iff in H.
  destruct H as (q & <- & Hq). exists q.
  assert (In q (sort_values_desc tie (filter not_excluded qs))).
  { rewrite <- (firstn_skipn 300 _). apply in_or_app. now left. }
  eapply Permutation_in in H; [|apply sort_values_desc_perm].
  apply filter_In in H. destruct H as [H1 H2]. apply negb_true_iff in H2. auto.
Qed.

Lemma name_excluded_false nm :
  name_excluded nm = false ->
  forall k, In k exclude_name_keywords -> contains k nm = false.
Proof.
  unfold name_excluded. intros H k Hk.
  destruct (contains k nm) eqn:E; auto.
  assert (existsb (fun k => contains k nm) exclude_name_keywords = true)
    by (apply existsb_exists; eauto).
  congruence.
Qed.

Lemma StronglySorted_app_inv {A} (P : A -> A -> Prop) l1 l2 :
  StronglySorted P (l1 ++ l2) ->
  forall a b, In a l1 -> In b l2 -> P a b.
Proof.
  induction l1 as [|x l1 IH]; cbn [app]; intros H a b Ha Hb; [destruct Ha|].
  inversion H as [|? ? Hs Hall]; subst. destruct Ha as [<-|Ha].
  - rewrite Forall_forall in Hall. apply Hall. apply in_or_app. now right.
  - now apply IH.
Qed.

(** C2, amended.  A universe returned by [extract_top300] has at most 300
    members, is sorted descending by [volume_shares] with the NaN volumes
    last, and holds no name containing an exclusion keyword.  It is the
    first 300 rows of an arrangement of all the rows left by the exclusion
    that is itself sorted descending with the NaN volumes last, so that no
    row left out ranks before a member.  The order among equal volumes is
    whatever the sort leaves, for every ranking [tie] of the positions. *)
Theorem C2_universe_bounded_sorted_filtered
        (tie : nat -> nat) (to_csv : list Instrument -> result unit)
        (df : DataFrame) (u : list Instrument) :
  extract_top300 tie to_csv df = Ok (Value u) ->
  length u <= 300
  /\ descending_nan_last u
  /\ Forall no_excluded_keyword u
  /\ exists qs sorted,
       normalised_table df = Ok (Value qs)
       /\ Permutation sorted (filter not_excluded qs)
       /\ StronglySorted vol_order (map q_vol sorted)
       /\ u = map with_lots (firstn 300 sorted)
       /\ (forall i q, In i u -> In q (skipn 300 sorted) ->
                       vol_order (volume_shares i) (q_vol q)).
Proof.
  intros H. destruct (extract_top300_inv _ _ _ _ H) as (qs & Hq & ->).
  split; [|split; [|split]].
  - unfold rank_universe, head. rewrite length_map. apply firstn_le_length.
  - unfold descending_nan_last, rank_universe, head.
    rewrite map_map. cbn [volume_shares with_lots].
    rewrite <- firstn_map. apply StronglySorted_firstn, sort_values_desc_sorted.
  - apply Forall_forall. intros i Hi.
    destruct (rank_universe_In _ _ _ Hi) as (q & _ & Hex & ->).
    intros k Hk. cbn [name with_lots]. now apply name_excluded_false.
  - exists qs, (sort_values_desc tie (filter not_excluded qs)).
    split; [exact Hq|]. split; [apply sort_values_desc_perm|].
    split; [apply sort_values_desc_sorted|]. split; [reflexivity|].
    intros i q Hi Hq'. unfold rank_universe, head in Hi.
    apply in_map_iff in Hi. destruct Hi as (q0 & <- & Hq0).
    cbn [volume_shares with_lots].
    pose proof (sort_values_desc_sorted tie (filter not_excluded qs)) as Hs.
    rewrite <- (firstn_skipn 300 (sort_values_desc tie (filter not_excluded qs))),
      map_app in Hs.
    apply (StronglySorted_app_inv _ _ _ Hs); now apply in_map.
Qed.

Lemma C2_witness :
  length sample_universe <= 300
  /\ descending_nan_last sample_universe
  /\ Forall no_excluded_keyword sample_universe
  /\ exists qs sorted,
       normalised_table sample_table = Ok (Value qs)
       /\ Permutation sorted (filter not_excluded qs)
       /\ StronglySorted vol_order (map q_vol sorted)
       /\ sample_universe = map with_lots (firstn 300 sorted)
       /\ (forall i q, In i sample_universe -> In q (skipn 300 sorted) ->
                       vol_order (volume_shares i) (q_vol q)).
Proof.
  apply (C2_universe_bounded_sorted_filtered (fun i => i) csv_ok sample_table).
  vm_compute. reflexivity.
Defined.

(** NumPy's quicksort on the volume column of [tied_table]: the indexer it
    returns, against the one a stable sort returns, and the universe that
    results. *)
Lemma quicksort_on_tied_table :
  NpySort.nargsort_desc (map q_vol tied_quotes)
  = Some [0; 6; 15; 12; 9; 3; 5; 8; 11; 14; 2; 17; 4; 7; 1; 10; 13; 16]
  /\ map code tied_universe
     = map (fun i => nth i (map q_code tied_quotes) [])
           [0; 6; 15; 12; 9; 3; 5; 8; 11; 14; 2; 17; 4; 7; 1; 10; 13; 16]
  /\ map code (universe_as_specified tied_quotes)
     = map (fun i => nth i (map q_code tied_quotes) [])
           [0; 3; 6; 9; 12; 15; 2; 5; 8; 11; 14; 17; 1; 4; 7; 10; 13; 16].
Proof. vm_compute. repeat split. Qed.

(** C2 as worded fails on [tied_table]: among its rows of equal volume the
    default quicksort does not keep table order. *)
Lemma C2_counterexample : ~ universe_is_stable_top300.
Proof.
  intros H.
  assert (E1 : normalised_table tied_table = Ok (Value tied_quotes))
    by (vm_compute; reflexivity).
  assert (E2 : extract_top300 (NpySort.ranking (map q_vol tied_quotes))
                              csv_ok tied_table
               = Ok (Value tied_universe))
    by (vm_compute; reflexivity).
  pose proof (H _ _ _ _ _ E1 E2) as E.
  assert (E3 : map code tied_universe
               = map code (universe_as_specified tied_quotes))
    by (now rewrite E).
  vm_compute in E3. discriminate E3.
Qed.

Lemma pystr_eqb_eq a b : PyStr.eqb a b = true <-> a = b.
Proof. unfold PyStr.eqb. destruct (list_eq_dec N.eq_dec a b); split; congruence. Qed.

Lemma pystr_eqb_refl a : PyStr.eqb a a = true.
Proof. now apply pystr_eqb_eq. Qed.

Lemma dict_get_set {V} (k k' : pystr) (v : V) (m : dict V) :
  dict_get k (dict_set k' v m) = if PyStr.eqb k k' then Some v else dict_get k m.
Proof.
  induction m as [|[k0 v0] m IH]; cbn [dict_set dict_get].
  - reflexivity.
  - destruct (PyStr.eqb k' k0) eqn:E1; cbn [dict_get].
    + apply pystr_eqb_eq in E1. subst k0. destruct (PyStr.eqb k k'); reflexivity.
    + destruct (PyStr.eqb k k0) eqn:E2.
      * apply pystr_eqb_eq in E2. subst k0.
        destruct (PyStr.eqb k k') eqn:E3; [|reflexivity].
        apply pystr_eqb_eq in E3. subst k'. rewrite pystr_eqb_refl in E1. discriminate.
      * exact IH.
Qed.

Ltac eval_key_tests :=
  repeat match goal with
         | |- context [PyStr.eqb (utf8 ?a) (utf8 ?b)] =>
             let v := eval vm_compute in (PyStr.eqb (utf8 a) (utf8 b)) in
             change (PyStr.eqb (utf8 a) (utf8 b)) with v
         end.

Lemma col_map_step_get key f m c :
  In (key, f) field_names ->
  dict_get key (col_map_step m c) = if contains f c then Some c else dict_get key m.
Proof.
  unfold field_names. intros H.
  repeat (destruct H as [H|H]; [injection H as <- <-|]); [| | | |destruct H];
    unfold col_map_step;
    destruct (contains (utf8 "證券代號") c), (contains (utf8 "證券名稱") c),
             (contains (utf8 "成交股數") c), (contains (utf8 "收盤價") c);
    rewrite ?dict_get_set; eval_key_tests; reflexivity.
Qed.

Lemma build_col_map_get key f cols :
  In (key, f) field_names ->
  forall m,
    dict_get key (fold_left col_map_step cols m)
    = fold_left (fun acc c => if contains f c then Some c else acc) cols (dict_get key m).
Proof.
  intros H. induction cols as [|c cols IH]; intros m; cbn [fold_left]; auto.
  rewrite IH, (col_map_step_get key f m c H). reflexivity.
Qed.

Lemma fold_last_match_none f cols :
  Forall (fun c => contains f c = false) cols ->
  forall acc, fold_left (fun acc c => if contains f c then Some c else acc) cols acc = acc.
Proof.
  induction 1 as [|c cols Hc _ IH]; intros acc; cbn [fold_left]; auto.
  rewrite Hc. apply IH.
Qed.

Lemma fold_last_match_some f cols c :
  forall acc,
    fold_left (fun acc c => if contains f c then Some c else acc) cols acc = Some c ->
    acc = Some c \/ (In c cols /\ contains f c = true).
Proof.
  induction cols as [|a cols IH]; intros acc; cbn [fold_left]; [now left|].
  intros H. destruct (IH _ H) as [E|[E1 E2]].
  - destruct (contains f a) eqn:Ef; [|now left].
    injection E as <-. right. split; [now left|exact Ef].
  - right. split; [now right|exact E2].
Qed.

Lemma col_map_label key f cols c :
  In (key, f) field_names ->
  dict_get key (build_col_map cols) = Some c ->
  In c cols /\ contains f c = true.
Proof.
  intros Hk H. unfold build_col_map in H. rewrite (build_col_map_get key f _ Hk) in H.
  destruct (fold_last_match_some _ _ _ _ H) as [E|E]; [discriminate E|exact E].
Qed.

Lemma positions_In c cols i :
  In i (positions c cols) -> i < length cols /\ nth i cols [] = c.
Proof.
  unfold positions. intros H. apply filter_In in H. destruct H as [H1 H2].
  apply in_seq in H1. apply pystr_eqb_eq in H2. split; [lia|exact H2].
Qed.

Lemma positions_nonempty c cols : In c cols -> positions c cols <> [].
Proof.
  intros H. destruct (In_nth _ _ [] H) as (i & Hi & E).
  assert (Hin : In i (positions c cols)).
  { unfold positions. apply filter_In. split; [apply in_seq; split; [apply Nat.le_0_l|exact Hi]|].
    now apply pystr_eqb_eq. }
  intros E0. rewrite E0 in Hin. destruct Hin.
Qed.

Lemma four_singletons {A} (l1 l2 l3 l4 : list A) i j k l :
  l1 ++ l2 ++ l3 ++ l4 = [i; j; k; l] ->
  l1 <> [] -> l2 <> [] -> l3 <> [] -> l4 <> [] ->
  l1 = [i] /\ l2 = [j] /\ l3 = [k] /\ l4 = [l].
Proof.
  intros H H1 H2 H3 H4.
  assert (Hlen : length l1 + (length l2 + (length l3 + length l4)) = 4)
    by (rewrite <- !length_app, H; reflexivity).
  destruct l1 as [|a1 [|? ?]]; [congruence| |cbn in Hlen;
    destruct l2, l3, l4; cbn in Hlen; try congruence; lia].
  destruct l2 as [|a2 [|? ?]]; [congruence| |cbn in Hlen;
    destruct l3, l4; cbn in Hlen; try congruence; lia].
  destruct l3 as [|a3 [|? ?]]; [congruence| |cbn in Hlen;
    destruct l4; cbn in Hlen; try congruence; lia].
  destruct l4 as [|a4 [|? ?]]; [congruence| |cbn in Hlen; lia].
  cbn in H. injection H as -> -> -> ->. auto.
Qed.

(** The four columns a table is read from, and the rows it yields. *)
Lemma normalised_table_columns df qs :
  normalised_table df = Ok (Value qs) ->
  exists i j k l,
    contains (utf8 "證券代號") (nth i (map strip (columns df)) []) = true
    /\ contains (utf8 "證券名稱") (nth j (map strip (columns df)) []) = true
    /\ contains (utf8 "成交股數") (nth k (map strip (columns df)) []) = true
    /\ contains (utf8 "收盤價") (nth l (map strip (columns df)) []) = true
    /\ apply normalise
         (map (fun r => {| raw_code := nth i r CNone; raw_name := nth j r CNone;
                           raw_vol := nth k r CNone; raw_close := nth l r CNone |})
              (table df)) = Ok qs.
Proof.
  unfold normalised_table. set (cols := map strip (columns df)).
  destruct (dict_get (utf8 "code") _) as [c1|] eqn:E1; [|discriminate].
  destruct (dict_get (utf8 "name") _) as [c2|] eqn:E2; [|discriminate].
  destruct (dict_get (utf8 "vol") _) as [c3|] eqn:E3; [|discriminate].
  destruct (dict_get (utf8 "close") _) as [c4|] eqn:E4; [|discriminate].
  apply (col_map_label _ (utf8 "證券代號")) in E1; [|vm_compute; tauto].
  apply (col_map_label _ (utf8 "證券名稱")) in E2; [|vm_compute; tauto].
  apply (col_map_label _ (utf8 "成交股數")) in E3; [|vm_compute; tauto].
  apply (col_map_label _ (utf8 "收盤價")) in E4; [|vm_compute; tauto].
  destruct E1 as [I1 F1], E2 as [I2 F2], E3 as [I3 F3], E4 as [I4 F4].
  unfold select_columns.
  destruct (_ ++ _) as [|i [|j [|k [|l [|? ?]]]]] eqn:Ep; cbn [bind]; try discriminate.
  destruct (four_singletons _ _ _ _ _ _ _ _ Ep
              (positions_nonempty _ _ I1) (positions_nonempty _ _ I2)
              (positions_nonempty _ _ I3) (positions_nonempty _ _ I4))
    as (P1 & P2 & P3 & P4).
  destruct (apply normalise _) as [qs'|e] eqn:Ea; cbn [bind]; [|discriminate].
  intros H; injection H as <-.
  exists i, j, k, l.
  assert (Hi : nth i cols [] = c1) by (apply (positions_In c1 cols i); rewrite P1; now left).
  assert (Hj : nth j cols [] = c2) by (apply (positions_In c2 cols j); rewrite P2; now left).
  assert (Hk : nth k cols [] = c3) by (apply (positions_In c3 cols k); rewrite P3; now left).
  assert (Hl : nth l cols [] = c4) by (apply (positions_In c4 cols l); rewrite P4; now left).
  rewrite Hi, Hj, Hk, Hl. auto.
Qed.

Lemma normalise_fields r q :
  normalise r = Ok q ->
  q_code q = strip (py_str (raw_code r))
  /\ q_name q = strip (remove_tags (py_str (raw_name r)))
  /\ to_num (raw_vol r) = Ok (q_vol q)
  /\ to_price (raw_close r) = Ok (q_close q).
Proof.
  unfold normalise.
  destruct (to_num (raw_vol r)) as [v|e]; cbn [bind]; [|discriminate].
  destruct (to_price (raw_close r)) as [p|e]; cbn [bind]; [|discriminate].
  intros H; injection H as <-. auto.
Qed.

(** C7, amended.  Volume parsing never raises; a malformed cell, a missing
    cell and the placeholder [--] become [0.0]; a cell that parses keeps its
    value, so [-5] becomes [-5.0] and [nan] becomes NaN; a parsed volume is
    negative only when the cell carries a minus sign; and every member of
    the universe holds, unclamped, the parsed value of the volume cell of
    the table row it was built from. *)
Theorem C7_volume_parsing :
  (forall x : cell,
      exists v, to_num x = Ok v
        /\ (PyFloat.parse (numeric_text x) = None -> v = zero)
        /\ (forall p, PyFloat.parse (numeric_text x) = Some p -> v = p)
        /\ (ltb v zero = true -> In 45%N (py_str x)))
  /\ to_num (text "--") = Ok zero
  /\ to_num (text "n/a") = Ok zero
  /\ to_num CNone = Ok zero
  /\ to_num (text "-5") = Ok (of_Z (-5))
  /\ to_num (text "nan") = Ok nan
  /\ (forall (tie : nat -> nat) (to_csv : list Instrument -> result unit)
             (df : DataFrame) (u : list Instrument),
         extract_top300 tie to_csv df = Ok (Value u) ->
         exists i j k l,
           contains (utf8 "成交股數") (nth k (map strip (columns df)) []) = true
           /\ Forall (fun m => exists row,
                         In row (table df) /\ built_from i j k l row m) u).
Proof.
  split.
  { intros x. destruct (to_num_total x) as (v & Hv & H0 & Hneg).
    exists v. repeat split; auto.
    intros p Hp. unfold to_num, PyFloat.py_float in Hv. rewrite Hp in Hv.
    cbn [try_except] in Hv. now injection Hv as <-. }
  do 5 (split; [vm_compute; reflexivity|]).
  intros tie to_csv df u H.
  destruct (extract_top300_inv _ _ _ _ H) as (qs & Hq & ->).
  destruct (normalised_table_columns _ _ Hq) as (i & j & k & l & _ & _ & Hk & _ & Ha).
  exists i, j, k, l. split; [exact Hk|].
  apply Forall_forall. intros m Hm.
  destruct (rank_universe_In _ _ _ Hm) as (q & Hin & _ & ->).
  destruct (apply_In _ _ _ _ Ha Hin) as (r & Hr & Hn).
  apply in_map_iff in Hr. destruct Hr as (row & <- & Hrow).
  exists row. split; [exact Hrow|].
  apply normalise_fields in Hn. exact Hn.
Qed.

(** C7 as worded fails on the volume cell [-5], which reaches the universe
    as [-5.0]. *)
Lemma C7_counterexample : ~ volume_never_negative.
Proof.
  intros H.
  pose proof (H (fun i => i) csv_ok negative_table _ eq_refl) as E.
  inversion E as [|i l Hi Hl]. vm_compute in Hi. discriminate Hi.
Qed.

(** C8, amended.  Every member of a universe returned by [extract_top300]
    has [volume_lots] derived from its own [volume_shares] as NumPy's
    [round(3)] derives it: the quotient [volume_shares / 1000.0] is multiplied
    by [1000.0], the product is replaced by the integer nearest to it, the
    even one of two equally near, and that integer is divided by [1000.0]. *)
Theorem C8_volume_lots_derived
        (tie : nat -> nat) (to_csv : list Instrument -> result unit)
        (df : DataFrame) (u : list Instrument) :
  extract_top300 tie to_csv df = Ok (Value u) ->
  Forall (fun i =>
            let scaled := mul (div (volume_shares i) (of_Z 1000)) (of_Z 1000) in
            exists r, nearest_integer scaled r
                      /\ volume_lots i = div r (of_Z 1000)) u.
Proof.
  intros H. destruct (extract_top300_inv _ _ _ _ H) as (qs & Hq & ->).
  apply Forall_forall. intros i Hi.
  destruct (rank_universe_In _ _ _ Hi) as (q & _ & _ & ->).
  cbn [volume_shares volume_lots with_lots]. cbv zeta.
  exists (rint (mul (div (q_vol q) (of_Z 1000)) (of_Z 1000))).
  split; [apply rint_nearest|reflexivity].
Qed.

Lemma C8_witness :
  Forall (fun i =>
            let scaled := mul (div (volume_shares i) (of_Z 1000)) (of_Z 1000) in
            exists r, nearest_integer scaled r
                      /\ volume_lots i = div r (of_Z 1000)) sample_universe.
Proof.
  apply (C8_volume_lots_derived (fun i => i) csv_ok sample_table).
  vm_compute. reflexivity.
Defined.

(** C8 as worded fails on a volume of half a share: [0.5 / 1000.0] lies
    just above 0.0005 and rounds to [0.001] at 3 decimal places, but its
    product with [1000.0] is [0.5], which [round(3)] takes to the even
    integer 0, so that [volume_lots] is [0.0]. *)
Lemma C8_counterexample : ~ lots_rounded_exactly.
Proof.
  intros H.
  pose proof (H (fun i => i) csv_ok half_share_table _ eq_refl) as E.
  inversion E as [|i l Hi Hl]. vm_compute in Hi. discriminate Hi.
Qed.

Lemma half_share_lots :
  map volume_lots (universe_of (extract_top300 (fun i => i) csv_ok half_share_table))
  = [zero]
  /\ round_decimals 3 (div (dec "0.5") (of_Z 1000)) = dec "0.001".
Proof. vm_compute. split; reflexivity. Qed.

(* ===================================================================== *)
(** ** Fetching the table and the driver *)
(* ===================================================================== *)

(** C6, at the failing input.  For the payload [[]], a JSON array,
    [fetch_twse_table] does not return a failure pair: [js.items()] raises
    [AttributeError] outside every [try]. *)
Theorem C6_non_mapping_payload_raises (pd : json -> json -> result DataFrame) :
  fetch_twse_table (Ok (JList [])) pd
  = Raise (utf8 "AttributeError: 'list' object has no attribute 'items'").
Proof. vm_compute. reflexivity. Qed.

Lemma fetch_non_mapping_raises pd js :
  (forall d, js <> JDict d) ->
  exists e, fetch_twse_table (Ok js) pd = Raise e.
Proof.
  intros H. unfold fetch_twse_table, table_of, items.
  destruct js; try (eexists; reflexivity). now elim (H d).
Qed.

Lemma fetch_mapping_without_table pd d :
  table_of pd (JDict d) = None -> first_table pd d = None ->
  fetch_twse_table (Ok (JDict d)) pd
  = Ok (Failed (utf8 "No suitable table structure found in TWSE JSON.")).
Proof.
  intros H1 H2. unfold fetch_twse_table. rewrite H1. cbn [items bind].
  now rewrite H2.
Qed.

Lemma fetch_top_level_first pd js df :
  table_of pd js = Some df -> fetch_twse_table (Ok js) pd = Ok (Value df).
Proof. intros H. unfold fetch_twse_table. now rewrite H. Qed.

Lemma extract_top300_sink tie to_csv df u :
  extract_top300 tie csv_ok df = Ok (Value u) ->
  extract_top300 tie to_csv df = (_ <- to_csv u ;; Ok (Value u)).
Proof.
  intros H. destruct (extract_top300_inv _ _ _ _ H) as (qs & Hq & ->).
  unfold extract_top300. rewrite Hq. reflexivity.
Qed.

(** C9, amended.  When the table was fetched and ranked, an exception raised
    while writing [top_volume_stocks.csv] leaves [main] after the start
    message alone was sent, before any symbol is evaluated; and an exception
    raised while writing [strong_stocks.csv] leaves [main] after the start
    message, the count message, the list of strong stocks and at most five
    chart photos were sent.  Neither write is guarded. *)
Theorem C9_csv_write_failure_aborts (w : World) (df_raw : DataFrame)
        (u : list Instrument) :
  fetch_twse_table (http_get_json w) (pd_DataFrame w) = Ok (Value df_raw) ->
  extract_top300 (quicksort_tie w) csv_ok df_raw = Ok (Value u) ->
  (forall e, top_volume_to_csv w u = Raise e ->
             main w = ([start_message w], Raise e))
  /\ (forall e strong charts,
         top_volume_to_csv w u = Ok tt ->
         scan w u = (strong, charts) ->
         strong <> [] ->
         strong_to_csv w strong = Raise e ->
         main w = ([start_message w; count_message (length u); list_message strong]
                     ++ map SendPhoto (firstn 5 charts),
                   Raise e)).
Proof.
  intros Hf Hx. split.
  - intros e He. unfold main. rewrite Hf.
    rewrite (extract_top300_sink _ (top_volume_to_csv w) _ _ Hx), He. reflexivity.
  - intros e strong charts Hok Hscan Hne He. unfold main. rewrite Hf.
    rewrite (extract_top300_sink _ (top_volume_to_csv w) _ _ Hx), Hok. cbn [bind].
    rewrite Hscan. destruct strong as [|s strong]; [congruence|].
    rewrite He. reflexivity.
Qed.

Lemma C9_witness :
  main read_only_world = ([start_message read_only_world], Raise PermissionError)
  /\ exists strong charts,
       strong <> []
       /\ main second_write_fails_world
          = ([start_message second_write_fails_world;
              count_message (length sample_universe); list_message strong]
               ++ map SendPhoto (firstn 5 charts),
             Raise PermissionError).
Proof.
  split.
  - apply (proj1 (C9_csv_write_failure_aborts read_only_world sample_table
                    sample_universe
                    ltac:(vm_compute; reflexivity) ltac:(vm_compute; reflexivity))).
    reflexivity.
  - exists (fst (scan second_write_fails_world sample_universe)),
           (snd (scan second_write_fails_world sample_universe)).
    split; [vm_compute; discriminate|].
    apply (proj2 (C9_csv_write_failure_aborts second_write_fails_world sample_table
                    sample_universe
                    ltac:(vm_compute; reflexivity) ltac:(vm_compute; reflexivity))).
    + reflexivity.
    + apply surjective_pairing.
    + vm_compute. discriminate.
    + reflexivity.
Defined.

(** C9 as worded fails on a read-only output directory: the run that
    completes when the files can be written is aborted by the first
    write. *)
Lemma C9_counterexample : ~ write_failures_never_abort.
Proof.
  intros H. specialize (H read_only_world).
  assert (E : snd (main read_only_world) = Raise PermissionError) by (vm_compute; reflexivity).
  rewrite E in H. discriminate H. vm_compute. reflexivity.
Qed.

(* ===================================================================== *)
(** ** Further properties of the strength evaluator *)
(* ===================================================================== *)

Lemma is_strong_stock_passed_inv
        (yf : pystr -> download) (symbol_plain name : pystr) :
  fst (fst (is_strong_stock yf symbol_plain name)) = true ->
  exists df c data,
    yf (symbol_plain ++ utf8 ".TW") = Returned df
    /\ sufficient df
    /\ is_strong_stock yf symbol_plain name = (true, Breakdown c, Some data)
    /\ five_true c.
Proof.
  unfold is_strong_stock.
  destruct (yf (symbol_plain ++ utf8 ".TW")) as [e| |df] eqn:Hyf;
    try (cbn; discriminate).
  unfold evaluate, empty.
  destruct (bars df) as [|b rs] eqn:Hb; [cbn; discriminate|].
  destruct (has_Close df) eqn:Hc; [|cbn; discriminate].
  destruct (has_Volume df) eqn:Hv; [|cbn; discriminate].
  cbn [negb orb].
  destruct (Nat.ltb_spec (length (dropna_Close (b :: rs))) 10) as [Hl|Hl];
    [cbn; discriminate|].
  cbn [fst]. intros Hp.
  exists df, (conditions (add_indicators (dropna_Close (b :: rs)))),
    (add_indicators (dropna_Close (b :: rs))).
  split; [reflexivity|]. split.
  - unfold sufficient. rewrite Hb. auto.
  - split; [now rewrite Hp|]. now apply all_conditions_iff.
Qed.

(** X1.  A passing verdict is only ever given on a sufficient frame: the
    provider returned a frame with both columns and at least 10 rows with a
    close, the reason is the breakdown, and all five conditions hold. *)
Theorem passed_only_when_sufficient
        (yf : pystr -> download) (symbol_plain name : pystr) :
  fst (fst (is_strong_stock yf symbol_plain name)) = true ->
  exists df c data,
    yf (symbol_plain ++ utf8 ".TW") = Returned df
    /\ sufficient df
    /\ is_strong_stock yf symbol_plain name = (true, Breakdown c, Some data)
    /\ five_true c.
Proof. apply is_strong_stock_passed_inv. Qed.

Lemma passed_only_when_sufficient_witness :
  exists df c data,
    sample_provider (utf8 "2330" ++ utf8 ".TW") = Returned df
    /\ sufficient df
    /\ is_strong_stock sample_provider (utf8 "2330") (utf8 "TSMC")
       = (true, Breakdown c, Some data)
    /\ five_true c.
Proof.
  apply (passed_only_when_sufficient sample_provider (utf8 "2330") (utf8 "TSMC")).
  vm_compute. reflexivity.
Defined.

Lemma skipn_last3 {A} (d : A) (xs : list A) :
  3 <= length xs ->
  skipn (length xs - 3) xs
  = [nth (length xs - 3) xs d; nth (length xs - 2) xs d; nth (length xs - 1) xs d].
Proof.
  intros H.
  assert (G : forall k (l : list A), length l = k + 3 ->
            skipn k l = [nth k l d; nth (k + 1) l d; nth (k + 2) l d]).
  { induction k; intros l Hl.
    - do 3 (destruct l as [|? l]; [simpl in Hl; lia|]).
      destruct l; [reflexivity|simpl in Hl; lia].
    - destruct l as [|x l]; [simpl in Hl; lia|]. simpl in Hl.
      cbn [skipn]. rewrite IHk by lia. reflexivity. }
  rewrite (G (length xs - 3)) by lia.
  replace (length xs - 3 + 1) with (length xs - 2) by lia.
  replace (length xs - 3 + 2) with (length xs - 1) by lia. reflexivity.
Qed.

(** X2.  For a sufficient frame [cond_vols_up] compares the volumes of the
    last three bars, and a NaN among them makes the verdict fail. *)
Theorem vols_up_last_three
        (yf : pystr -> download) (symbol_plain name : pystr) (df : PriceFrame) :
  yf (symbol_plain ++ utf8 ".TW") = Returned df ->
  sufficient df ->
  let v := volumes (dropna_Close (bars df)) in
  let n := length v in
  let v3 := nth (n - 3) v nan in
  let v2 := nth (n - 2) v nan in
  let v1 := nth (n - 1) v nan in
  exists passed c data,
    is_strong_stock yf symbol_plain name = (passed, Breakdown c, Some data)
    /\ cond_vols_up c = ltb v3 v2 && ltb v2 v1
    /\ (isnan v3 || isnan v2 || isnan v1 = true -> passed = false).
Proof.
  intros Hyf Hs v n v3 v2 v1. unfold is_strong_stock.
  rewrite Hyf, (evaluate_sufficient df Hs).
  eexists _, _, _. split; [reflexivity|].
  assert (Hn : 10 <= n).
  { unfold n, v, volumes. rewrite length_map. apply Hs. }
  assert (E : cond_vols_up (conditions (add_indicators (dropna_Close (bars df))))
              = ltb v3 v2 && ltb v2 v1).
  { cbn [conditions cond_vols_up rows add_indicators]. fold v. unfold tail.
    fold n. unfold n. rewrite (skipn_last3 nan) by (fold n; clear - Hn; lia).
    reflexivity. }
  split; [exact E|].
  intros Hnan. apply all_conditions_false. left. rewrite E.
  destruct v3, v2, v1; try discriminate Hnan; try reflexivity;
    cbn; rewrite ?andb_false_r; reflexivity.
Qed.

Lemma vols_up_last_three_witness :
  let v := volumes (dropna_Close (bars sample_frame)) in
  let n := length v in
  let v3 := nth (n - 3) v nan in
  let v2 := nth (n - 2) v nan in
  let v1 := nth (n - 1) v nan in
  exists passed c data,
    is_strong_stock sample_provider (utf8 "2330") (utf8 "TSMC")
    = (passed, Breakdown c, Some data)
    /\ cond_vols_up c = ltb v3 v2 && ltb v2 v1
    /\ (isnan v3 || isnan v2 || isnan v1 = true -> passed = false).
Proof.
  apply (vols_up_last_three sample_provider (utf8 "2330") (utf8 "TSMC") sample_frame).
  - reflexivity.
  - repeat split; simpl; lia.
Defined.

(** X3.  For a sufficient frame [cond_close_above_ma5] compares today's close
    with the 5-bar rolling mean of the closes at today's row, today's close
    included, and is false when that mean is NaN, as it is when one of the
    last five closes is infinite.  On whole-number closes the mean is the
    correctly rounded fifth of the exact sum of the five. *)
Theorem close_above_ma5_today
        (yf : pystr -> download) (symbol_plain name : pystr) (df : PriceFrame) :
  yf (symbol_plain ++ utf8 ".TW") = Returned df ->
  sufficient df ->
  let cl := closes (dropna_Close (bars df)) in
  let n := length cl in
  let close_today := nth (n - 1) cl nan in
  let ma5_today := nth (n - 1) (rolling_mean 5 cl) nan in
  exists passed c data,
    is_strong_stock yf symbol_plain name = (passed, Breakdown c, Some data)
    /\ cond_close_above_ma5 c
       = negb (isnan ma5_today) && gtb close_today ma5_today
    /\ (forall j, n - 5 <= j <= n - 1 -> isinf (nth j cl nan) = true ->
        ma5_today = nan /\ cond_close_above_ma5 c = false)
    /\ (forall zs, cl = map of_Z zs -> Forall whole zs ->
        ma5_today
        = div (of_Z (nth (n - 5) zs 0 + nth (n - 4) zs 0 + nth (n - 3) zs 0
                     + nth (n - 2) zs 0 + nth (n - 1) zs 0)%Z)
              (of_Z 5)).
Proof.
  intros Hyf Hs cl n close_today ma5. unfold is_strong_stock.
  rewrite Hyf, (evaluate_sufficient df Hs).
  eexists _, _, _. split; [reflexivity|].
  assert (Hn : 10 <= n).
  { unfold n, cl, closes. rewrite length_map. apply Hs. }
  assert (Hl : length cl = n) by reflexivity.
  assert (E : iloc_neg 1 (MA5 (add_indicators (dropna_Close (bars df)))) = ma5).
  { unfold iloc_neg. cbn [MA5 add_indicators]. fold cl.
    rewrite length_rolling_mean. fold n. reflexivity. }
  cbn [conditions cond_close_above_ma5 rows add_indicators]. fold cl.
  rewrite E. unfold iloc_neg. fold n. fold close_today.
  split; [reflexivity|]. split.
  - intros j Hj Hinf.
    assert (Hnan : ma5 = nan).
    { apply (rolling_mean_missing 5 cl (n - 1) j).
      + lia.
      + clear - Hn Hl; lia.
      + unfold window_start. clear - Hn Hj; lia.
      + unfold observed. rewrite Hinf. now rewrite orb_true_r. }
    split; [exact Hnan|]. now rewrite Hnan.
  - intros zs Hv Hw.
    assert (Hlz : length zs = n).
    { unfold n. rewrite Hv. now rewrite length_map. }
    unfold ma5. clearbody cl. subst cl.
    rewrite (rolling_mean_exact zs Hw 5); [|lia|clear - Hn Hlz; lia ..].
    replace (n - 1 + 1 - 5) with (n - 5) by (clear - Hn; lia).
    unfold window_sum. cbn [seq map fold_right].
    replace (S (n - 5)) with (n - 4) by (clear - Hn; lia).
    replace (S (n - 4)) with (n - 3) by (clear - Hn; lia).
    replace (S (n - 3)) with (n - 2) by (clear - Hn; lia).
    replace (S (n - 2)) with (n - 1) by (clear - Hn; lia).
    f_equal. f_equal. lia.
Qed.

Lemma close_above_ma5_today_witness :
  exists passed c data,
    is_strong_stock sample_provider (utf8 "2330") (utf8 "TSMC")
    = (passed, Breakdown c, Some data)
    /\ cond_close_above_ma5 c = true
    /\ nth 9 (rolling_mean 5 (closes sample_bars)) nan
       = div (of_Z (100 + 100 + 100 + 100 + 104)) (of_Z 5).
Proof.
  destruct (close_above_ma5_today sample_provider (utf8 "2330") (utf8 "TSMC")
              sample_frame eq_refl
              (conj eq_refl (conj eq_refl (le_n 10))))
    as (passed & c & data & E & Hflag & _ & Hint).
  exists passed, c, data. split; [exact E|]. split.
  - rewrite Hflag. vm_compute. reflexivity.
  - apply (Hint [100; 100; 100; 100; 100; 100; 100; 100; 100; 104]%Z); [reflexivity|].
    repeat constructor; unfold whole; lia.
Defined.

Lemma fmax_ge a b :
  isnan a = false -> isnan b = false ->
  leb a (fmax a b) = true /\ leb b (fmax a b) = true /\ isnan (fmax a b) = false.
Proof.
  intros Ha Hb. unfold fmax. destruct (ltb a b) eqn:E.
  - repeat split; auto using ltb_leb, leb_refl.
  - repeat split; auto using leb_total, leb_refl.
Qed.

Lemma fold_fmax_ge r :
  Forall (fun x => isnan x = false) r ->
  forall x, isnan x = false ->
    leb x (fold_left fmax r x) = true
    /\ Forall (fun y => leb y (fold_left fmax r x) = true) r.
Proof.
  induction 1 as [|y r Hy Hr IH]; intros x Hx; cbn [fold_left].
  - split; [now apply leb_refl|constructor].
  - destruct (fmax_ge x y Hx Hy) as (H1 & H2 & H3).
    destruct (IH (fmax x y) H3) as [G1 G2].
    split; [eapply leb_trans; eassumption|].
    constructor; [eapply leb_trans; eassumption|exact G2].
Qed.

Lemma series_max_ge xs x :
  In x xs -> isnan x = false -> leb x (series_max xs) = true.
Proof.
  intros Hin Hx. unfold series_max.
  assert (Hf : In x (filter (fun x => negb (isnan x)) xs))
    by (apply filter_In; split; [exact Hin|now rewrite Hx]).
  assert (Hall : Forall (fun y => isnan y = false) (filter (fun x => negb (isnan x)) xs)).
  { apply Forall_forall. intros y Hy. apply filter_In in Hy.
    destruct Hy as [_ Hy]. now apply negb_true_iff in Hy. }
  destruct (filter (fun x => negb (isnan x)) xs) as [|a r]; [destruct Hf|].
  inversion Hall as [|? ? Ha Hr]; subst.
  destruct (fold_fmax_ge r Hr a Ha) as [G1 G2].
  destruct Hf as [<-|Hf]; [exact G1|].
  rewrite Forall_forall in G2. now apply G2.
Qed.

Lemma dropna_closes_not_nan rs x :
  In x (closes (dropna_Close rs)) -> isnan x = false.
Proof.
  unfold closes. intros H. apply in_map_iff in H. destruct H as (b & <- & Hb).
  apply filter_In in Hb. destruct Hb as [_ Hb]. now apply negb_true_iff in Hb.
Qed.

(** X4.  Today's bar is part of the trailing 10-bar window: for a sufficient
    frame today's close never exceeds [ten_high], so the comparison
    [close_today >= ten_high] can only hold with equality. *)
Theorem close_today_below_ten_high (df : PriceFrame) :
  sufficient df ->
  let cl := closes (dropna_Close (bars df)) in
  let close_today := nth (length cl - 1) cl nan in
  let ten_high := series_max (tail 10 cl) in
  leb close_today ten_high = true
  /\ (geb close_today ten_high = true -> SFeqb close_today ten_high = true).
Proof.
  intros Hs cl close_today ten_high.
  assert (Hn : 10 <= length cl).
  { unfold cl, closes. rewrite length_map. apply Hs. }
  assert (Hin : In close_today (tail 10 cl)).
  { unfold tail, close_today.
    replace (length cl - 1) with ((length cl - 10) + 9) by lia.
    rewrite <- nth_skipn. apply nth_In. rewrite length_skipn. lia. }
  assert (Hnn : isnan close_today = false).
  { apply (dropna_closes_not_nan (bars df)). eapply tail_incl. exact Hin. }
  assert (Hle : leb close_today ten_high = true) by now apply series_max_ge.
  split; [exact Hle|].
  unfold geb. revert Hle. generalize close_today ten_high. clear.
  intros a b. unfold SFeqb. float_cases a; float_cases b; compare_cases.
Qed.

Lemma close_today_below_ten_high_witness :
  let cl := closes (dropna_Close (bars sample_frame)) in
  let close_today := nth (length cl - 1) cl nan in
  let ten_high := series_max (tail 10 cl) in
  leb close_today ten_high = true
  /\ (geb close_today ten_high = true -> SFeqb close_today ten_high = true).
Proof.
  apply (close_today_below_ten_high sample_frame).
  repeat split; simpl; lia.
Defined.

(** X5.  A previous close of zero does not raise: the percentage change is
    infinite, and with a positive close today [cond_pct] holds. *)
Theorem pct_with_zero_previous_close
        (yf : pystr -> download) (symbol_plain name : pystr) (df : PriceFrame)
        (m : positive) (e : Z) :
  yf (symbol_plain ++ utf8 ".TW") = Returned df ->
  sufficient df ->
  let cl := closes (dropna_Close (bars df)) in
  nth (length cl - 2) cl nan = zero ->
  nth (length cl - 1) cl nan = S754_finite false m e ->
  exists passed c data,
    is_strong_stock yf symbol_plain name = (passed, Breakdown c, Some data)
    /\ pct c = inf /\ cond_pct c = true.
Proof.
  intros Hyf Hs cl Hprev Htoday. unfold is_strong_stock.
  rewrite Hyf, (evaluate_sufficient df Hs).
  eexists _, _, _. split; [reflexivity|].
  cbn [conditions pct cond_pct rows add_indicators]. fold cl.
  unfold iloc_neg. rewrite Hprev, Htoday. split; vm_compute; reflexivity.
Qed.

Lemma pct_with_zero_previous_close_witness :
  exists passed c data,
    is_strong_stock zero_close_provider (utf8 "2330") (utf8 "TSMC")
    = (passed, Breakdown c, Some data)
    /\ pct c = inf /\ cond_pct c = true.
Proof.
  apply (pct_with_zero_previous_close zero_close_provider (utf8 "2330")
           (utf8 "TSMC") zero_close_frame 7318349394477056 (-46)).
  - reflexivity.
  - repeat split; simpl; lia.
  - reflexivity.
  - reflexivity.
Defined.

Lemma is_strong_stock_data_inv
        (yf : pystr -> download) (symbol_plain name : pystr)
        (passed : bool) (reason : Reason) (data : Indicators) :
  is_strong_stock yf symbol_plain name = (passed, reason, Some data) ->
  exists df, yf (symbol_plain ++ utf8 ".TW") = Returned df
             /\ has_Close df = true /\ has_Volume df = true
             /\ data = add_indicators (dropna_Close (bars df))
             /\ (passed = true -> 10 <= length (rows data)).
Proof.
  unfold is_strong_stock.
  destruct (yf (symbol_plain ++ utf8 ".TW")) as [e| |df] eqn:Hyf;
    try (cbn; discriminate).
  unfold evaluate, empty.
  destruct (bars df) as [|b rs] eqn:Hb; [cbn; discriminate|].
  destruct (has_Close df) eqn:Hc; [|cbn; discriminate].
  destruct (has_Volume df) eqn:Hv; [|cbn; discriminate].
  cbn [negb orb].
  destruct (Nat.ltb_spec (length (dropna_Close (b :: rs))) 10) as [Hl|Hl];
    intros H; injection H as <- <- <-; exists df; rewrite Hb;
    repeat split; auto.
  intros Hf. discriminate Hf.
Qed.

(** X6.  The frame handed back with a verdict holds only bars with a close,
    and each of the six indicator columns has one entry per bar. *)
Theorem returned_data_is_aligned
        (yf : pystr -> download) (symbol_plain name : pystr)
        (passed : bool) (reason : Reason) (data : Indicators) :
  is_strong_stock yf symbol_plain name = (passed, reason, Some data) ->
  Forall (fun b => isnan (Close b) = false) (rows data)
  /\ Forall (fun col => length col = length (rows data))
            [MA3 data; MA5 data; MA8 data; MA20 data; MA60 data; MA5_vol data].
Proof.
  intros H. destruct (is_strong_stock_data_inv _ _ _ _ _ _ H) as (df & _ & _ & _ & -> & _).
  split.
  - cbn [rows add_indicators]. apply Forall_forall. intros b Hb.
    apply filter_In in Hb. destruct Hb as [_ Hb]. now apply negb_true_iff in Hb.
  - cbn [rows add_indicators MA3 MA5 MA8 MA20 MA60 MA5_vol].
    repeat constructor; rewrite length_rolling_mean; unfold closes, volumes;
      apply length_map.
Qed.

Lemma returned_data_is_aligned_witness :
  Forall (fun b => isnan (Close b) = false) (rows (add_indicators sample_bars))
  /\ Forall (fun col => length col = length (rows (add_indicators sample_bars)))
            [MA3 (add_indicators sample_bars); MA5 (add_indicators sample_bars);
             MA8 (add_indicators sample_bars); MA20 (add_indicators sample_bars);
             MA60 (add_indicators sample_bars); MA5_vol (add_indicators sample_bars)].
Proof.
  apply (returned_data_is_aligned sample_provider (utf8 "2330") (utf8 "TSMC")
           true (Breakdown (conditions (add_indicators sample_bars)))).
  vm_compute. reflexivity.
Defined.

(* ===================================================================== *)
(** ** Further properties of the universe builder *)
(* ===================================================================== *)

(** X8.  When several columns carry the same provider field name, the last
    one in table order is the one [col_map] keeps. *)
Theorem col_map_keeps_last_match (key f : pystr) (before_c after_c : list pystr)
        (c : pystr) :
  In (key, f) field_names ->
  contains f c = true ->
  Forall (fun c' => contains f c' = false) after_c ->
  dict_get key (build_col_map (before_c ++ c :: after_c)) = Some c.
Proof.
  intros Hk Hc Hafter. unfold build_col_map.
  rewrite (build_col_map_get key f _ Hk), fold_left_app. cbn [fold_left].
  rewrite Hc. now apply fold_last_match_none.
Qed.

Lemma col_map_keeps_last_match_witness :
  dict_get (utf8 "close")
    (build_col_map ([utf8 "證券代號"; utf8 "收盤價"] ++ utf8 "收盤價(元)" :: [utf8 "漲跌"]))
  = Some (utf8 "收盤價(元)").
Proof.
  apply (col_map_keeps_last_match (utf8 "close") (utf8 "收盤價")).
  - vm_compute. tauto.
  - vm_compute. reflexivity.
  - repeat constructor.
Defined.

(** X9.  A table in which no column label contains one of the four provider
    field names is refused with the message [Missing columns; found ...]:
    nothing is raised and nothing is written. *)
Theorem missing_column_is_reported
        (tie : nat -> nat) (to_csv : list Instrument -> result unit)
        (df : DataFrame) (key f : pystr) :
  In (key, f) field_names ->
  Forall (fun c => contains f (strip c) = false) (columns df) ->
  exists found,
    extract_top300 tie to_csv df
    = Ok (Failed (utf8 "Missing columns; found " ++ found)).
Proof.
  intros Hk Hno.
  assert (Hget : dict_get key (build_col_map (map strip (columns df))) = None).
  { unfold build_col_map. rewrite (build_col_map_get key f _ Hk).
    apply fold_last_match_none. apply Forall_map. exact Hno. }
  unfold extract_top300, normalised_table.
  unfold field_names in Hk.
  repeat (destruct Hk as [Hk|Hk]; [injection Hk as <- <-|]); [| | | |destruct Hk];
    rewrite Hget;
    repeat match goal with
           | |- context [match dict_get ?k ?m with _ => _ end] =>
               destruct (dict_get k m)
           end;
    cbn [bind]; eexists; reflexivity.
Qed.

Lemma missing_column_is_reported_witness :
  exists found,
    extract_top300 (fun i => i) csv_ok
      {| columns := [utf8 "證券代號"; utf8 "證券名稱"]; table := [] |}
    = Ok (Failed (utf8 "Missing columns; found " ++ found)).
Proof.
  apply (missing_column_is_reported (fun i => i) csv_ok _ (utf8 "close") (utf8 "收盤價")).
  - vm_compute. tauto.
  - repeat constructor.
Defined.

(** X10.  When at most 300 rows survive the exclusion none is cut off: the
    universe is a rearrangement of all of them. *)
Theorem universe_keeps_all_when_small
        (tie : nat -> nat) (to_csv : list Instrument -> result unit)
        (df : DataFrame) (qs : list Quote) (u : list Instrument) :
  normalised_table df = Ok (Value qs) ->
  extract_top300 tie to_csv df = Ok (Value u) ->
  length (filter not_excluded qs) <= 300 ->
  Permutation u (map with_lots (filter not_excluded qs)).
Proof.
  intros Hq H Hlen.
  destruct (extract_top300_inv _ _ _ _ H) as (qs' & Hq' & ->).
  rewrite Hq in Hq'. injection Hq' as <-.
  unfold rank_universe, head. apply Permutation_map.
  rewrite firstn_all2.
  - apply sort_values_desc_perm.
  - rewrite (Permutation_length (sort_values_desc_perm tie _)). exact Hlen.
Qed.

Lemma universe_keeps_all_when_small_witness :
  Permutation sample_universe (map with_lots (filter not_excluded sample_quotes)).
Proof.
  apply (universe_keeps_all_when_small (fun i => i) csv_ok sample_table).
  - vm_compute. reflexivity.
  - vm_compute. reflexivity.
  - vm_compute. lia.
Defined.

(* ---- strip ---- *)

Lemma lstrip_head c r s : lstrip s = c :: r -> isspace c = false.
Proof.
  induction s as [|a s IH]; cbn [lstrip]; [discriminate|].
  destruct (isspace a) eqn:E; auto. intros H. injection H as <- <-. exact E.
Qed.

Lemma lstrip_fixed s : (forall c r, s = c :: r -> isspace c = false) -> lstrip s = s.
Proof.
  destruct s as [|a s]; auto. intros H. cbn [lstrip]. now rewrite (H a s eq_refl).
Qed.

Lemma lstrip_idem s : lstrip (lstrip s) = lstrip s.
Proof. apply lstrip_fixed. intros c r H. eapply lstrip_head; eauto. Qed.

Lemma lstrip_split s : exists sp, s = sp ++ lstrip s.
Proof.
  induction s as [|a s [sp IH]]; [now exists []|].
  cbn [lstrip]. destruct (isspace a).
  - exists (a :: sp). cbn. now f_equal.
  - now exists [].
Qed.

Lemma strip_idem s : strip (strip s) = strip s.
Proof.
  unfold strip, rstrip.
  set (t := lstrip s). set (x := lstrip (rev t)).
  assert (Hl : lstrip (rev x) = rev x).
  { apply lstrip_fixed. intros c r Hc.
    destruct (lstrip_split (rev t)) as [sp Hsp]. fold x in Hsp.
    assert (Ht : t = rev x ++ rev sp).
    { rewrite <- (rev_involutive t), Hsp, rev_app_distr. reflexivity. }
    rewrite Hc in Ht. cbn in Ht. apply (lstrip_head c (r ++ rev sp) s). exact Ht. }
  rewrite Hl, rev_involutive. unfold x. now rewrite lstrip_idem.
Qed.

Lemma normalise_texts r q :
  normalise r = Ok q ->
  q_code q = strip (py_str (raw_code r))
  /\ q_name q = strip (remove_tags (py_str (raw_name r))).
Proof.
  unfold normalise.
  destruct (to_num (raw_vol r)) as [v|e]; cbn [bind]; [|discriminate].
  destruct (to_price (raw_close r)) as [p|e]; cbn [bind]; [|discriminate].
  intros H; injection H as <-. split; reflexivity.
Qed.

(** X11.  Codes and names leave the universe builder trimmed, so the second
    [strip()] that [main] applies to them changes nothing. *)
Theorem universe_texts_are_trimmed
        (tie : nat -> nat) (to_csv : list Instrument -> result unit)
        (df : DataFrame) (u : list Instrument) :
  extract_top300 tie to_csv df = Ok (Value u) ->
  Forall (fun i => strip (code i) = code i /\ strip (name i) = name i) u.
Proof.
  intros H. destruct (extract_top300_inv _ _ _ _ H) as (qs & Hq & ->).
  apply Forall_forall. intros i Hi.
  destruct (rank_universe_In _ _ _ Hi) as (q & Hin & _ & ->).
  destruct (normalised_table_inv _ _ Hq q Hin) as (row & a & b & c & d & _ & Hn).
  apply normalise_texts in Hn. destruct Hn as [Hc Hnm].
  cbn [code name with_lots]. rewrite Hc, Hnm. split; apply strip_idem.
Qed.

Lemma universe_texts_are_trimmed_witness :
  Forall (fun i => strip (code i) = code i /\ strip (name i) = name i)
         sample_universe.
Proof.
  apply (universe_texts_are_trimmed (fun i => i) csv_ok sample_table).
  vm_compute. reflexivity.
Defined.

(* ---- remove_tags ---- *)

Lemma after_gt_length s rest : after_gt s = Some rest -> length rest < length s.
Proof.
  revert rest. induction s as [|c s IH]; intros rest; cbn [after_gt]; [discriminate|].
  destruct (c =? 62)%N.
  - intros H; injection H as <-. cbn. lia.
  - destruct (c =? 10)%N; [discriminate|]. intros H. apply IH in H. cbn. lia.
Qed.

Lemma after_gt_spec s rest :
  after_gt s = Some rest ->
  exists t, s = t ++ 62%N :: rest /\ ~ In 62%N t /\ ~ In 10%N t.
Proof.
  revert rest. induction s as [|c s IH]; intros rest; cbn [after_gt]; [discriminate|].
  destruct (N.eqb_spec c 62) as [->|H62].
  - intros H; injection H as <-. exists []. repeat split; auto.
  - destruct (N.eqb_spec c 10) as [->|H10]; [discriminate|].
    intros H. destruct (IH _ H) as (t & -> & Ht1 & Ht2).
    exists (c :: t). repeat split; auto; intros [E|E]; auto.
Qed.

Lemma after_gt_found t rest :
  ~ In 62%N t -> ~ In 10%N t -> after_gt (t ++ 62%N :: rest) = Some rest.
Proof.
  induction t as [|c t IH]; intros H1 H2; cbn [app after_gt].
  - reflexivity.
  - destruct (N.eqb_spec c 62) as [->|H62]; [elim H1; now left|].
    destruct (N.eqb_spec c 10) as [->|H10]; [elim H2; now left|].
    apply IH; intros E; [apply H1|apply H2]; now right.
Qed.

Lemma remove_tags_fuel_enough fuel :
  forall s, length s <= fuel ->
    remove_tags_fuel fuel s = remove_tags_fuel (length s) s.
Proof.
  induction fuel as [fuel IH] using lt_wf_ind. intros s Hs.
  destruct s as [|c r]; [destruct fuel; reflexivity|].
  destruct fuel as [|fuel]; [cbn in Hs; lia|].
  cbn [length remove_tags_fuel]. cbn [length] in Hs.
  destruct (c =? 60)%N.
  - destruct (after_gt r) as [rest|] eqn:E.
    + pose proof (after_gt_length _ _ E) as Hl.
      rewrite (IH fuel) by lia. symmetry. apply IH; lia.
    + f_equal. apply IH; lia.
  - f_equal. apply IH; lia.
Qed.

Lemma remove_tags_cons c r :
  remove_tags (c :: r) =
  if (c =? 60)%N then
    match after_gt r with
    | Some rest => remove_tags rest
    | None => c :: remove_tags r
    end
  else c :: remove_tags r.
Proof.
  unfold remove_tags. cbn [length remove_tags_fuel].
  destruct (c =? 60)%N; [destruct (after_gt r) as [rest|] eqn:E|].
  - apply remove_tags_fuel_enough. apply after_gt_length in E. lia.
  - reflexivity.
  - reflexivity.
Qed.

Lemma remove_tags_plain a : ~ In 60%N a -> forall b, remove_tags (a ++ b) = a ++ remove_tags b.
Proof.
  induction a as [|c a IH]; intros H b; [reflexivity|].
  cbn [app]. rewrite remove_tags_cons.
  destruct (N.eqb_spec c 60) as [->|Hc]; [elim H; now left|].
  f_equal. apply IH. intros E. apply H. now right.
Qed.

(** X12.  A tag [<...>] on one line is removed whole from a name, and the
    text before it is kept as it is. *)
Theorem remove_tags_removes_a_tag (a t b : pystr) :
  ~ In 60%N a -> ~ In 62%N t -> ~ In 10%N t ->
  remove_tags (a ++ 60%N :: t ++ 62%N :: b) = a ++ remove_tags b.
Proof.
  intros Ha Ht1 Ht2. rewrite (remove_tags_plain a Ha), remove_tags_cons.
  cbn [N.eqb Pos.eqb]. now rewrite after_gt_found.
Qed.

Lemma remove_tags_removes_a_tag_witness :
  remove_tags (utf8 "TSMC " ++ 60%N :: utf8 "b class=x" ++ 62%N :: utf8 "2330")
  = utf8 "TSMC " ++ remove_tags (utf8 "2330").
Proof.
  apply (remove_tags_removes_a_tag (utf8 "TSMC ") (utf8 "b class=x") (utf8 "2330"));
    vm_compute; intuition discriminate.
Defined.

(** X13.  A name without [<] is left unchanged by the tag removal. *)
Theorem remove_tags_keeps_plain_text (s : pystr) :
  ~ In 60%N s -> remove_tags s = s.
Proof.
  intros H. rewrite <- (app_nil_r s) at 1.
  rewrite (remove_tags_plain s H). cbn. apply app_nil_r.
Qed.

Lemma remove_tags_keeps_plain_text_witness :
  remove_tags (utf8 "台積電") = utf8 "台積電".
Proof.
  apply (remove_tags_keeps_plain_text (utf8 "台積電")).
  vm_compute. intuition discriminate.
Defined.

(* ===================================================================== *)
(** ** Parsing of numeric cells *)
(* ===================================================================== *)

Lemma replace_fuel_drop_char c fuel :
  forall s, length s <= fuel ->
    replace_fuel fuel [c] [] s = filter (fun x => negb (x =? c)%N) s.
Proof.
  induction fuel as [|fuel IH]; intros s Hs.
  - destruct s; [reflexivity|cbn in Hs; lia].
  - destruct s as [|a s]; [reflexivity|].
    cbn [replace_fuel startswith length skipn filter app]. cbn [length] in Hs.
    rewrite (N.eqb_sym a c). destruct (c =? a)%N; cbn [andb negb].
    + apply IH. lia.
    + f_equal. apply IH. lia.
Qed.

Lemma replace_fuel_absent old new fuel c0 old' :
  old = c0 :: old' ->
  forall s, ~ In c0 s -> replace_fuel fuel old new s = s.
Proof.
  intros ->. induction fuel as [|fuel IH]; intros s Hs; [reflexivity|].
  destruct s as [|a s]; [reflexivity|]. cbn [replace_fuel startswith].
  destruct (N.eqb_spec c0 a) as [->|Hne]; [elim Hs; now left|].
  cbn [andb]. f_equal. apply IH. intros E. apply Hs. now right.
Qed.

Lemma digit_not_space c : PyFloat.is_digit c = true -> isspace c = false.
Proof.
  unfold PyFloat.is_digit, isspace. intros H.
  apply andb_true_iff in H. destruct H as [H1 H2].
  apply N.leb_le in H1. apply N.leb_le in H2.
  repeat (apply orb_false_iff; split);
    try (apply andb_false_iff);
    try (apply N.eqb_neq; lia);
    try (right; apply N.leb_gt; lia);
    try (left; apply N.leb_gt; lia).
Qed.

Lemma digit_not_c_space c : PyFloat.is_digit c = true -> PyFloat.is_c_space c = false.
Proof.
  unfold PyFloat.is_digit, PyFloat.is_c_space. intros H.
  apply andb_true_iff in H. destruct H as [H1 H2].
  apply N.leb_le in H1. apply N.leb_le in H2.
  apply orb_false_iff; split; [apply N.eqb_neq; lia|].
  apply andb_false_iff. right. apply N.leb_gt. lia.
Qed.

Lemma strip_digits ds :
  Forall (fun c => PyFloat.is_digit c = true) ds -> strip ds = ds.
Proof.
  intros H. unfold strip, rstrip.
  assert (G : forall l, Forall (fun c => PyFloat.is_digit c = true) l -> lstrip l = l).
  { intros l Hl. apply lstrip_fixed. intros c r ->. inversion Hl; subst.
    now apply digit_not_space. }
  rewrite (G ds H), G, rev_involutive; auto.
  apply Forall_rev. exact H.
Qed.

Lemma strip_c_digits ds :
  Forall (fun c => PyFloat.is_digit c = true) ds -> PyFloat.strip_c ds = ds.
Proof.
  intros H. unfold PyFloat.strip_c.
  assert (G : forall l, Forall (fun c => PyFloat.is_digit c = true) l ->
                        PyFloat.lstrip_c l = l).
  { intros l Hl. destruct l as [|c r]; [reflexivity|]. inversion Hl; subst.
    cbn [PyFloat.lstrip_c]. now rewrite digit_not_c_space. }
  rewrite (G ds H), G, rev_involutive; auto.
  apply Forall_rev. exact H.
Qed.

Lemma to_ascii_digits ds :
  Forall (fun c => PyFloat.is_digit c = true) ds -> map PyFloat.to_ascii ds = ds.
Proof.
  induction 1 as [|c ds Hc _ IH]; cbn [map]; [reflexivity|].
  rewrite IH. f_equal. unfold PyFloat.to_ascii, PyFloat.is_digit in *.
  apply andb_true_iff in Hc. destruct Hc as [_ Hc]. apply N.leb_le in Hc.
  destruct (N.ltb_spec c 127); [reflexivity|lia].
Qed.

Lemma digit_not_underscore c : PyFloat.is_digit c = true -> (c =? 95)%N = false.
Proof.
  unfold PyFloat.is_digit. intros H. apply andb_true_iff in H.
  destruct H as [_ H]. apply N.leb_le in H. apply N.eqb_neq. lia.
Qed.

Lemma drop_underscores_digits ds :
  Forall (fun c => PyFloat.is_digit c = true) ds ->
  forall prev, (prev =? 95)%N = false ->
    PyFloat.drop_underscores prev ds = Some ds.
Proof.
  induction 1 as [|c ds Hc _ IH]; intros prev Hp; cbn [PyFloat.drop_underscores].
  - now rewrite Hp.
  - rewrite (digit_not_underscore c Hc), Hp. cbn [andb].
    rewrite (IH c (digit_not_underscore c Hc)). reflexivity.
Qed.

Lemma span_digits_all ds :
  Forall (fun c => PyFloat.is_digit c = true) ds ->
  PyFloat.span_digits ds = (map (fun c => (c - 48)%N) ds, []).
Proof.
  induction 1 as [|c ds Hc _ IH]; cbn [PyFloat.span_digits map]; [reflexivity|].
  now rewrite Hc, IH.
Qed.

Lemma split_sign_digit c ds :
  PyFloat.is_digit c = true -> PyFloat.split_sign (c :: ds) = (false, c :: ds).
Proof.
  unfold PyFloat.is_digit. intros H. apply andb_true_iff in H.
  destruct H as [H1 H2]. apply N.leb_le in H1. apply N.leb_le in H2.
  unfold PyFloat.split_sign.
  destruct c as [|p]; [reflexivity|].
  destruct p as [p|p|]; try reflexivity;
  destruct p as [p|p|]; try reflexivity;
  destruct p as [p|p|]; try reflexivity;
  destruct p as [p|p|]; try reflexivity;
  destruct p as [p|p|]; try reflexivity;
  destruct p as [p|p|]; try reflexivity; lia.
Qed.

Lemma parse_digits c ds :
  Forall (fun c => PyFloat.is_digit c = true) (c :: ds) ->
  PyFloat.parse (c :: ds)
  = Some (of_Z (PyFloat.digits_value (map (fun c => (c - 48)%N) (c :: ds)))).
Proof.
  intros H. unfold PyFloat.parse.
  rewrite (to_ascii_digits _ H), (strip_c_digits _ H),
    (drop_underscores_digits _ H 0%N eq_refl).
  inversion H as [|? ? Hc Hds]; subst.
  rewrite (split_sign_digit c ds Hc).
  unfold PyFloat.parse_decimal. rewrite (span_digits_all _ H).
  rewrite app_nil_r. cbn [map PyFloat.parse_exponent length Z.of_nat].
  set (m := PyFloat.digits_value _).
  unfold PyFloat.of_decimal, of_Z. replace (0 - 0)%Z with 0%Z by reflexivity.
  destruct (Z.eqb_spec m 0) as [->|Hm]; [reflexivity|].
  cbn [Z.leb Z.compare cond_Zopp]. change (10 ^ 0)%Z with 1%Z.
  now rewrite Z.mul_1_r.
Qed.

Lemma filter_digit_or_comma s :
  Forall (fun c => digit_or_comma c = true) s ->
  filter (fun x => negb (x =? 44)%N) s = filter PyFloat.is_digit s.
Proof.
  induction 1 as [|c s Hc _ IH]; cbn [filter]; [reflexivity|].
  rewrite IH. unfold digit_or_comma in Hc.
  destruct (N.eqb_spec c 44) as [->|Hne]; [reflexivity|].
  rewrite orb_false_r in Hc. now rewrite Hc.
Qed.

Lemma digits_no_minus ds :
  Forall (fun c => PyFloat.is_digit c = true) ds -> ~ In 45%N ds.
Proof.
  intros H Hin. rewrite Forall_forall in H. specialize (H _ Hin). discriminate H.
Qed.

(** X24.  Thousands separators are ignored: a cell made of digits and commas,
    with at least one digit, is parsed by [to_num] and by [to_price] to the
    integer its digits write. *)
Theorem digits_and_commas_parse_to_the_integer (s : pystr) :
  Forall (fun c => digit_or_comma c = true) s ->
  existsb PyFloat.is_digit s = true ->
  to_num (CStr s) = Ok (of_Z (digits_of s))
  /\ to_price (CStr s) = Ok (of_Z (digits_of s)).
Proof.
  intros Hs Hd.
  assert (Hall : Forall (fun c => PyFloat.is_digit c = true) (filter PyFloat.is_digit s)).
  { apply Forall_forall. intros c Hc. apply filter_In in Hc. apply Hc. }
  assert (Ht : numeric_text (CStr s) = filter PyFloat.is_digit s).
  { unfold numeric_text. cbn [py_str].
    change (utf8 ",") with [44%N]. unfold replace at 2.
    rewrite replace_fuel_drop_char by lia.
    rewrite (filter_digit_or_comma s Hs). unfold replace.
    rewrite (replace_fuel_absent (utf8 "--") (utf8 "0") _ 45%N [45%N] eq_refl)
      by (apply digits_no_minus; exact Hall).
    apply strip_digits. exact Hall. }
  assert (Hp : PyFloat.parse (numeric_text (CStr s)) = Some (of_Z (digits_of s))).
  { rewrite Ht. unfold digits_of.
    destruct (filter PyFloat.is_digit s) as [|c ds] eqn:E.
    - exfalso. apply existsb_exists in Hd. destruct Hd as (c & Hin & Hc).
      assert (In c (filter PyFloat.is_digit s)) by (apply filter_In; auto).
      rewrite E in H. destruct H.
    - apply parse_digits. exact Hall. }
  unfold to_num, to_price, PyFloat.py_float. rewrite Hp. split; reflexivity.
Qed.

Lemma digits_and_commas_parse_to_the_integer_witness :
  to_num (text "1,234,567") = Ok (of_Z (digits_of (utf8 "1,234,567")))
  /\ to_price (text "1,234,567") = Ok (of_Z (digits_of (utf8 "1,234,567"))).
Proof.
  apply (digits_and_commas_parse_to_the_integer (utf8 "1,234,567")).
  - vm_compute. repeat constructor.
  - vm_compute. reflexivity.
Defined.

(* ===================================================================== *)
(** ** Further properties of fetching and of the driver *)
(* ===================================================================== *)

(** X14.  [fetch_twse_table] raises only on a payload that is not a mapping:
    a failed request and every mapping are answered with a pair. *)
Theorem fetch_raises_only_on_non_mapping
        (r : result json) (pd : json -> json -> result DataFrame) (e : pystr) :
  fetch_twse_table r pd = Raise e ->
  exists js, r = Ok js /\ forall d, js <> JDict d.
Proof.
  unfold fetch_twse_table. destruct r as [js|e0]; [|discriminate].
  destruct (table_of pd js) as [df|] eqn:Et; [discriminate|].
  intros H. exists js. split; [reflexivity|]. intros d ->. cbn [items bind] in H.
  destruct (first_table pd d); discriminate.
Qed.

Lemma fetch_raises_only_on_non_mapping_witness :
  exists js, Ok (JList []) = Ok js /\ forall d, js <> JDict d.
Proof.
  apply (fetch_raises_only_on_non_mapping (Ok (JList [])) sample_pd_DataFrame
           (utf8 "AttributeError: 'list' object has no attribute 'items'")).
  vm_compute. reflexivity.
Defined.

Lemma first_table_app pd l1 l2 :
  Forall (fun kv => table_of pd (snd kv) = None) l1 ->
  first_table pd (l1 ++ l2) = first_table pd l2.
Proof.
  induction 1 as [|[k v] l1 Hv _ IH]; cbn [app first_table]; auto.
  cbn [snd] in Hv. now rewrite Hv.
Qed.

(** X15.  When the payload itself is not a table, the nested search returns
    the table of the first entry, in the order of the mapping, whose value is
    one. *)
Theorem fetch_selects_first_nested_table
        (pd : json -> json -> result DataFrame)
        (l1 l2 : list (pystr * json)) (k : pystr) (v : json) (df : DataFrame) :
  table_of pd (JDict (l1 ++ (k, v) :: l2)) = None ->
  Forall (fun kv => table_of pd (snd kv) = None) l1 ->
  table_of pd v = Some df ->
  fetch_twse_table (Ok (JDict (l1 ++ (k, v) :: l2))) pd = Ok (Value df).
Proof.
  intros Htop Hl1 Hv. unfold fetch_twse_table. rewrite Htop. cbn [items bind].
  rewrite (first_table_app pd l1 _ Hl1). cbn [first_table]. now rewrite Hv.
Qed.

Lemma fetch_selects_first_nested_table_witness :
  fetch_twse_table (Ok nested_payload) sample_pd_DataFrame = Ok (Value sample_table).
Proof.
  apply (fetch_selects_first_nested_table sample_pd_DataFrame
           [(utf8 "stat", JStr (utf8 "OK"))] [(utf8 "table8", sample_payload)]
           (utf8 "table9") sample_payload sample_table).
  - vm_compute. reflexivity.
  - repeat constructor.
  - vm_compute. reflexivity.
Defined.

(* ---- the loop ---- *)

Lemma scan_step_spec w s0 c0 row :
  scan_step w (s0, c0) row = (s0 ++ strong_entry w row, c0 ++ chart_entry w row).
Proof.
  unfold scan_step, strong_entry, chart_entry, verdict_of.
  destruct (is_strong_stock _ _ _) as [[ok reason] hist].
  destruct ok; [|now rewrite !app_nil_r].
  destruct hist as [data|]; [|now rewrite app_nil_r].
  destruct (plot_chart _ _ _ _) as [[|c p]|]; now rewrite ?app_nil_r.
Qed.

Lemma scan_from w u :
  forall s0 c0,
    fold_left (scan_step w) u (s0, c0)
    = (s0 ++ flat_map (strong_entry w) u, c0 ++ flat_map (chart_entry w) u).
Proof.
  induction u as [|row u IH]; intros s0 c0; cbn [fold_left flat_map].
  - now rewrite !app_nil_r.
  - rewrite scan_step_spec, IH, <- !app_assoc. reflexivity.
Qed.

Lemma scan_spec w u :
  scan w u = (flat_map (strong_entry w) u, flat_map (chart_entry w) u).
Proof. unfold scan. now rewrite scan_from. Qed.

(** X16.  The list [strong] that the loop builds holds exactly the members
    of the universe whose verdict passed, in ranked order, each with its
    trimmed code and name and its reason. *)
Theorem strong_lists_the_passing_members (w : World) (u : list Instrument) :
  fst (scan w u) = flat_map (strong_entry w) u
  /\ length (fst (scan w u))
     = length (filter (fun row => fst (fst (verdict_of w row))) u).
Proof.
  rewrite scan_spec. cbn [fst]. split; [reflexivity|].
  induction u as [|row u IH]; cbn [flat_map filter]; [reflexivity|].
  rewrite length_app, IH. unfold strong_entry.
  destruct (verdict_of w row) as [[ok reason] hist]. cbn [fst].
  destruct ok; reflexivity.
Qed.

Lemma chart_entry_length w row :
  length (chart_entry w row) <= length (strong_entry w row).
Proof.
  unfold chart_entry, strong_entry.
  destruct (verdict_of w row) as [[ok reason] hist].
  destruct ok; [|cbn; lia].
  destruct hist as [data|]; [|cbn; lia].
  destruct (plot_chart _ _ _ _) as [[|c p]|]; cbn; lia.
Qed.

Lemma strong_entry_length w row : length (strong_entry w row) <= 1.
Proof.
  unfold strong_entry. destruct (verdict_of w row) as [[ok reason] hist].
  destruct ok; cbn; lia.
Qed.

(** X17.  The loop never collects more charts than strong stocks, nor more
    strong stocks than the universe has members. *)
Theorem charts_strong_universe_sizes (w : World) (u : list Instrument) :
  length (snd (scan w u)) <= length (fst (scan w u))
  /\ length (fst (scan w u)) <= length u.
Proof.
  rewrite scan_spec. cbn [fst snd].
  induction u as [|row u [IH1 IH2]]; cbn [flat_map length]; [lia|].
  rewrite !length_app.
  pose proof (chart_entry_length w row). pose proof (strong_entry_length w row).
  lia.
Qed.

Lemma filter_photo_texts l : Forall (fun ev => is_photo ev = false) l -> filter is_photo l = [].
Proof.
  induction 1 as [|ev l Hev _ IH]; cbn [filter]; auto. now rewrite Hev.
Qed.

Lemma filter_photo_photos ps : filter is_photo (map SendPhoto ps) = map SendPhoto ps.
Proof. induction ps as [|p ps IH]; cbn; [reflexivity|now rewrite IH]. Qed.

(** X18.  Whatever the number of charts, a run requests at most five
    photos. *)
Theorem main_sends_at_most_five_photos (w : World) :
  length (filter is_photo (fst (main w))) <= 5.
Proof.
  unfold main.
  destruct (fetch_twse_table _ _) as [[df_raw|err]|e]; cbn [fst];
    [|cbn [app filter is_photo length]; lia ..].
  destruct (extract_top300 _ _ _) as [[df_top|err2]|e]; cbn [fst];
    [|cbn [app filter is_photo length]; lia ..].
  destruct (scan w df_top) as [strong charts].
  destruct strong as [|s strong]; cbn [fst].
  - cbn [app filter is_photo length]. lia.
  - cbn [app filter is_photo].
    rewrite filter_photo_photos, length_map. cbn [length].
    pose proof (firstn_le_length 5 charts). 
    rewrite length_firstn. lia.
Qed.

Lemma extract_top300_to_csv_ok tie to_csv df u :
  extract_top300 tie to_csv df = Ok (Value u) -> to_csv u = Ok tt.
Proof.
  unfold extract_top300.
  destruct (normalised_table df) as [[qs|err]|e]; cbn [bind]; try discriminate.
  destruct (to_csv (rank_universe tie qs)) as [[]|e] eqn:E; cbn [bind]; [|discriminate].
  intros H; injection H as <-. exact E.
Qed.

(** X19.  When no member of the universe passes, an empty universe included,
    the run is not an error: it reports the universe size, sends the
    no-candidates message, and returns without writing [strong_stocks.csv]. *)
Theorem main_without_candidates (w : World) (df_raw : DataFrame)
        (u : list Instrument) :
  fetch_twse_table (http_get_json w) (pd_DataFrame w) = Ok (Value df_raw) ->
  extract_top300 (quicksort_tie w) (top_volume_to_csv w) df_raw = Ok (Value u) ->
  Forall (fun row => fst (fst (verdict_of w row)) = false) u ->
  main w = ([start_message w; count_message (length u); none_message], Ok tt).
Proof.
  intros Hf Hx Hnone. unfold main. rewrite Hf, Hx, scan_spec.
  assert (E : flat_map (strong_entry w) u = []).
  { clear - Hnone.
    induction Hnone as [|row u Hrow _ IH]; cbn [flat_map]; [reflexivity|].
    rewrite IH, app_nil_r. unfold strong_entry.
    destruct (verdict_of w row) as [[ok reason] hist]. cbn [fst] in Hrow.
    now rewrite Hrow. }
  rewrite E. reflexivity.
Qed.

Lemma main_without_candidates_witness :
  main quiet_world
  = ([start_message quiet_world; count_message (length sample_universe);
      none_message], Ok tt).
Proof.
  apply (main_without_candidates quiet_world sample_table sample_universe).
  - vm_compute. reflexivity.
  - vm_compute. reflexivity.
  - vm_compute. repeat constructor.
Defined.

(** X20.  A failed request is fatal to the run but not a crash: [main] sends
    the start message and one failure message carrying the error, and
    returns. *)
Theorem main_reports_fetch_failure (w : World) (e : pystr) :
  http_get_json w = Raise e ->
  main w
  = ([start_message w;
      SendText (utf8 "❌ TWSE 資料讀取失敗：" ++ utf8 "TWSE fetch failed: " ++ e)],
     Ok tt).
Proof.
  intros H. unfold main, fetch_twse_table. rewrite H. reflexivity.
Qed.

Lemma main_reports_fetch_failure_witness :
  main offline_world
  = ([start_message offline_world;
      SendText (utf8 "❌ TWSE 資料讀取失敗：" ++ utf8 "TWSE fetch failed: "
                ++ utf8 "ConnectionError")],
     Ok tt).
Proof.
  apply (main_reports_fetch_failure offline_world (utf8 "ConnectionError")).
  reflexivity.
Defined.

Lemma strong_entry_with_plot w plot row :
  strong_entry (with_plot w plot) row = strong_entry w row.
Proof. reflexivity. Qed.

Lemma filter_text_photos ps : filter is_text (map SendPhoto ps) = [].
Proof. induction ps as [|p ps IH]; cbn; auto. Qed.

(** X21.  Chart failures are not fatal: replacing the chart library by any
    other, one that always raises included, changes neither the texts the
    run sends nor the way it ends. *)
Theorem main_texts_do_not_depend_on_charts
        (w : World) (plot : pystr -> list nat -> Indicators -> result unit) :
  filter is_text (fst (main (with_plot w plot))) = filter is_text (fst (main w))
  /\ snd (main (with_plot w plot)) = snd (main w).
Proof.
  unfold main. cbn [now http_get_json pd_DataFrame quicksort_tie
                    top_volume_to_csv strong_to_csv with_plot].
  destruct (fetch_twse_table _ _) as [[df_raw|err]|e]; try (split; reflexivity).
  destruct (extract_top300 _ _ _) as [[df_top|err2]|e]; try (split; reflexivity).
  rewrite !scan_spec.
  assert (E : flat_map (strong_entry (with_plot w plot)) df_top
              = flat_map (strong_entry w) df_top).
  { apply flat_map_ext. intros row. apply strong_entry_with_plot. }
  rewrite E. destruct (flat_map (strong_entry w) df_top) as [|s strong].
  - split; reflexivity.
  - cbn [fst snd]. split; [|reflexivity].
    rewrite !filter_app. cbn [filter is_text is_photo negb].
    now rewrite !filter_text_photos.
Qed.

(* ---- chart files ---- *)

Lemma replace_fuel_char c d fuel :
  c <> d ->
  forall s, length s <= fuel -> ~ In c (replace_fuel fuel [c] [d] s).
Proof.
  intros Hcd. induction fuel as [|fuel IH]; intros s Hs.
  - destruct s; [auto|cbn in Hs; lia].
  - destruct s as [|a s]; [auto|]. cbn [replace_fuel startswith length skipn].
    cbn [length] in Hs.
    destruct (N.eqb_spec c a) as [->|Hca]; cbn [andb].
    + cbn [app]. intros [E|E]; [congruence|]. revert E. apply IH. lia.
    + intros [E|E]; [congruence|]. revert E. apply IH. lia.
Qed.

Lemma path_join_relative c r :
  c <> 47%N -> path_join CHART_DIR (c :: r) = CHART_DIR ++ 47%N :: c :: r.
Proof.
  intros Hc. unfold path_join.
  destruct c as [|p]; [vm_compute; reflexivity|].
  destruct p as [p|p|]; try (vm_compute; reflexivity);
  destruct p as [p|p|]; try (vm_compute; reflexivity);
  destruct p as [p|p|]; try (vm_compute; reflexivity);
  destruct p as [p|p|]; try (vm_compute; reflexivity);
  destruct p as [p|p|]; try (vm_compute; reflexivity);
  destruct p as [p|p|]; try (vm_compute; reflexivity).
  elim Hc. reflexivity.
Qed.

(** X22.  The name of a company never adds a path separator to the chart
    file: when the code holds no [/], the chart is a file directly in
    [strong_output/charts]. *)
Theorem chart_file_is_in_chart_dir (symbol_plain name : pystr) :
  ~ In 47%N symbol_plain ->
  exists base, chart_file symbol_plain name = CHART_DIR ++ 47%N :: base
               /\ ~ In 47%N base.
Proof.
  intros Hs.
  exists (symbol_plain ++ utf8 "_" ++ replace (utf8 "/") (utf8 "_") name ++ utf8 ".png").
  split.
  - unfold chart_file. destruct symbol_plain as [|b sp].
    + cbn [app]. change (utf8 "_") with [95%N]. cbn [app].
      apply path_join_relative. discriminate.
    + cbn [app]. apply path_join_relative. intros ->. apply Hs. now left.
  - intros H. apply in_app_or in H. destruct H as [H|H]; [auto|].
    apply in_app_or in H. destruct H as [H|H]; [vm_compute in H; intuition discriminate|].
    apply in_app_or in H. destruct H as [H|H]; [|vm_compute in H; intuition discriminate].
    revert H. unfold replace. apply replace_fuel_char; [discriminate|lia].
Qed.

Lemma chart_file_is_in_chart_dir_witness :
  exists base, chart_file (utf8 "2330") (utf8 "A/B") = CHART_DIR ++ 47%N :: base
               /\ ~ In 47%N base.
Proof.
  apply (chart_file_is_in_chart_dir (utf8 "2330") (utf8 "A/B")).
  vm_compute. intuition discriminate.
Defined.

(** X23.  The chart library is only asked for moving averages whose window
    fits the data, and for a passing symbol those over 3, 5 and 8 bars are
    always among them. *)
Theorem available_mav_fits_the_data
        (yf : pystr -> download) (symbol_plain name : pystr)
        (reason : Reason) (data : Indicators) :
  is_strong_stock yf symbol_plain name = (true, reason, Some data) ->
  Forall (fun m => m <= length (rows data)) (available_mav data)
  /\ exists longer, available_mav data = 3 :: 5 :: 8 :: longer.
Proof.
  intros H. split.
  - unfold available_mav. apply Forall_forall. intros m Hm.
    apply filter_In in Hm. destruct Hm as [_ Hm]. now apply Nat.leb_le.
  - destruct (is_strong_stock_data_inv _ _ _ _ _ _ H) as (df & _ & _ & _ & _ & Hlen).
    specialize (Hlen eq_refl). unfold available_mav. cbn [filter].
    destruct (Nat.leb_spec 3 (length (rows data))); [|lia].
    destruct (Nat.leb_spec 5 (length (rows data))); [|lia].
    destruct (Nat.leb_spec 8 (length (rows data))); [|lia].
    eexists. reflexivity.
Qed.

Lemma available_mav_fits_the_data_witness :
  Forall (fun m => m <= length (rows (add_indicators sample_bars)))
         (available_mav (add_indicators sample_bars))
  /\ exists longer, available_mav (add_indicators sample_bars) = 3 :: 5 :: 8 :: longer.
Proof.
  apply (available_mav_fits_the_data sample_provider (utf8 "2330") (utf8 "TSMC")
           (Breakdown (conditions (add_indicators sample_bars)))).
  vm_compute. reflexivity.
Defined.
